(** * MindForge planning agent: validators, gateway retry, orchestrator

    A shallow embedding of the two Deno edge functions of the repository:

    - the planning agent (validators, [callLLM], the four tool executors,
      [PlanningAgent], [parseJSONResponse] and the HTTP handler), and
    - the earlier single-call function [analyze-goal/index.ts]
      ([fetchWithRetry]).

    JavaScript strings are sequences of UTF-16 code units, untyped data is a
    tree of JavaScript values, thrown errors are an explicit error result,
    and the network, the timers and the console are an explicit world that is
    threaded through every asynchronous function.

    Left out: the CORS headers, the console lines other than the one each
    tool executor prints on entry, and the LLM configuration (key, model,
    temperature, token budget), which is constant during a run. The message
    texts of errors thrown by built-ins (a SyntaxError of [JSON.parse], a
    TypeError) are engine specific and stand for themselves. *)

From Stdlib Require Import List ZArith NArith QArith Qreduction Bool Lia.
From Stdlib Require Import Ascii String DecimalString.
Import ListNotations.
Close Scope Q_scope.

Set Implicit Arguments.
Set Warnings "-register-all".

(* ================================================================== *)
(** ** JavaScript strings *)

Module JsString.

Definition code_unit := N.
Definition jsstring := list code_unit.

(** A source literal (ASCII) as a JavaScript string. *)
Definition lit (s : string) : jsstring :=
  List.map N_of_ascii (list_ascii_of_string s).

(** Decimal rendering of an array index or a status code inside a
    template literal. *)
Definition dec (n : nat) : jsstring :=
  lit (NilEmpty.string_of_uint (Nat.to_uint n)).

Definition eqb (a b : jsstring) : bool :=
  if list_eq_dec N.eq_dec a b then true else false.

(** WhiteSpace and LineTerminator code points, the set removed by
    [String.prototype.trim]. *)
Definition is_whitespace (c : code_unit) : bool :=
  let c := Z.of_N c in
  ((9 <=? c) && (c <=? 13) || (c =? 32) || (c =? 160) || (c =? 5760)
   || (8192 <=? c) && (c <=? 8202)
   || (c =? 8232) || (c =? 8233) || (c =? 8239) || (c =? 8287)
   || (c =? 12288) || (c =? 65279))%Z.

Fixpoint trimStart (s : jsstring) : jsstring :=
  match s with
  | c :: r => if is_whitespace c then trimStart r else s
  | [] => []
  end.

Definition trimEnd (s : jsstring) : jsstring := rev (trimStart (rev s)).

Definition trim (s : jsstring) : jsstring := trimEnd (trimStart s).

Fixpoint startsWith (s p : jsstring) {struct p} : bool :=
  match p, s with
  | [], _ => true
  | a :: p', b :: s' => N.eqb a b && startsWith s' p'
  | _ :: _, [] => false
  end.

Definition endsWith (s p : jsstring) : bool := startsWith (rev s) (rev p).

(** [s.slice(n)] for [0 <= n]. *)
Definition slice_from (n : nat) (s : jsstring) : jsstring := skipn n s.

(** [s.slice(0, -n)] for [0 < n]. *)
Definition slice_drop_last (n : nat) (s : jsstring) : jsstring :=
  firstn (List.length s - n) s.

End JsString.
Export JsString.

(* ================================================================== *)
(** ** JavaScript values *)

Module JsValue.

(** Numbers: a finite double is a rational and is kept as its exact value;
    the two infinities and NaN are separate. *)
Inductive number : Type :=
| NumFin (q : Q)
| NumInf (negative : bool)
| NumNaN.

(** [n < k] for an integer literal [k]. *)
Definition num_ltb (n : number) (k : Z) : bool :=
  match n with
  | NumFin q => negb (Qle_bool (inject_Z k) q)
  | NumInf negative => negative
  | NumNaN => false
  end.

Definition num_is_zero (n : number) : bool :=
  match n with
  | NumFin q => (Qnum q =? 0)%Z
  | _ => false
  end.

(** [Number.isInteger]. *)
Definition num_is_integer (n : number) : bool :=
  match n with
  | NumFin q => (Z.pos (Qden (Qred q)) =? 1)%Z
  | _ => false
  end.

Inductive jsval : Type :=
| JUndefined
| JNull
| JBool (b : bool)
| JNum (n : number)
| JStr (s : jsstring)
| JArr (elements : list jsval)
| JObj (props : list (jsstring * jsval)).

Inductive jstype : Type :=
| TUndefined | TObject | TBoolean | TNumber | TString.

Definition jstype_eqb (a b : jstype) : bool :=
  match a, b with
  | TUndefined, TUndefined | TObject, TObject | TBoolean, TBoolean
  | TNumber, TNumber | TString, TString => true
  | _, _ => false
  end.

Definition typeof (v : jsval) : jstype :=
  match v with
  | JUndefined => TUndefined
  | JNull => TObject
  | JBool _ => TBoolean
  | JNum _ => TNumber
  | JStr _ => TString
  | JArr _ => TObject
  | JObj _ => TObject
  end.

(** ToBoolean. *)
Definition truthy (v : jsval) : bool :=
  match v with
  | JUndefined | JNull => false
  | JBool b => b
  | JNum NumNaN => false
  | JNum n => negb (num_is_zero n)
  | JStr s => negb (JsString.eqb s [])
  | JArr _ | JObj _ => true
  end.

Definition isArray (v : jsval) : bool :=
  match v with JArr _ => true | _ => false end.

Fixpoint lookup (k : jsstring) (props : list (jsstring * jsval)) : jsval :=
  match props with
  | [] => JUndefined
  | (k', v) :: rest => if JsString.eqb k k' then v else lookup k rest
  end.

(** Property read [v.k] on a value that is neither [null] nor
    [undefined], for the data keys this program reads (none of them is a
    prototype member, so anything but an own property is [undefined]). *)
Definition get (v : jsval) (k : string) : jsval :=
  match v with
  | JObj props => lookup (lit k) props
  | _ => JUndefined
  end.

Definition is_nullish (v : jsval) : bool :=
  match v with JUndefined | JNull => true | _ => false end.

(** [v[0]]. *)
Definition index0 (v : jsval) : jsval :=
  match v with
  | JArr (x :: _) => x
  | JStr (c :: _) => JStr [c]
  | JObj props => lookup (lit "0") props
  | _ => JUndefined
  end.

(** [!v || typeof v !== 'object'], the guard that opens every
    validator. *)
Definition not_an_object (v : jsval) : bool :=
  negb (truthy v) || negb (jstype_eqb (typeof v) TObject).

End JsValue.
Export JsValue.

(* ================================================================== *)
(** ** The built-in JSON.parse

    A reference reader for the JSON grammar (ECMA-404) over code units.
    A number literal is rounded to the nearest double, ties to even, and
    overflows to an infinity (0.99999999999999999 reads as 1, 1e400 as
    Infinity); the sign of a zero is not kept. An object keeps one entry
    per key, the
    last value at the first position. The readers recurse on a fuel that
    [JSON_parse] sets above the length of the text. *)

Module Json.

Definition is_json_ws (c : N) : bool :=
  (c =? 32)%N || (c =? 10)%N || (c =? 13)%N || (c =? 9)%N.

Fixpoint skip_ws (s : jsstring) : jsstring :=
  match s with
  | c :: r => if is_json_ws c then skip_ws r else s
  | [] => []
  end.

Definition digit (c : N) : option Z :=
  if ((48 <=? c) && (c <=? 57))%N then Some (Z.of_N c - 48)%Z else None.

Definition hex (c : N) : option N :=
  if ((48 <=? c) && (c <=? 57))%N then Some (c - 48)%N
  else if ((65 <=? c) && (c <=? 70))%N then Some (c - 55)%N
  else if ((97 <=? c) && (c <=? 102))%N then Some (c - 87)%N
  else None.

(** The characters after an opening quote, up to the closing one. *)
Fixpoint read_string (s : jsstring) (acc : jsstring)
  : option (jsstring * jsstring) :=
  match s with
  | [] => None
  | c :: r =>
      if (c =? 34)%N then Some (rev acc, r)
      else if (c <? 32)%N then None
      else if (c =? 92)%N then
        match r with
        | e :: r1 =>
            if (e =? 117)%N then
              match r1 with
              | h1 :: h2 :: h3 :: h4 :: r2 =>
                  match hex h1, hex h2, hex h3, hex h4 with
                  | Some a, Some b, Some c', Some d =>
                      read_string r2
                        ((((a * 16 + b) * 16 + c') * 16 + d)%N :: acc)
                  | _, _, _, _ => None
                  end
              | _ => None
              end
            else
              let esc :=
                if (e =? 34)%N then Some 34%N
                else if (e =? 92)%N then Some 92%N
                else if (e =? 47)%N then Some 47%N
                else if (e =? 98)%N then Some 8%N
                else if (e =? 102)%N then Some 12%N
                else if (e =? 110)%N then Some 10%N
                else if (e =? 114)%N then Some 13%N
                else if (e =? 116)%N then Some 9%N
                else None in
              match esc with
              | Some x => read_string r1 (x :: acc)
              | None => None
              end
        | [] => None
        end
      else read_string r (c :: acc)
  end.

(** A maximal run of digits: its value continued from [acc], its length
    and the rest. *)
Fixpoint read_digits (s : jsstring) (acc : Z) (len : nat)
  : Z * nat * jsstring :=
  match s with
  | c :: r =>
      match digit c with
      | Some d => read_digits r (acc * 10 + d)%Z (S len)
      | None => (acc, len, s)
      end
  | [] => (acc, len, s)
  end.

Definition scale (m e : Z) : Q :=
  if (0 <=? e)%Z then inject_Z (m * 10 ^ e)
  else Qred (Qmake m (Z.to_pos (10 ^ (- e)))).

(** [n / d] rounded to an integer, ties to even, for [0 <= n], [0 < d]. *)
Definition round_half_even (n d : Z) : Z :=
  let k := (n / d)%Z in
  match (2 * (n mod d) ?= d)%Z with
  | Lt => k
  | Gt => (k + 1)%Z
  | Eq => if Z.even k then k else (k + 1)%Z
  end.

(** The double nearest to a rational (IEEE 754 binary64, round to nearest,
    ties to even). With [e] the binary exponent of [|q|], the spacing of
    the doubles around [q] is [2^u] for [u = max (e - 52) (-1074)], and
    the result is the multiple [m * 2^u] nearest to [q]; it is an infinity
    from [2^1024] on. *)
Definition to_double (q : Q) : number :=
  let n := Z.abs (Qnum q) in
  let d := Z.pos (Qden q) in
  if (n =? 0)%Z then NumFin 0
  else
    let el := (Z.log2 n - Z.log2 d)%Z in
    let below :=
      if (0 <=? el)%Z then (n <? d * 2 ^ el)%Z
      else (n * 2 ^ (- el) <? d)%Z in
    let e := if below then (el - 1)%Z else el in
    let u := Z.max (e - 52) (-1074) in
    let m :=
      if (0 <=? u)%Z then round_half_even n (d * 2 ^ u)
      else round_half_even (n * 2 ^ (- u)) d in
    let negative := (Qnum q <? 0)%Z in
    if (0 <=? u)%Z && (2 ^ 1024 <=? m * 2 ^ u)%Z then NumInf negative
    else
      let s := if negative then (- m)%Z else m in
      NumFin (if (0 <=? u)%Z then inject_Z (s * 2 ^ u)
              else Qred (Qmake s (Z.to_pos (2 ^ (- u))))).

(** number = [ - ] int [ . digits ] [ (e|E) [ + | - ] digits ] *)
Definition read_number (s : jsstring) : option (number * jsstring) :=
  let '(neg, s1) :=
    match s with
    | c :: r => if (c =? 45)%N then (true, r) else (false, s)
    | [] => (false, s)
    end in
  let '(ip, ilen, s2) := read_digits s1 0%Z 0 in
  let leading_zero :=
    match s1 with c :: _ => (c =? 48)%N | [] => false end in
  if (ilen =? 0)%nat || (leading_zero && (1 <? ilen)%nat) then None
  else
    let frac :=
      match s2 with
      | c :: r =>
          if (c =? 46)%N then
            let '(m, flen, s3) := read_digits r ip 0 in
            if (flen =? 0)%nat then None else Some (m, flen, s3)
          else Some (ip, 0%nat, s2)
      | [] => Some (ip, 0%nat, s2)
      end in
    match frac with
    | None => None
    | Some (m, flen, s3) =>
        let expo :=
          match s3 with
          | c :: r =>
              if (c =? 101)%N || (c =? 69)%N then
                let '(eneg, r1) :=
                  match r with
                  | d :: r' =>
                      if (d =? 45)%N then (true, r')
                      else if (d =? 43)%N then (false, r')
                      else (false, r)
                  | [] => (false, r)
                  end in
                let '(e, elen, s4) := read_digits r1 0%Z 0 in
                if (elen =? 0)%nat then None
                else Some (if eneg then (- e)%Z else e, s4)
              else Some (0%Z, s3)
          | [] => Some (0%Z, s3)
          end in
        match expo with
        | None => None
        | Some (e, s4) =>
            let m' := if neg then (- m)%Z else m in
            Some (to_double (scale m' (e - Z.of_nat flen)), s4)
        end
    end.

(** CreateDataProperty on the object under construction. *)
Fixpoint put (k : jsstring) (v : jsval) (props : list (jsstring * jsval))
  : list (jsstring * jsval) :=
  match props with
  | [] => [(k, v)]
  | (k', v') :: rest =>
      if JsString.eqb k k' then (k', v) :: rest
      else (k', v') :: put k v rest
  end.

Fixpoint read_value (fuel : nat) (s : jsstring)
  : option (jsval * jsstring) :=
  match fuel with
  | O => None
  | S f =>
      match skip_ws s with
      | [] => None
      | c :: r =>
          if (c =? 123)%N then
            match skip_ws r with
            | c1 :: r1 =>
                if (c1 =? 125)%N then Some (JObj [], r1)
                else read_members f r []
            | [] => None
            end
          else if (c =? 91)%N then
            match skip_ws r with
            | c1 :: r1 =>
                if (c1 =? 93)%N then Some (JArr [], r1)
                else read_elements f r []
            | [] => None
            end
          else if (c =? 34)%N then
            match read_string r [] with
            | Some (str, r1) => Some (JStr str, r1)
            | None => None
            end
          else if startsWith (c :: r) (lit "true") then
            Some (JBool true, skipn 4 (c :: r))
          else if startsWith (c :: r) (lit "false") then
            Some (JBool false, skipn 5 (c :: r))
          else if startsWith (c :: r) (lit "null") then
            Some (JNull, skipn 4 (c :: r))
          else
            match read_number (c :: r) with
            | Some (n, r1) => Some (JNum n, r1)
            | None => None
            end
      end
  end

with read_elements (fuel : nat) (s : jsstring) (acc : list jsval)
  : option (jsval * jsstring) :=
  match fuel with
  | O => None
  | S f =>
      match read_value f s with
      | Some (v, r) =>
          match skip_ws r with
          | c :: r1 =>
              if (c =? 44)%N then read_elements f r1 (v :: acc)
              else if (c =? 93)%N then Some (JArr (rev (v :: acc)), r1)
              else None
          | [] => None
          end
      | None => None
      end
  end

with read_members (fuel : nat) (s : jsstring)
                  (acc : list (jsstring * jsval))
  : option (jsval * jsstring) :=
  match fuel with
  | O => None
  | S f =>
      match skip_ws s with
      | c :: r =>
          if (c =? 34)%N then
            match read_string r [] with
            | Some (k, r1) =>
                match skip_ws r1 with
                | c1 :: r2 =>
                    if (c1 =? 58)%N then
                      match read_value f r2 with
                      | Some (v, r3) =>
                          match skip_ws r3 with
                          | c2 :: r4 =>
                              if (c2 =? 44)%N then
                                read_members f r4 (put k v acc)
                              else if (c2 =? 125)%N then
                                Some (JObj (put k v acc), r4)
                              else None
                          | [] => None
                          end
                      | None => None
                      end
                    else None
                | [] => None
                end
            | None => None
            end
          else None
      | [] => None
      end
  end.

(** [JSON.parse(text)]: [None] stands for the SyntaxError it throws. *)
Definition JSON_parse (text : jsstring) : option jsval :=
  match read_value (2 * List.length text + 2) text with
  | Some (v, r) =>
      match skip_ws r with
      | [] => Some v
      | _ :: _ => None
      end
  | None => None
  end.

End Json.
Export Json.


(* ================================================================== *)
(** ** Thrown errors *)

Module Errors.

(** The two classes of the program: [ValidationError] carries the field
    path it was constructed with, every other thrown value is a plain
    [Error] (or a built-in subclass of it) with its message. *)
Inductive js_error : Type :=
| ValidationError (field : jsstring) (message : jsstring)
| Error (message : jsstring).

(** [error instanceof ValidationError] *)
Definition instanceof_ValidationError (e : js_error) : bool :=
  match e with ValidationError _ _ => true | Error _ => false end.

(** [error.message]; the constructor of [ValidationError] passes
    [Validation error on '${field}': ${message}] to [super]. *)
Definition error_message (e : js_error) : jsstring :=
  match e with
  | ValidationError field message =>
      lit "Validation error on '" ++ field ++ lit "': " ++ message
  | Error message => message
  end.

Inductive result (A : Type) : Type :=
| Ok (a : A)
| Err (e : js_error).
Arguments Ok {A} a.
Arguments Err {A} e.

Definition bindR {A B} (r : result A) (k : A -> result B) : result B :=
  match r with
  | Ok a => k a
  | Err e => Err e
  end.

(** [arr.map((x, i) => f(x, i))] for a callback that may throw: the
    elements are visited in order from index [i], the first throw ends
    the traversal. *)
Fixpoint map_indexed {A B} (f : A -> nat -> result B) (i : nat)
         (l : list A) : result (list B) :=
  match l with
  | [] => Ok []
  | x :: rest =>
      bindR (f x i) (fun y =>
      bindR (map_indexed f (S i) rest) (fun ys => Ok (y :: ys)))
  end.

End Errors.
Export Errors.

Declare Scope result_scope.
Delimit Scope result_scope with result.
Notation "'do' x <- e ; k" := (bindR e (fun x => k))
  (at level 10, x name, e at level 100, k at level 200) : result_scope.
Notation "'check' c 'else' e ; k" := (if c then k else Err e)
  (at level 10, c at level 100, e at level 100, k at level 200)
  : result_scope.

(* ================================================================== *)
(** ** Schema definitions *)

Module Schema.

Inductive Priority : Type := low | medium | high | critical.
Inductive Complexity : Type := simple | moderate | complex.
Inductive Severity : Type := sev_low | sev_medium | sev_high.

Record GoalInput : Type := {
  goal : jsstring;
  priority : Priority;
  timeAvailable : option jsstring
}.

Record GoalAnalysis : Type := {
  summary : jsstring;
  category : jsstring;
  complexity : Complexity
}.

Record ActionStep : Type := {
  stepNumber : number;
  title : jsstring;
  description : jsstring;
  estimatedTime : jsstring;
  dependencies : list jsval
}.

Record Risk : Type := {
  id : jsstring;
  risk_title : jsstring;
  severity : Severity;
  mitigation : jsstring
}.

Record NextAction : Type := {
  action : jsstring;
  reasoning : jsstring;
  timeframe : jsstring
}.

Record AgentResponse : Type := {
  goalAnalysis : GoalAnalysis;
  actionSteps : list ActionStep;
  totalEstimatedTime : jsstring;
  risks : list Risk;
  nextImmediateAction : NextAction
}.

Definition Priority_name (p : Priority) : jsstring :=
  match p with
  | low => lit "low" | medium => lit "medium"
  | high => lit "high" | critical => lit "critical"
  end.

Definition Complexity_name (c : Complexity) : jsstring :=
  match c with
  | simple => lit "simple" | moderate => lit "moderate"
  | complex => lit "complex"
  end.

Definition Severity_name (s : Severity) : jsstring :=
  match s with
  | sev_low => lit "low" | sev_medium => lit "medium"
  | sev_high => lit "high"
  end.

(** [names.includes(v)] on an array of string literals, returning the
    member that is strictly equal to [v]. *)
Definition member {A} (name : A -> jsstring) (all : list A) (v : jsval)
  : option A :=
  match v with
  | JStr s => List.find (fun a => JsString.eqb s (name a)) all
  | _ => None
  end.

Definition validPriorities : list Priority := [low; medium; high; critical].
Definition validComplexities : list Complexity := [simple; moderate; complex].
Definition validSeverities : list Severity := [sev_low; sev_medium; sev_high].

(** The run-time objects behind the typed views. *)
Definition GoalAnalysis_value (a : GoalAnalysis) : jsval :=
  JObj [(lit "summary", JStr (summary a));
        (lit "category", JStr (category a));
        (lit "complexity", JStr (Complexity_name (complexity a)))].

Definition ActionStep_value (s : ActionStep) : jsval :=
  JObj [(lit "stepNumber", JNum (stepNumber s));
        (lit "title", JStr (title s));
        (lit "description", JStr (description s));
        (lit "estimatedTime", JStr (estimatedTime s));
        (lit "dependencies", JArr (dependencies s))].

Definition Risk_value (r : Risk) : jsval :=
  JObj [(lit "id", JStr (id r));
        (lit "title", JStr (risk_title r));
        (lit "severity", JStr (Severity_name (severity r)));
        (lit "mitigation", JStr (mitigation r))].

Definition NextAction_value (a : NextAction) : jsval :=
  JObj [(lit "action", JStr (action a));
        (lit "reasoning", JStr (reasoning a));
        (lit "timeframe", JStr (timeframe a))].

Definition AgentResponse_value (r : AgentResponse) : jsval :=
  JObj [(lit "goalAnalysis", GoalAnalysis_value (goalAnalysis r));
        (lit "actionSteps", JArr (List.map ActionStep_value (actionSteps r)));
        (lit "totalEstimatedTime", JStr (totalEstimatedTime r));
        (lit "risks", JArr (List.map Risk_value (risks r)));
        (lit "nextImmediateAction",
          NextAction_value (nextImmediateAction r))].

End Schema.
Export Schema.

(* ================================================================== *)
(** ** Validators *)

Module Validators.

Local Open Scope result_scope.

(** [typeof v !== 'string' || bad(v)] guards a throw of [e]; past the
    guard [v] is narrowed to a string. *)
Definition string_unless (bad : jsstring -> bool) (v : jsval)
           (e : js_error) : result jsstring :=
  match v with
  | JStr s => if bad s then Err e else Ok s
  | _ => Err e
  end.

Definition is_empty (s : jsstring) : bool := (List.length s =? 0)%nat.
Definition never (s : jsstring) : bool := false.

Definition one_of (names : list jsstring) : jsstring :=
  lit "Must be one of: " ++ List.concat
    (match names with
     | [] => []
     | n :: rest => n :: List.map (fun m => lit ", " ++ m) rest
     end).

Definition validateInput (body : jsval) : result GoalInput :=
  check negb (not_an_object body)
    else ValidationError (lit "body") (lit "Invalid request body");
  do goal <- string_unless (fun g => is_empty (trim g)) (get body "goal")
      (ValidationError (lit "goal")
         (lit "Goal is required and must be a non-empty string"));
  check negb (1000 <? List.length goal)%nat
    else ValidationError (lit "goal")
           (lit "Goal must be less than 1000 characters");
  match member Priority_name validPriorities (get body "priority") with
  | None =>
      Err (ValidationError (lit "priority")
             (one_of (List.map Priority_name validPriorities)))
  | Some p =>
      match get body "timeAvailable" with
      | JUndefined =>
          Ok {| goal := trim goal; priority := p; timeAvailable := None |}
      | JStr t =>
          Ok {| goal := trim goal; priority := p; timeAvailable := Some t |}
      | _ =>
          Err (ValidationError (lit "timeAvailable") (lit "Must be a string"))
      end
  end.

Definition validateGoalAnalysis (data : jsval) : result GoalAnalysis :=
  check negb (not_an_object data)
    else ValidationError (lit "goalAnalysis") (lit "Must be an object");
  do summary <- string_unless (fun s => (List.length s <? 10)%nat)
      (get data "summary")
      (ValidationError (lit "goalAnalysis.summary")
         (lit "Must be a meaningful summary"));
  do category <- string_unless is_empty (get data "category")
      (ValidationError (lit "goalAnalysis.category")
         (lit "Category is required"));
  match member Complexity_name validComplexities (get data "complexity") with
  | None =>
      Err (ValidationError (lit "goalAnalysis.complexity")
             (one_of (List.map Complexity_name validComplexities)))
  | Some c =>
      Ok {| summary := summary; category := category; complexity := c |}
  end.

Definition step_path (index : nat) (suffix : string) : jsstring :=
  lit "actionSteps[" ++ dec index ++ lit "]" ++ lit suffix.

Definition validateActionStep (step : jsval) (index : nat)
  : result ActionStep :=
  check negb (not_an_object step)
    else ValidationError (step_path index "") (lit "Must be an object");
  do stepNumber <-
     match get step "stepNumber" with
     | JNum n =>
         if num_ltb n 1
         then Err (ValidationError (step_path index ".stepNumber")
                     (lit "Must be a positive number"))
         else Ok n
     | _ => Err (ValidationError (step_path index ".stepNumber")
                   (lit "Must be a positive number"))
     end;
  do title <- string_unless is_empty (get step "title")
      (ValidationError (step_path index ".title") (lit "Title is required"));
  do description <- string_unless is_empty (get step "description")
      (ValidationError (step_path index ".description")
         (lit "Description is required"));
  do estimatedTime <- string_unless never (get step "estimatedTime")
      (ValidationError (step_path index ".estimatedTime")
         (lit "Estimated time is required"));
  match get step "dependencies" with
  | JArr deps =>
      Ok {| stepNumber := stepNumber; title := title;
            description := description; estimatedTime := estimatedTime;
            dependencies := deps |}
  | _ => Err (ValidationError (step_path index ".dependencies")
                (lit "Dependencies must be an array"))
  end.

Definition risk_path (index : nat) (suffix : string) : jsstring :=
  lit "risks[" ++ dec index ++ lit "]" ++ lit suffix.

Definition validateRisk (risk : jsval) (index : nat) : result Risk :=
  check negb (not_an_object risk)
    else ValidationError (risk_path index "") (lit "Must be an object");
  do id <- string_unless never (get risk "id")
      (ValidationError (risk_path index ".id") (lit "ID is required"));
  do title <- string_unless is_empty (get risk "title")
      (ValidationError (risk_path index ".title") (lit "Title is required"));
  match member Severity_name validSeverities (get risk "severity") with
  | None =>
      Err (ValidationError (risk_path index ".severity")
             (one_of (List.map Severity_name validSeverities)))
  | Some sev =>
      do mitigation <- string_unless is_empty (get risk "mitigation")
          (ValidationError (risk_path index ".mitigation")
             (lit "Mitigation strategy is required"));
      Ok {| id := id; risk_title := title; severity := sev;
            mitigation := mitigation |}
  end.

Definition validateNextAction (data : jsval) : result NextAction :=
  check negb (not_an_object data)
    else ValidationError (lit "nextImmediateAction")
           (lit "Must be an object");
  do action <- string_unless is_empty (get data "action")
      (ValidationError (lit "nextImmediateAction.action")
         (lit "Action is required"));
  do reasoning <- string_unless is_empty (get data "reasoning")
      (ValidationError (lit "nextImmediateAction.reasoning")
         (lit "Reasoning is required"));
  do timeframe <- string_unless is_empty (get data "timeframe")
      (ValidationError (lit "nextImmediateAction.timeframe")
         (lit "Timeframe is required"));
  Ok {| action := action; reasoning := reasoning; timeframe := timeframe |}.

Definition validateFullResponse (data : jsval) : result AgentResponse :=
  check negb (not_an_object data)
    else ValidationError (lit "response") (lit "Invalid response structure");
  do goalAnalysis <- validateGoalAnalysis (get data "goalAnalysis");
  match get data "actionSteps" with
  | JArr (s :: ss) =>
      do actionSteps <- map_indexed validateActionStep 0 (s :: ss);
      do totalEstimatedTime <-
         string_unless never (get data "totalEstimatedTime")
           (ValidationError (lit "totalEstimatedTime")
              (lit "Total estimated time is required"));
      match get data "risks" with
      | JArr rs =>
          do risks <- map_indexed validateRisk 0 rs;
          do nextImmediateAction <-
             validateNextAction (get data "nextImmediateAction");
          Ok {| goalAnalysis := goalAnalysis;
                actionSteps := actionSteps;
                totalEstimatedTime := totalEstimatedTime;
                risks := risks;
                nextImmediateAction := nextImmediateAction |}
      | _ => Err (ValidationError (lit "risks") (lit "Must be an array"))
      end
  | _ => Err (ValidationError (lit "actionSteps")
                (lit "Must be a non-empty array"))
  end.

End Validators.
Export Validators.

(* ================================================================== *)
(** ** The world: network, timers, console *)

Module World.

(** What one [fetch] settles to: a rejection (no response), or a response
    with its status and body text. *)
Inductive fetch_outcome : Type :=
| FetchFailed (message : jsstring)
| FetchResponse (status : nat) (body : jsstring).

Inductive Tool : Type :=
| analyze_goal_complexity
| generate_action_steps
| identify_risks
| determine_next_action.

(** Observable effects, in the order they happen: a request sent, a
    [setTimeout] delay awaited (milliseconds), a tool executor entered
    (its [[Agent:Tool] Executing ...] line). *)
Inductive event : Type :=
| EvFetch
| EvSleep (ms : Z)
| EvTool (t : Tool).

(** The gateway answers the [n]-th request of the run as a function of
    [n] and of the request. *)
Record world (Req : Type) : Type := {
  gateway : nat -> Req -> fetch_outcome;
  calls : nat;
  events : list event
}.

Definition M (S A : Type) : Type := S -> result A * S.

Definition ret {S A} (a : A) : M S A := fun s => (Ok a, s).
Definition throw {S A} (e : js_error) : M S A := fun s => (Err e, s).
Definition bind {S A B} (c : M S A) (k : A -> M S B) : M S B :=
  fun s => match c s with
           | (Ok a, s1) => k a s1
           | (Err e, s1) => (Err e, s1)
           end.
Definition lift_result {S A} (r : result A) : M S A := fun s => (r, s).

Section Effects.
Context {Req : Type}.

Definition record (e : event) (w : world Req) : world Req :=
  {| gateway := gateway w; calls := calls w;
     events := events w ++ [e] |}.

(** [await fetch(...)] *)
Definition fetch (req : Req) (w : world Req)
  : fetch_outcome * world Req :=
  (gateway w (calls w) req,
   {| gateway := gateway w; calls := S (calls w);
      events := events w ++ [EvFetch] |}).

(** [await new Promise(resolve => setTimeout(resolve, delay))] *)
Definition sleep (delay : Z) (w : world Req) : world Req :=
  record (EvSleep delay) w.

Definition log_tool (t : Tool) : M (world Req) unit :=
  fun w => (Ok tt, record (EvTool t) w).
End Effects.

(** [response.ok] *)
Definition response_ok (status : nat) : bool :=
  (200 <=? status)%nat && (status <=? 299)%nat.

(** The tool executors entered, in order. *)
Definition tools (evs : list event) : list Tool :=
  List.flat_map (fun e => match e with EvTool t => [t] | _ => [] end) evs.

End World.
Export World.

Declare Scope world_scope.
Delimit Scope world_scope with world.
Notation "x <- c ;; k" := (bind c (fun x => k))
  (at level 61, c at next level, right associativity) : world_scope.

(* ================================================================== *)
(** ** analyze-goal/index.ts: the retrying gateway client *)

Module AnalyzeGoal.

Record Response : Type := { status : nat; text : jsstring }.

(** How one pass through the body of the [for] loop's [try] block ends. *)
Inductive completion : Type :=
| Return (r : Response)
| Continue
| Normal
| Throw (e : js_error).

Section FetchWithRetry.
Context {Req : Type}.
Variable request : Req.
Variable maxRetries : nat.
Variable baseDelay : Z.

Definition pow2 (attempt : nat) : Z := 2 ^ Z.of_nat attempt.

(** The [try] block of iteration [attempt]. *)
Definition try_block (attempt : nat) (w : world Req)
  : completion * world Req :=
  let (outcome, w1) := fetch request w in
  match outcome with
  | FetchFailed message => (Throw (Error message), w1)
  | FetchResponse status text =>
      if response_ok status then
        (Return {| status := status; text := text |}, w1)
      else if (status =? 429)%nat then
        (Continue, sleep (baseDelay * pow2 attempt * 2) w1)
      else if (400 <=? status)%nat && (status <? 500)%nat then
        (Throw (Error (lit "API error " ++ dec status ++ lit ": " ++ text)),
         w1)
      else if (500 <=? status)%nat then
        (Continue, sleep (baseDelay * pow2 attempt) w1)
      else (Normal, w1)
  end.

(** The [catch] block of iteration [attempt]. *)
Definition catch_block (attempt : nat) (w : world Req) : world Req :=
  if (attempt <? maxRetries - 1)%nat
  then sleep (baseDelay * pow2 attempt) w
  else w.

(** The [for] loop from [attempt], with [remaining] iterations left
    ([remaining = maxRetries - attempt]), then the final [throw]. *)
Fixpoint loop (remaining attempt : nat) (lastError : option js_error)
         (w : world Req) : result Response * world Req :=
  match remaining with
  | O =>
      (Err (match lastError with
            | Some e => e
            | None => Error (lit "Max retries exceeded")
            end), w)
  | S remaining' =>
      match try_block attempt w with
      | (Return r, w1) => (Ok r, w1)
      | (Continue, w1) | (Normal, w1) =>
          loop remaining' (S attempt) lastError w1
      | (Throw e, w1) =>
          loop remaining' (S attempt) (Some e) (catch_block attempt w1)
      end
  end.

Definition fetchWithRetry : M (world Req) Response :=
  loop maxRetries 0 None.

End FetchWithRetry.

Definition default_maxRetries : nat := 3.
Definition default_baseDelay : Z := 1000.

(** The validators of this function throw plain errors and return the
    untyped value they were given. *)
Definition validateInput (body : jsval) : result GoalInput :=
  if not_an_object body then Err (Error (lit "Invalid request body"))
  else
    match get body "goal" with
    | JStr g =>
        if (List.length (trim g) =? 0)%nat then
          Err (Error (lit "Goal is required and must be a non-empty string"))
        else
          match member Priority_name validPriorities (get body "priority") with
          | None =>
              Err (Error (lit "Priority must be one of: low, medium, high, critical"))
          | Some p =>
              match get body "timeAvailable" with
              | JUndefined =>
                  Ok {| goal := g; priority := p; timeAvailable := None |}
              | JStr t =>
                  Ok {| goal := g; priority := p; timeAvailable := Some t |}
              | _ => Err (Error (lit "Time available must be a string"))
              end
          end
    | _ => Err (Error (lit "Goal is required and must be a non-empty string"))
    end.

Definition validateOutput (data : jsval) : result jsval :=
  if not_an_object data then Err (Error (lit "Invalid agent response"))
  else if not_an_object (get data "goalAnalysis") then
    Err (Error (lit "Missing goalAnalysis in response"))
  else if negb (isArray (get data "actionSteps")) then
    Err (Error (lit "actionSteps must be an array"))
  else if negb (isArray (get data "risks")) then
    Err (Error (lit "risks must be an array"))
  else if not_an_object (get data "nextImmediateAction") then
    Err (Error (lit "Missing nextImmediateAction in response"))
  else Ok data.

(** The parse block of the handler (lines 272-290): the clean-up and
    [JSON.parse] sit in one [try], whose [catch] throws the parse error. *)
Definition parse_block (content : jsval) : result jsval :=
  match content with
  | JStr s =>
      let c := trim s in
      let c := if startsWith c (lit "```json") then slice_from 7 c
               else if startsWith c (lit "```") then slice_from 3 c
               else c in
      let c := if endsWith c (lit "```") then slice_drop_last 3 c else c in
      match JSON_parse (trim c) with
      | Some v => Ok v
      | None => Err (Error (lit "Failed to parse AI response as JSON"))
      end
  | _ => Err (Error (lit "Failed to parse AI response as JSON"))
  end.

(** The handler of this function. The request to the gateway is built
    from the validated input, which stands for it here. *)
Record HttpRequest : Type := { http_method : jsstring; http_body : jsstring }.

Record HttpReply : Type := { reply_status : nat; reply_body : option jsval }.

(** [data.choices?.[0]?.message?.content] for [data] other than [null]. *)
Definition first_content (data : jsval) : jsval :=
  let choices := get data "choices" in
  if is_nullish choices then JUndefined
  else
    let first := index0 choices in
    if is_nullish first then JUndefined
    else
      let message := get first "message" in
      if is_nullish message then JUndefined else get message "content".

(** The [try] block of the handler. *)
Definition handle (req : HttpRequest) (apiKey : option jsstring)
  : M (world GoalInput) jsval :=
  match JSON_parse (http_body req) with
  | None => throw (Error (lit "Unexpected token in JSON"))
  | Some body =>
      bind (lift_result (validateInput body)) (fun input =>
      match apiKey with
      | Some (_ :: _) =>
          bind (fetchWithRetry input 3 1000) (fun response =>
          match JSON_parse (text response) with
          | None => throw (Error (lit "Unexpected token in JSON"))
          | Some JNull => throw (Error (lit "Cannot read properties of null"))
          | Some data =>
              let content := first_content data in
              if negb (truthy content) then
                throw (Error (lit "No content in AI response"))
              else
                bind (lift_result (parse_block content)) (fun parsedResponse =>
                lift_result (validateOutput parsedResponse))
          end)
      | _ => throw (Error (lit "OpenRouter API key is not configured"))
      end)
  end.

Definition serve (req : HttpRequest) (apiKey : option jsstring)
           (w : world GoalInput) : HttpReply * world GoalInput :=
  if JsString.eqb (http_method req) (lit "OPTIONS") then
    ({| reply_status := 200; reply_body := None |}, w)
  else
    match handle req apiKey w with
    | (Ok validatedOutput, w1) =>
        ({| reply_status := 200; reply_body := Some validatedOutput |}, w1)
    | (Err error, w1) =>
        ({| reply_status := 500;
            reply_body := Some (JObj [(lit "code", JStr (lit "AGENT_ERROR"));
                                      (lit "message",
                                        JStr (error_message error))]) |},
         w1)
    end.

End AnalyzeGoal.

(* ================================================================== *)
(** ** The planning agent: LLM interface, tool executors, orchestrator,
       HTTP handler *)

Module Agent.

Local Open Scope world_scope.

(** What an executor interpolates into its prompts; the prompt text
    itself is a fixed template around these data. *)
Inductive llm_request : Type :=
| AnalyzePrompt (goal : jsstring) (priority : Priority)
| StepsPrompt (goal : jsstring) (complexity : Complexity)
              (timeAvailable : option jsstring)
| RisksPrompt (goal : jsstring) (steps : list ActionStep)
| NextActionPrompt (firstSteps : list ActionStep) (priority : Priority).

Definition env := world llm_request.

Definition fence : jsstring := lit "```".
Definition fence_json : jsstring := lit "```json".

(** The final value of the local [cleanContent]. *)
Definition cleanContent (content : jsstring) : jsstring :=
  let c := trim content in
  let c := if startsWith c fence_json then slice_from 7 c
           else if startsWith c fence then slice_from 3 c
           else c in
  let c := if endsWith c fence then slice_drop_last 3 c else c in
  trim c.

Definition parse_failure : js_error :=
  Error (lit "Failed to parse LLM response as JSON").

(** [content.trim] exists on strings only. *)
Definition parseJSONResponse (content : jsval) : result jsval :=
  match content with
  | JStr s =>
      match JSON_parse (cleanContent s) with
      | Some v => Ok v
      | None => Err parse_failure
      end
  | _ => Err (Error (lit "content.trim is not a function"))
  end.

(** The values of [state.currentStep]. *)
Module Step.
Inductive t : Type :=
| initialize
| analyze_complexity
| generate_steps
| identify_risks
| determine_next_action
| validate_output.
End Step.

Section WithToolCalls.

(** Lines 402-410 of [callLLM]: when [message.tool_calls] is present
    and non-empty every entry's [function.arguments] goes through
    [JSON.parse]; both branches return the same [content], which is all
    an executor reads, so the branch is observed only through the
    error it may throw on a malformed entry. *)
Variable decodeToolCalls : jsval -> option js_error.

(** [data.choices?.[0]?.message] for [data] other than [null]. *)
Definition first_message (data : jsval) : jsval :=
  let choices := get data "choices" in
  if is_nullish choices then JUndefined
  else
    let first := index0 choices in
    if is_nullish first then JUndefined else get first "message".

(** The [content] field of what [callLLM] resolves to. *)
Definition callLLM (request : llm_request) : M env jsval :=
  fun w =>
    let (outcome, w1) := fetch request w in
    match outcome with
    | FetchFailed message => (Err (Error message), w1)
    | FetchResponse status text =>
        if negb (response_ok status) then
          (Err (Error (lit "LLM API error " ++ dec status
                         ++ lit ": " ++ text)), w1)
        else
          match JSON_parse text with
          | None => (Err (Error (lit "Unexpected token in JSON")), w1)
          | Some JNull =>
              (Err (Error (lit "Cannot read properties of null")), w1)
          | Some data =>
              let message := first_message data in
              if negb (truthy message) then
                (Err (Error (lit "No message in LLM response")), w1)
              else
                let content :=
                  if truthy (get message "content")
                  then get message "content" else JStr [] in
                match decodeToolCalls (get message "tool_calls") with
                | Some e => (Err e, w1)
                | None => (Ok content, w1)
                end
          end
    end.

Definition executeAnalyzeComplexity (goal : jsstring)
           (priority : Priority) : M env GoalAnalysis :=
  _ <- log_tool analyze_goal_complexity ;;
  content <- callLLM (AnalyzePrompt goal priority) ;;
  parsed <- lift_result (parseJSONResponse content) ;;
  lift_result (validateGoalAnalysis parsed).

Definition executeGenerateSteps (goal : jsstring)
           (complexity : Complexity) (timeAvailable : option jsstring)
  : M env (list ActionStep * jsstring) :=
  _ <- log_tool generate_action_steps ;;
  content <- callLLM (StepsPrompt goal complexity timeAvailable) ;;
  parsed <- lift_result (parseJSONResponse content) ;;
  if negb (truthy parsed) || negb (isArray (get parsed "steps")) then
    throw (ValidationError (lit "steps") (lit "Invalid steps structure"))
  else
    match get parsed "steps" with
    | JArr steps =>
        validatedSteps <-
          lift_result (map_indexed validateActionStep 0 steps) ;;
        ret (validatedSteps,
             match get parsed "totalTime" with
             | JStr totalTime => totalTime
             | _ => lit "Varies"
             end)
    | _ =>
        throw (ValidationError (lit "steps")
                 (lit "Invalid steps structure"))
    end.

Definition executeIdentifyRisks (goal : jsstring)
           (actionSteps : list ActionStep) : M env (list Risk) :=
  _ <- log_tool identify_risks ;;
  content <- callLLM (RisksPrompt goal actionSteps) ;;
  parsed <- lift_result (parseJSONResponse content) ;;
  if negb (truthy parsed) || negb (isArray (get parsed "risks")) then
    throw (ValidationError (lit "risks") (lit "Invalid risks structure"))
  else
    match get parsed "risks" with
    | JArr risks => lift_result (map_indexed validateRisk 0 risks)
    | _ =>
        throw (ValidationError (lit "risks")
                 (lit "Invalid risks structure"))
    end.

Definition executeDetermineNextAction (actionSteps : list ActionStep)
           (priority : Priority) : M env NextAction :=
  _ <- log_tool determine_next_action ;;
  content <- callLLM (NextActionPrompt (firstn 3 actionSteps) priority) ;;
  parsed <- lift_result (parseJSONResponse content) ;;
  lift_result (validateNextAction parsed).

(* -------------------------------------------------------------- *)
(** *** Agent state *)

Record ToolResult : Type := { name : Tool; result_value : jsval }.

(** [Partial<AgentResponse>] *)
Record PartialResponse : Type := {
  p_goalAnalysis : option GoalAnalysis;
  p_actionSteps : option (list ActionStep);
  p_totalEstimatedTime : option jsstring;
  p_risks : option (list Risk);
  p_nextImmediateAction : option NextAction
}.

Record AgentState : Type := {
  input : GoalInput;
  currentStep : Step.t;
  toolCalls : list jsval;
  toolResults : list ToolResult;
  partialResponse : PartialResponse;
  retryCount : nat;
  maxRetries : nat
}.

Definition createAgentState (input : GoalInput) : AgentState :=
  {| input := input;
     currentStep := Step.initialize;
     toolCalls := [];
     toolResults := [];
     partialResponse :=
       {| p_goalAnalysis := None; p_actionSteps := None;
          p_totalEstimatedTime := None; p_risks := None;
          p_nextImmediateAction := None |};
     retryCount := 0;
     maxRetries := 3 |}.

(** The object behind [state.partialResponse]: the properties assigned
    so far, in assignment order. *)
Definition PartialResponse_value (p : PartialResponse) : jsval :=
  let prop {A} (k : string) (f : A -> jsval) (o : option A) :=
    match o with Some a => [(lit k, f a)] | None => [] end in
  JObj (prop "goalAnalysis"%string GoalAnalysis_value (p_goalAnalysis p)
        ++ prop "actionSteps"%string
             (fun l => JArr (List.map ActionStep_value l))
             (p_actionSteps p)
        ++ prop "totalEstimatedTime"%string JStr (p_totalEstimatedTime p)
        ++ prop "risks"%string (fun l => JArr (List.map Risk_value l))
             (p_risks p)
        ++ prop "nextImmediateAction"%string NextAction_value
             (p_nextImmediateAction p)).

Definition set_currentStep (s : Step.t) (st : AgentState) : AgentState :=
  {| input := input st; currentStep := s; toolCalls := toolCalls st;
     toolResults := toolResults st;
     partialResponse := partialResponse st;
     retryCount := retryCount st; maxRetries := maxRetries st |}.

Definition set_partial (f : PartialResponse -> PartialResponse)
           (r : ToolResult) (st : AgentState) : AgentState :=
  {| input := input st; currentStep := currentStep st;
     toolCalls := toolCalls st;
     toolResults := toolResults st ++ [r];
     partialResponse := f (partialResponse st);
     retryCount := retryCount st; maxRetries := maxRetries st |}.

(* -------------------------------------------------------------- *)
(** *** PlanningAgent *)

(** [this.state] together with the world. *)
Record agent : Type := { state : AgentState; world_of : env }.

Definition in_env {A} (c : M env A) : M agent A :=
  fun a => let (r, w) := c (world_of a) in
           (r, {| state := state a; world_of := w |}).

Definition update (f : AgentState -> AgentState) : M agent unit :=
  fun a => (Ok tt, {| state := f (state a); world_of := world_of a |}).

Definition this_state : M agent AgentState :=
  fun a => (Ok (state a), a).

(** The [for] loop of [executeWithRetry] from [attempt], with
    [remaining = maxRetries - attempt] iterations left, then the final
    [throw]. *)
Fixpoint retry_loop {T} (fn : M env T) (maxRetries : nat)
         (remaining attempt : nat) (lastError : option js_error)
         (w : env) : result T * env :=
  match remaining with
  | O =>
      (Err (match lastError with
            | Some e => e
            | None => Error (lit "Max retries exceeded")
            end), w)
  | S remaining' =>
      match fn w with
      | (Ok v, w1) => (Ok v, w1)
      | (Err e, w1) =>
          let w2 :=
            if (attempt <? maxRetries - 1)%nat
            then sleep (1000 * 2 ^ Z.of_nat attempt) w1
            else w1 in
          retry_loop fn maxRetries remaining' (S attempt) (Some e) w2
      end
  end.

Definition executeWithRetry {T} (fn : M env T) : M agent T :=
  st <- this_state ;;
  in_env (retry_loop fn (maxRetries st) (maxRetries st) 0 None).

Definition steps_result (steps : list ActionStep) (totalTime : jsstring)
  : jsval :=
  JObj [(lit "steps", JArr (List.map ActionStep_value steps));
        (lit "totalTime", JStr totalTime)].

Definition run : M agent AgentResponse :=
  (* Step 1: Analyze goal complexity *)
  _ <- update (set_currentStep Step.analyze_complexity) ;;
  st <- this_state ;;
  goalAnalysis <-
    executeWithRetry
      (executeAnalyzeComplexity (goal (input st)) (priority (input st))) ;;
  _ <- update (set_partial
         (fun p =>
            {| p_goalAnalysis := Some goalAnalysis;
               p_actionSteps := p_actionSteps p;
               p_totalEstimatedTime := p_totalEstimatedTime p;
               p_risks := p_risks p;
               p_nextImmediateAction := p_nextImmediateAction p |})
         {| name := analyze_goal_complexity;
            result_value := GoalAnalysis_value goalAnalysis |}) ;;
  (* Step 2: Generate action steps *)
  _ <- update (set_currentStep Step.generate_steps) ;;
  st <- this_state ;;
  generated <-
    executeWithRetry
      (executeGenerateSteps (goal (input st)) (complexity goalAnalysis)
         (timeAvailable (input st))) ;;
  let steps := fst generated in
  let totalTime := snd generated in
  _ <- update (set_partial
         (fun p =>
            {| p_goalAnalysis := p_goalAnalysis p;
               p_actionSteps := Some steps;
               p_totalEstimatedTime := Some totalTime;
               p_risks := p_risks p;
               p_nextImmediateAction := p_nextImmediateAction p |})
         {| name := generate_action_steps;
            result_value := steps_result steps totalTime |}) ;;
  (* Step 3: Identify risks *)
  _ <- update (set_currentStep Step.identify_risks) ;;
  st <- this_state ;;
  risks <-
    executeWithRetry (executeIdentifyRisks (goal (input st)) steps) ;;
  _ <- update (set_partial
         (fun p =>
            {| p_goalAnalysis := p_goalAnalysis p;
               p_actionSteps := p_actionSteps p;
               p_totalEstimatedTime := p_totalEstimatedTime p;
               p_risks := Some risks;
               p_nextImmediateAction := p_nextImmediateAction p |})
         {| name := identify_risks;
            result_value := JArr (List.map Risk_value risks) |}) ;;
  (* Step 4: Determine next action *)
  _ <- update (set_currentStep Step.determine_next_action) ;;
  st <- this_state ;;
  nextAction <-
    executeWithRetry
      (executeDetermineNextAction steps (priority (input st))) ;;
  _ <- update (set_partial
         (fun p =>
            {| p_goalAnalysis := p_goalAnalysis p;
               p_actionSteps := p_actionSteps p;
               p_totalEstimatedTime := p_totalEstimatedTime p;
               p_risks := p_risks p;
               p_nextImmediateAction := Some nextAction |})
         {| name := determine_next_action;
            result_value := NextAction_value nextAction |}) ;;
  (* Final validation *)
  _ <- update (set_currentStep Step.validate_output) ;;
  st <- this_state ;;
  lift_result
    (validateFullResponse (PartialResponse_value (partialResponse st))).

(** [new PlanningAgent(config, input)] followed by [agent.run()]. *)
Definition run_agent (input : GoalInput) (w : env)
  : result AgentResponse * agent :=
  run {| state := createAgentState input; world_of := w |}.

(* -------------------------------------------------------------- *)
(** *** HTTP handler *)

Record Request : Type := { method : jsstring; body_text : jsstring }.

(** The status and the value that is handed to [JSON.stringify] for the
    body ([None] for the body-less preflight answer). The text that
    [JSON.stringify] writes is not modelled. *)
Record Response : Type := { status : nat; body : option jsval }.

Definition error_response (error : js_error) : Response :=
  let errorType :=
    if instanceof_ValidationError error
    then lit "VALIDATION_ERROR" else lit "AGENT_ERROR" in
  {| status := if instanceof_ValidationError error then 400 else 500;
     body := Some (JObj
       [(lit "code", JStr errorType);
        (lit "message", JStr (error_message error));
        (lit "field",
          match error with
          | ValidationError field _ => JStr field
          | Error _ => JUndefined
          end)]) |}.

(** The [try] block of the handler. *)
Definition handle (req : Request) (apiKey : option jsstring)
  : M env AgentResponse :=
  match JSON_parse (body_text req) with
  | None => throw (Error (lit "Unexpected token in JSON"))
  | Some body =>
      input <- lift_result (validateInput body) ;;
      match apiKey with
      | Some (_ :: _) =>
          fun w => let (r, a) := run_agent input w in (r, world_of a)
      | _ => throw (Error (lit "Lovable AI key is not configured"))
      end
  end.

Definition serve (req : Request) (apiKey : option jsstring) (w : env)
  : Response * env :=
  if JsString.eqb (method req) (lit "OPTIONS") then
    ({| status := 200; body := None |}, w)
  else
    match handle req apiKey w with
    | (Ok result, w1) =>
        ({| status := 200; body := Some (AgentResponse_value result) |},
         w1)
    | (Err error, w1) => (error_response error, w1)
    end.

End WithToolCalls.

End Agent.

(* ================================================================== *)
(** ** The goal form of the front end *)

Module GoalForm.

(** [handleSubmit] of the form, on the values of its three fields:
    [None] when it returns without calling [onSubmit], else the argument
    of [onSubmit]. *)
Definition handleSubmit (goal : jsstring) (priority : Priority)
           (timeAvailable : jsstring) : option GoalInput :=
  if negb (truthy (JStr (trim goal))) then None
  else
    Some {| Schema.goal := trim goal;
            Schema.priority := priority;
            Schema.timeAvailable :=
              if truthy (JStr (trim timeAvailable))
              then Some (trim timeAvailable) else None |}.

(** The request body an input is sent as: a property whose value is
    [undefined] is not serialised. *)
Definition GoalInput_value (input : GoalInput) : jsval :=
  JObj ([(lit "goal", JStr (goal input));
         (lit "priority", JStr (Priority_name (priority input)))]
        ++ match timeAvailable input with
           | Some t => [(lit "timeAvailable", JStr t)]
           | None => []
           end).

End GoalForm.

(* ================================================================== *)
(** ** Scenarios: concrete requests and scripted gateways *)

Module Scenario.
Import Agent.

(** A JSON text written with apostrophes in place of double quotes. *)
Definition json_lit (s : string) : jsstring :=
  List.map (fun c => if (c =? 39)%N then 34%N else c) (lit s).

Definition newline : jsstring := [10%N].

(** The text as the inside of a JSON string literal. *)
Definition escape (s : jsstring) : jsstring :=
  List.flat_map
    (fun c => if (c =? 34)%N then [92; 34]%N
              else if (c =? 92)%N then [92; 92]%N
              else if (c =? 10)%N then [92; 110]%N
              else [c]) s.

(** A chat-completion answer whose first choice carries [content]. *)
Definition completion_body (content : jsstring) : jsstring :=
  json_lit "{'choices':[{'message':{'role':'assistant','content':'"
    ++ escape content ++ json_lit "'}}]}".

Definition completion (content : jsstring) : fetch_outcome :=
  FetchResponse 200 (completion_body content).

Definition analysis_text : jsstring :=
  json_lit "{'summary':'Learn basic guitar chords and songs','category':'Learning','complexity':'simple'}".

Definition steps_text : jsstring :=
  json_lit "{'steps':[{'stepNumber':1,'title':'Get a guitar','description':'Buy or borrow one','estimatedTime':'1 day','dependencies':[]}],'totalTime':'2 weeks'}".

Definition steps_text_no_total : jsstring :=
  json_lit "{'steps':[{'stepNumber':1,'title':'Get a guitar','description':'Buy or borrow one','estimatedTime':'1 day','dependencies':[]}]}".

Definition risks_text : jsstring :=
  json_lit "{'risks':[{'id':'risk_1','title':'Losing motivation','severity':'medium','mitigation':'Practice with a friend'}]}".

Definition next_text : jsstring :=
  json_lit "{'action':'Tune the guitar','reasoning':'Needed before playing','timeframe':'Today'}".

(** A gateway that answers each tool's prompt with the given text. *)
Definition answering (analysis steps risks next : jsstring)
  : nat -> llm_request -> fetch_outcome :=
  fun _ request =>
    completion
      match request with
      | AnalyzePrompt _ _ => analysis
      | StepsPrompt _ _ _ => steps
      | RisksPrompt _ _ => risks
      | NextActionPrompt _ _ => next
      end.

Definition good_gateway := answering analysis_text steps_text risks_text next_text.

(** A step-generation answer with a fractional step number, dependencies
    that are not strings, and no [totalTime]. *)
Definition loose_steps_text : jsstring :=
  json_lit "{'steps':[{'stepNumber':1.5,'title':'Get a guitar','description':'Buy or borrow one','estimatedTime':'1 day','dependencies':[42,null]}]}".

Definition loose_gateway :=
  answering analysis_text loose_steps_text risks_text next_text.

(** The step-generation answer has no [totalTime]. *)
Definition no_total_gateway :=
  answering analysis_text steps_text_no_total risks_text next_text.


(** The gateway answers 500 to every step-generation request. *)
Definition steps_down_gateway : nat -> llm_request -> fetch_outcome :=
  fun n request =>
    match request with
    | StepsPrompt _ _ _ => FetchResponse 500 (lit "upstream unavailable")
    | _ => good_gateway n request
    end.

(** The first analysis answer is prose, the following ones are valid. *)
Definition prose_first_gateway : nat -> llm_request -> fetch_outcome :=
  fun n request =>
    match n with
    | O => completion (lit "not json")
    | S _ => good_gateway n request
    end.

Definition fresh {Req} (g : nat -> Req -> fetch_outcome) : world Req :=
  {| gateway := g; calls := 0; events := [] |}.

(** The answers of a scripted sequence, then [after] for ever. *)
Definition scripted (script : list fetch_outcome) (after : fetch_outcome)
  : nat -> unit -> fetch_outcome :=
  fun n _ => nth n script after.

Definition guitar_request : Request :=
  {| method := lit "POST";
     body_text := json_lit "{'goal':'Learn guitar basics','priority':'medium'}" |}.

Definition guitar_input : GoalInput :=
  {| goal := lit "Learn guitar basics"; priority := medium;
     timeAvailable := None |}.

(** The answers of the scenarios carry no [tool_calls]. *)
Definition no_tool_calls : jsval -> option js_error := fun _ => None.

Definition half_step : jsval :=
  JObj [(lit "stepNumber", JNum (NumFin (3 # 2)%Q));
        (lit "title", JStr (lit "Get a guitar"));
        (lit "description", JStr (lit "Buy or borrow one"));
        (lit "estimatedTime", JStr (lit "1 day"));
        (lit "dependencies", JArr [])].

End Scenario.

(* ================================================================== *)
(** ** Vocabulary of the statements *)

Module Vocabulary.
Import Agent Scenario.

(** [strip p s]: [s] without its prefix [p], when it has it. *)
Fixpoint strip (p s : jsstring) : option jsstring :=
  match p, s with
  | [], _ => Some s
  | a :: p', b :: s' => if (a =? b)%N then strip p' s' else None
  | _ :: _, [] => None
  end.

(** Fence stripping as the specification words it: an opening fence
    marker, with or without the language tag, is removed from the
    front. *)
Definition strip_opening_fence (s : jsstring) : jsstring :=
  match strip fence s with
  | Some rest =>
      match strip (lit "json") rest with
      | Some rest' => rest'
      | None => rest
      end
  | None => s
  end.

(** A closing fence marker is removed from the end. *)
Definition strip_closing_fence (s : jsstring) : jsstring :=
  match strip (rev fence) (rev s) with
  | Some rest => rev rest
  | None => s
  end.

(** The text, once trimmed, has no fence marker at either end. *)
Definition unfenced (s : jsstring) : bool :=
  negb (startsWith (trim s) fence) && negb (endsWith (trim s) fence).

(** Already bare: nothing to trim and no fence. *)
Definition bare (s : jsstring) : bool :=
  JsString.eqb (trim s) s && unfenced s.

(** The document between an opening marker and a closing fence, each on
    a line of its own. *)
Definition fenced (opening d : jsstring) : jsstring :=
  opening ++ newline ++ d ++ newline ++ fence.

(** What [JSON.parse] gives, as [parseJSONResponse] reports it. *)
Definition parsed_or_failure (text : jsstring) : result jsval :=
  match JSON_parse text with
  | Some v => Ok v
  | None => Err parse_failure
  end.

(** *** Request bodies, field by field, as the data model words them *)

Definition is_object (v : jsval) : bool :=
  match v with JObj _ | JArr _ => true | _ => false end.

Definition is_string (v : jsval) : bool :=
  match v with JStr _ => true | _ => false end.

Definition blank (g : jsstring) : bool := forallb is_whitespace g.

(** goal: a string, not empty or blank, of at most 1000 code units. *)
Definition bad_goal (body : jsval) : bool :=
  match get body "goal" with
  | JStr g => blank g || (1000 <? List.length g)%nat
  | _ => true
  end.

(** priority: one of the four names. *)
Definition bad_priority (body : jsval) : bool :=
  match get body "priority" with
  | JStr p =>
      negb (existsb (JsString.eqb p)
              [lit "low"; lit "medium"; lit "high"; lit "critical"])
  | _ => true
  end.

(** timeAvailable: absent, or a string. *)
Definition bad_timeAvailable (body : jsval) : bool :=
  match get body "timeAvailable" with
  | JUndefined | JStr _ => false
  | _ => true
  end.

(** The malformed fields of a request body, in schema order; a body
    that is no object at all has the single fault [body]. *)
Definition offending_fields (body : jsval) : list jsstring :=
  if is_object body then
    (if bad_goal body then [lit "goal"] else [])
    ++ (if bad_priority body then [lit "priority"] else [])
    ++ (if bad_timeAvailable body then [lit "timeAvailable"] else [])
  else [lit "body"].

(** [input] is [body] narrowed: the goal trimmed, the priority by name,
    the time budget when present. *)
Definition narrowed (body : jsval) (input : GoalInput) : Prop :=
  (exists g, get body "goal" = JStr g /\ goal input = trim g)
  /\ get body "priority" = JStr (Priority_name (priority input))
  /\ get body "timeAvailable"
     = match timeAvailable input with
       | Some t => JStr t
       | None => JUndefined
       end.

(** *** Bounded retry, as the orchestrator's transition rule words it *)

(** [fn] is attempted, after a failure awaited [1000 * 2^0] ms and
    attempted again, after a second failure awaited [1000 * 2^1] ms and
    attempted a third time; the outcome is that of the last attempt
    made. *)
Definition three_attempts {T} (fn : M env T) (w : env) : result T * env :=
  match fn w with
  | (Ok v, w1) => (Ok v, w1)
  | (Err _, w1) =>
      match fn (sleep (1000 * 2 ^ 0) w1) with
      | (Ok v, w2) => (Ok v, w2)
      | (Err _, w2) => fn (sleep (1000 * 2 ^ 1) w2)
      end
  end.

(** One invocation of a tool executor as the world sees it: the tool's
    line on the console, then one request to the gateway. *)
Definition one_call (t : Tool) {T} (fn : M env T) : Prop :=
  forall w,
    gateway (snd (fn w)) = gateway w
    /\ calls (snd (fn w)) = S (calls w)
    /\ events (snd (fn w)) = events w ++ [EvTool t; EvFetch].

(** [k_1] invocations of the first tool, then [k_2] of the second, and
    so on. *)
Fixpoint blocks (order : list Tool) (counts : list nat) : list Tool :=
  match order, counts with
  | t :: order', k :: counts' => repeat t k ++ blocks order' counts'
  | _, _ => []
  end.

(** The tool invocations [l] are those of the steps [order], each step
    invoked between one and three times before the next one starts. *)
Definition invoked_in_order (order : list Tool) (l : list Tool) : Prop :=
  exists counts,
    List.length counts = List.length order
    /\ Forall (fun k => 1 <= k <= 3)%nat counts
    /\ l = blocks order counts.

(** *** Outcomes of a run *)

(** What a run leaves behind: its result, the step it stopped in, the
    world. *)
Definition outcome {A} (out : result A * agent)
  : result A * Step.t * env :=
  (fst out, currentStep (state (snd out)), world_of (snd out)).

Section Outcomes.
Variable decodeToolCalls : jsval -> option js_error.
Variables (input : GoalInput) (w : env).

(** The run from [w] fails with [e] in state [step], leaving the world
    [w']; the executors invoked since [w] are those of [order], in
    that order, and no other. *)
Definition fails_in (step : Step.t) (e : js_error) (w' : env)
           (order : list Tool) : Prop :=
  let out := run_agent decodeToolCalls input w in
  fst out = Err e
  /\ world_of (snd out) = w'
  /\ currentStep (state (snd out)) = step
  /\ exists l,
       tools (events w') = tools (events w) ++ l
       /\ invoked_in_order order l
       /\ forall t, In t l -> In t order.

(** The run from [w] reaches the final validation of [assembled] in
    the world [w'], having invoked the four executors in order. *)
Definition validates (assembled : AgentResponse) (w' : env) : Prop :=
  let out := run_agent decodeToolCalls input w in
  fst out = validateFullResponse (AgentResponse_value assembled)
  /\ world_of (snd out) = w'
  /\ currentStep (state (snd out)) = Step.validate_output
  /\ exists l,
       tools (events w') = tools (events w) ++ l
       /\ invoked_in_order
            [analyze_goal_complexity; generate_action_steps;
             identify_risks; determine_next_action] l.
End Outcomes.

(** *** What the validators check, entity by entity

    The conditions under which a typed entity passes its own validator.
    For an action step they are weaker than the data model: the number
    may be any number that is not below 1, a fraction or an infinity
    included, and the dependencies may hold any values. *)

Definition GoalAnalysis_ok (a : GoalAnalysis) : Prop :=
  (10 <= List.length (summary a))%nat /\ category a <> [].

Definition ActionStep_ok (s : ActionStep) : Prop :=
  num_ltb (stepNumber s) 1 = false /\ title s <> []
  /\ description s <> [].

Definition Risk_ok (r : Risk) : Prop :=
  risk_title r <> [] /\ mitigation r <> [].

Definition NextAction_ok (a : NextAction) : Prop :=
  action a <> [] /\ reasoning a <> [] /\ timeframe a <> [].

Definition AgentResponse_ok (r : AgentResponse) : Prop :=
  GoalAnalysis_ok (goalAnalysis r)
  /\ actionSteps r <> []
  /\ Forall ActionStep_ok (actionSteps r)
  /\ Forall Risk_ok (risks r)
  /\ NextAction_ok (nextImmediateAction r).

(** *** The schema of the data model (specification, section 3)

    An action step has a positive integer as its number and strings as
    its dependencies; the other entities are worded as their validators
    check them. *)

Definition ActionStep_schema (s : ActionStep) : Prop :=
  num_is_integer (stepNumber s) = true
  /\ num_ltb (stepNumber s) 1 = false
  /\ title s <> [] /\ description s <> []
  /\ Forall (fun v => typeof v = TString) (dependencies s).

Definition AgentResponse_schema (r : AgentResponse) : Prop :=
  GoalAnalysis_ok (goalAnalysis r)
  /\ actionSteps r <> []
  /\ Forall ActionStep_schema (actionSteps r)
  /\ Forall Risk_ok (risks r)
  /\ NextAction_ok (nextImmediateAction r).

(** [r] is [data] with every nested entity passed through its own
    validator. *)
Definition rechecked (data : jsval) (r : AgentResponse) : Prop :=
  validateGoalAnalysis (get data "goalAnalysis") = Ok (goalAnalysis r)
  /\ (exists steps,
        get data "actionSteps" = JArr steps /\ steps <> []
        /\ map_indexed validateActionStep 0 steps = Ok (actionSteps r))
  /\ get data "totalEstimatedTime" = JStr (totalEstimatedTime r)
  /\ (exists rs,
        get data "risks" = JArr rs
        /\ map_indexed validateRisk 0 rs = Ok (risks r))
  /\ validateNextAction (get data "nextImmediateAction")
     = Ok (nextImmediateAction r).

(** *** Answers of the handler *)

Definition failure_response (status : nat) (code : string)
           (message : jsstring) (field : jsval) : Response :=
  {| status := status;
     body := Some (JObj [(lit "code", JStr (lit code));
                         (lit "message", JStr message);
                         (lit "field", field)]) |}.

Definition guitar_plan (totalTime : jsstring) : AgentResponse :=
  {| goalAnalysis :=
       {| summary := lit "Learn basic guitar chords and songs";
          category := lit "Learning"; complexity := simple |};
     actionSteps :=
       [{| stepNumber := NumFin 1; title := lit "Get a guitar";
           description := lit "Buy or borrow one";
           estimatedTime := lit "1 day"; dependencies := [] |}];
     totalEstimatedTime := totalTime;
     risks :=
       [{| id := lit "risk_1"; risk_title := lit "Losing motivation";
           severity := sev_medium;
           mitigation := lit "Practice with a friend" |}];
     nextImmediateAction :=
       {| action := lit "Tune the guitar";
          reasoning := lit "Needed before playing";
          timeframe := lit "Today" |} |}.

(** The plan of the scenario with the step of [loose_steps_text] and the
    total time that step two substitutes. *)
Definition loose_plan : AgentResponse :=
  {| goalAnalysis := goalAnalysis (guitar_plan []);
     actionSteps :=
       [{| stepNumber := NumFin (3 # 2)%Q; title := lit "Get a guitar";
           description := lit "Buy or borrow one";
           estimatedTime := lit "1 day";
           dependencies := [JNum (NumFin 42); JNull] |}];
     totalEstimatedTime := lit "Varies";
     risks := risks (guitar_plan []);
     nextImmediateAction := nextImmediateAction (guitar_plan []) |}.

(** *** Transient failures of the gateway

    The failures the specification of the client calls transient, each
    with what the gateway has answered: a rate limit (429), a server
    error (a status of 500 or more), no response at all. *)
Inductive transient : Type :=
| RateLimited (text : jsstring)
| ServerError (status : nat) (text : jsstring)
| NetworkFailure (message : jsstring).

Definition answer (t : transient) : fetch_outcome :=
  match t with
  | RateLimited text => FetchResponse 429 text
  | ServerError status text => FetchResponse status text
  | NetworkFailure message => FetchFailed message
  end.

Definition server_status (t : transient) : Prop :=
  match t with
  | ServerError status _ => (500 <= status)%nat
  | _ => True
  end.

(** The delay awaited after the failure [t] of attempt [attempt]: twice
    the exponential delay after a rate limit, the exponential delay after
    a server error, and after a network failure the exponential delay
    unless the attempt was the last one the limit allows. *)
Definition backoff (base : Z) (limit attempt : nat) (t : transient)
  : option Z :=
  match t with
  | RateLimited _ => Some (base * 2 ^ Z.of_nat attempt * 2)%Z
  | ServerError _ _ => Some (base * 2 ^ Z.of_nat attempt)%Z
  | NetworkFailure _ =>
      if (attempt <? limit - 1)%nat
      then Some (base * 2 ^ Z.of_nat attempt)%Z else None
  end.

(** The requests and delays of the attempts from [attempt] on that end in
    the failures [ts]. *)
Fixpoint retried (base : Z) (limit attempt : nat) (ts : list transient)
  : list event :=
  match ts with
  | [] => []
  | t :: ts' =>
      EvFetch
        :: match backoff base limit attempt t with
           | Some d => [EvSleep d]
           | None => []
           end
        ++ retried base limit (S attempt) ts'
  end.

(** The error of the last network failure among [ts], if any, else
    [before]. *)
Definition last_failure (before : option js_error) (ts : list transient)
  : option js_error :=
  List.fold_left
    (fun acc t =>
       match t with
       | NetworkFailure message => Some (Error message)
       | _ => acc
       end) ts before.

End Vocabulary.

(* ================================================================== *)
(** ** Vocabulary of the further properties *)

Module Behaviour.
Import Agent Scenario Vocabulary.

(** The delays awaited, in order, and their sum in milliseconds. *)
Definition delays (evs : list event) : list Z :=
  List.flat_map (fun e => match e with EvSleep d => [d] | _ => [] end) evs.

Definition total_delay (evs : list event) : Z :=
  List.fold_right Z.add 0%Z (delays evs).

(** The number of requests sent. *)
Definition requests (evs : list event) : nat :=
  List.length
    (List.filter (fun e => match e with EvFetch => true | _ => false end)
       evs).

(** [n] attempts from [attempt] on, each a request followed by the delay
    [delay attempt], if any. *)
Fixpoint attempts_events (delay : nat -> option Z) (attempt n : nat)
  : list event :=
  match n with
  | O => []
  | S n' =>
      EvFetch
        :: match delay attempt with Some d => [EvSleep d] | None => [] end
        ++ attempts_events delay (S attempt) n'
  end.

(** The world after one request. *)
Definition fetched {Req} (request : Req) (w : world Req) : world Req :=
  snd (fetch request w).

(** The gateway that gives the same answer to every request. *)
Definition always (outcome : fetch_outcome) : nat -> unit -> fetch_outcome :=
  fun _ _ => outcome.

(** [s] is a contiguous part of [t]. *)
Definition infix_of (s t : jsstring) : Prop :=
  exists before after, t = before ++ s ++ after.

(** The names under which a state has recorded tool results. *)
Definition recorded (st : AgentState) : list Tool :=
  List.map name (toolResults st).

(** The number of steps completed when the state is in [s]. *)
Definition completed (s : Step.t) : nat :=
  match s with
  | Step.initialize | Step.analyze_complexity => 0
  | Step.generate_steps => 1
  | Step.identify_risks => 2
  | Step.determine_next_action => 3
  | Step.validate_output => 4
  end.

Definition all_tools : list Tool :=
  [analyze_goal_complexity; generate_action_steps; identify_risks;
   determine_next_action].

(** What the agent state keeps besides the partial response. *)
Definition ledger (a : agent)
  : list Tool * nat * nat * list jsval * GoalInput :=
  let st := state a in
  (recorded st, retryCount st, maxRetries st, toolCalls st, Agent.input st).

(** The paths a fragment validator may name. *)
Definition GoalAnalysis_paths : list jsstring :=
  [lit "goalAnalysis"; lit "goalAnalysis.summary";
   lit "goalAnalysis.category"; lit "goalAnalysis.complexity"].

Definition NextAction_paths : list jsstring :=
  [lit "nextImmediateAction"; lit "nextImmediateAction.action";
   lit "nextImmediateAction.reasoning"; lit "nextImmediateAction.timeframe"].

Definition ActionStep_paths (index : nat) : list jsstring :=
  List.map (step_path index)
    [""; ".stepNumber"; ".title"; ".description"; ".estimatedTime";
     ".dependencies"]%string.

Definition Risk_paths (index : nat) : list jsstring :=
  List.map (risk_path index)
    [""; ".id"; ".title"; ".severity"; ".mitigation"]%string.

(** The error body of the single-call function. *)
Definition agent_error_reply (message : jsstring) : AnalyzeGoal.HttpReply :=
  {| AnalyzeGoal.reply_status := 500;
     AnalyzeGoal.reply_body :=
       Some (JObj [(lit "code", JStr (lit "AGENT_ERROR"));
                   (lit "message", JStr message)]) |}.

End Behaviour.

(* ================================================================== *)
(** * Properties *)

(** ** Strings *)

Module JsStringFacts.

Lemma eqb_eq (a b : jsstring) : JsString.eqb a b = true <-> a = b.
Proof.
  unfold JsString.eqb. destruct (list_eq_dec N.eq_dec a b); split;
    intros; congruence.
Qed.

Lemma eqb_refl (a : jsstring) : JsString.eqb a a = true.
Proof. now apply eqb_eq. Qed.

Lemma trimStart_ws (p s : jsstring) :
  forallb is_whitespace p = true -> trimStart (p ++ s) = trimStart s.
Proof.
  induction p as [|c p IH]; simpl; intros H; [reflexivity|].
  apply andb_true_iff in H as [Hc Hp]. rewrite Hc. now apply IH.
Qed.

Lemma trimStart_idem (s : jsstring) : trimStart (trimStart s) = trimStart s.
Proof.
  induction s as [|c s IH]; simpl; [reflexivity|].
  destruct (is_whitespace c) eqn:E; [exact IH|]. simpl. now rewrite E.
Qed.

(** Where [trimStart] stops, the first code unit is not white space. *)
Lemma trimStart_head (s : jsstring) :
  match trimStart s with
  | c :: _ => is_whitespace c = false
  | [] => True
  end.
Proof.
  induction s as [|c s IH]; simpl; [exact I|].
  destruct (is_whitespace c) eqn:E; [exact IH | exact E].
Qed.

Lemma trimStart_fixed (c : code_unit) (s : jsstring) :
  is_whitespace c = false -> trimStart (c :: s) = c :: s.
Proof. intros H. simpl. now rewrite H. Qed.

(** [trimStart] leaves a suffix, and what it leaves is all of the input
    when the input does not start with white space. *)
Lemma trimStart_app_nonblank (s t : jsstring) :
  trimStart s <> [] -> trimStart (s ++ t) = trimStart s ++ t.
Proof.
  induction s as [|c s IH]; simpl; intros H; [congruence|].
  destruct (is_whitespace c); [now apply IH | reflexivity].
Qed.

Lemma trimStart_blank_app (s t : jsstring) :
  trimStart s = [] -> trimStart (s ++ t) = trimStart t.
Proof.
  induction s as [|c s IH]; simpl; intros H; [reflexivity|].
  destruct (is_whitespace c); [now apply IH | discriminate].
Qed.

Lemma trimEnd_ws (s p : jsstring) :
  forallb is_whitespace p = true -> trimEnd (s ++ p) = trimEnd s.
Proof.
  intros H. unfold trimEnd. rewrite rev_app_distr.
  rewrite trimStart_ws; [reflexivity|].
  rewrite forallb_forall in *. intros x Hx. apply H. now apply in_rev.
Qed.

Lemma trimEnd_nil : trimEnd [] = [].
Proof. reflexivity. Qed.

Lemma trimEnd_blank (p : jsstring) :
  forallb is_whitespace p = true -> trimEnd p = [].
Proof.
  intros H. change p with ([] ++ p). now rewrite trimEnd_ws.
Qed.

Lemma trimStart_blank_forallb (s : jsstring) :
  trimStart s = [] -> forallb is_whitespace s = true.
Proof.
  induction s as [|c s IH]; simpl; intros H; [reflexivity|].
  destruct (is_whitespace c); [now apply IH | discriminate].
Qed.

(** White space around a text does not change what [trim] returns. *)
Lemma trim_padding (p s q : jsstring) :
  forallb is_whitespace p = true -> forallb is_whitespace q = true ->
  trim (p ++ s ++ q) = trim s.
Proof.
  intros Hp Hq. unfold trim. rewrite trimStart_ws by exact Hp.
  destruct (trimStart s) eqn:E.
  - rewrite trimStart_blank_app by exact E.
    rewrite trimEnd_nil. apply trimEnd_blank.
    apply trimStart_blank_forallb.
    pose proof (trimStart_idem q) as Hi.
    destruct (trimStart q) eqn:Eq; [reflexivity|].
    pose proof (trimStart_head q) as Hh. rewrite Eq in Hh.
    assert (Hin : In c q).
    { clear -Eq. induction q as [|x q IH]; simpl in Eq; [discriminate|].
      destruct (is_whitespace x); [right; now apply IH|].
      injection Eq as -> _. now left. }
    rewrite forallb_forall in Hq. rewrite (Hq _ Hin) in Hh. discriminate.
  - rewrite trimStart_app_nonblank by (rewrite E; discriminate).
    rewrite E. now rewrite trimEnd_ws.
Qed.

Lemma trimEnd_last (s : jsstring) (c : code_unit) :
  is_whitespace c = false -> trimEnd (s ++ [c]) = s ++ [c].
Proof.
  intros H. unfold trimEnd. rewrite rev_app_distr. simpl. rewrite H.
  simpl. now rewrite rev_involutive.
Qed.

Lemma trimStart_trimEnd (s : jsstring) :
  trimStart (trimEnd (trimStart s)) = trimEnd (trimStart s).
Proof.
  pose proof (trimStart_head s) as Hh.
  destruct (trimStart s) as [|c t] eqn:E; [reflexivity|].
  unfold trimEnd.
  destruct (rev (trimStart (rev (c :: t)))) as [|c' t'] eqn:E'; [reflexivity|].
  assert (c' = c).
  { assert (Hex : exists u, trimStart (rev t ++ [c]) = u ++ [c]).
    { clear -Hh. induction (rev t) as [|x r IH]; simpl.
      - rewrite Hh. now exists [].
      - destruct (is_whitespace x); [exact IH|]. now exists (x :: r). }
    simpl in E'. destruct Hex as [u Hu]. rewrite Hu in E'.
    rewrite rev_app_distr in E'. simpl in E'. congruence. }
  subst c'. now apply trimStart_fixed.
Qed.

Lemma trim_idem (s : jsstring) : trim (trim s) = trim s.
Proof.
  unfold trim. rewrite trimStart_trimEnd. unfold trimEnd.
  rewrite rev_involutive, trimStart_idem. reflexivity.
Qed.

Lemma startsWith_app (p s : jsstring) : startsWith (p ++ s) p = true.
Proof.
  induction p as [|c p IH]; simpl; [reflexivity|].
  now rewrite N.eqb_refl.
Qed.

Lemma endsWith_app (s p : jsstring) : endsWith (s ++ p) p = true.
Proof. unfold endsWith. rewrite rev_app_distr. apply startsWith_app. Qed.

Lemma slice_from_app (p s : jsstring) :
  slice_from (List.length p) (p ++ s) = s.
Proof.
  unfold slice_from. induction p; simpl; [reflexivity | assumption].
Qed.

Lemma slice_drop_last_app (s p : jsstring) :
  slice_drop_last (List.length p) (s ++ p) = s.
Proof.
  unfold slice_drop_last. rewrite length_app.
  replace (List.length s + List.length p - List.length p)%nat
    with (List.length s + 0)%nat by lia.
  rewrite firstn_app_2. simpl. now rewrite app_nil_r.
Qed.

End JsStringFacts.

(* ================================================================== *)
(** ** Response parser *)

Module ParserFacts.
Import Agent Scenario Vocabulary JsStringFacts.

Lemma strip_startsWith (p s : jsstring) :
  startsWith s p = match strip p s with Some _ => true | None => false end.
Proof.
  revert s. induction p as [|a p IH]; intros s; simpl; [reflexivity|].
  destruct s as [|b s]; [reflexivity|].
  destruct (a =? b)%N; simpl; [apply IH | reflexivity].
Qed.

Lemma strip_skipn (p s rest : jsstring) :
  strip p s = Some rest -> rest = skipn (List.length p) s.
Proof.
  revert s. induction p as [|a p IH]; intros s; simpl.
  - congruence.
  - destruct s as [|b s]; [discriminate|].
    destruct (a =? b)%N; [apply IH | discriminate].
Qed.

Lemma strip_app (p q s : jsstring) :
  strip (p ++ q) s =
  match strip p s with Some rest => strip q rest | None => None end.
Proof.
  revert s. induction p as [|a p IH]; intros s; simpl; [reflexivity|].
  destruct s as [|b s]; [reflexivity|].
  destruct (a =? b)%N; [apply IH | reflexivity].
Qed.

Lemma startsWith_prefix (s p q : jsstring) :
  startsWith s p = false -> startsWith s (p ++ q) = false.
Proof.
  rewrite !strip_startsWith, strip_app. now destruct (strip p s).
Qed.

(** The opening branch of [cleanContent] is the removal of an opening
    fence with its optional language tag. *)
Lemma opening_branch (c : jsstring) :
  (if startsWith c fence_json then slice_from 7 c
   else if startsWith c fence then slice_from 3 c else c)
  = strip_opening_fence c.
Proof.
  unfold strip_opening_fence.
  change fence_json with (fence ++ lit "json").
  rewrite !strip_startsWith, strip_app.
  destruct (strip fence c) as [rest|] eqn:E; [|reflexivity].
  apply strip_skipn in E as E1. change (List.length fence) with 3 in E1.
  destruct (strip (lit "json") rest) as [rest'|] eqn:E'.
  - apply strip_skipn in E'. subst. unfold slice_from.
    change (List.length (lit "json")) with 4. now rewrite skipn_skipn.
  - now subst.
Qed.

Lemma closing_branch (c : jsstring) :
  (if endsWith c fence then slice_drop_last 3 c else c)
  = strip_closing_fence c.
Proof.
  unfold strip_closing_fence, endsWith. rewrite strip_startsWith.
  destruct (strip (rev fence) (rev c)) as [rest|] eqn:E; [|reflexivity].
  apply strip_skipn in E. subst rest.
  change (List.length (rev fence)) with 3.
  unfold slice_drop_last. rewrite skipn_rev, rev_involutive.
  reflexivity.
Qed.

Lemma cleanContent_algorithm (s : jsstring) :
  cleanContent s
  = trim (strip_closing_fence (strip_opening_fence (trim s))).
Proof.
  unfold cleanContent. cbv zeta.
  now rewrite opening_branch, closing_branch.
Qed.

Lemma trim_fixed (c c' : code_unit) (s : jsstring) :
  is_whitespace c = false -> is_whitespace c' = false ->
  trim (c :: s ++ [c']) = c :: s ++ [c'].
Proof.
  intros H H'. unfold trim. rewrite trimStart_fixed by exact H.
  change (c :: s ++ [c']) with ((c :: s) ++ [c']).
  now apply trimEnd_last.
Qed.

Lemma cleanContent_unfenced (d : jsstring) :
  unfenced d = true -> cleanContent d = trim d.
Proof.
  unfold unfenced, cleanContent. intros H.
  apply andb_true_iff in H as [H1 H2].
  apply negb_true_iff in H1. apply negb_true_iff in H2. cbv zeta.
  change fence_json with (fence ++ lit "json").
  rewrite (startsWith_prefix _ _ _ H1), H1, H2. apply trim_idem.
Qed.

Lemma cleanContent_fenced_json (d : jsstring) :
  cleanContent (fenced fence_json d) = trim d.
Proof.
  unfold cleanContent, fenced. cbv zeta.
  assert (Ht : trim (fence_json ++ newline ++ d ++ newline ++ fence)
               = fence_json ++ newline ++ d ++ newline ++ fence).
  { change fence_json with (96%N :: lit "``json").
    change fence with (lit "``" ++ [96%N]).
    rewrite <- app_comm_cons. rewrite !app_assoc.
    rewrite <- !app_assoc. rewrite !app_assoc.
    apply trim_fixed; reflexivity. }
  rewrite Ht, startsWith_app.
  change 7 with (List.length fence_json). rewrite slice_from_app.
  replace (newline ++ d ++ newline ++ fence)
    with ((newline ++ d ++ newline) ++ fence)
    by now rewrite <- !app_assoc.
  rewrite endsWith_app.
  change 3 with (List.length fence). rewrite slice_drop_last_app.
  now apply trim_padding.
Qed.

Lemma cleanContent_fenced_plain (d : jsstring) :
  cleanContent (fenced fence d) = trim d.
Proof.
  unfold cleanContent, fenced. cbv zeta.
  assert (Ht : trim (fence ++ newline ++ d ++ newline ++ fence)
               = fence ++ newline ++ d ++ newline ++ fence).
  { change (fence ++ newline ++ d ++ newline ++ fence)
      with (96%N :: (lit "``" ++ newline ++ d ++ newline ++ lit "``" ++ [96%N])).
    rewrite !app_assoc. apply trim_fixed; reflexivity. }
  rewrite Ht.
  replace (startsWith (fence ++ newline ++ d ++ newline ++ fence) fence_json)
    with false by reflexivity.
  rewrite startsWith_app.
  change 3 with (List.length fence). rewrite slice_from_app.
  replace (newline ++ d ++ newline ++ fence)
    with ((newline ++ d ++ newline) ++ fence)
    by now rewrite <- !app_assoc.
  rewrite endsWith_app, slice_drop_last_app.
  now apply trim_padding.
Qed.

Lemma cleanContent_bare (s : jsstring) :
  bare s = true -> cleanContent s = s.
Proof.
  unfold bare. intros H. apply andb_true_iff in H as [H1 H2].
  apply eqb_eq in H1. rewrite cleanContent_unfenced by exact H2.
  exact H1.
Qed.

(** C7. [parseJSONResponse] trims, removes an opening fence marker (with
    or without the [json] tag) and a closing one, trims again and hands
    the rest to [JSON.parse]; a fenced document and the same document
    without fences give the same result; on bare input it is
    [JSON.parse] itself; and whenever the remainder is not valid JSON
    the result is the parse error, never a value. *)
Theorem parseJSONResponse_fence_stripping :
  (forall s,
      parseJSONResponse (JStr s)
      = parsed_or_failure
          (trim (strip_closing_fence (strip_opening_fence (trim s)))))
  /\ (forall d, unfenced d = true ->
        parseJSONResponse (JStr (fenced fence_json d))
        = parseJSONResponse (JStr d)
        /\ parseJSONResponse (JStr (fenced fence d))
           = parseJSONResponse (JStr d))
  /\ (forall s, bare s = true ->
        parseJSONResponse (JStr s) = parsed_or_failure s)
  /\ (forall s, JSON_parse (cleanContent s) = None ->
        parseJSONResponse (JStr s) = Err parse_failure)
  /\ parseJSONResponse (JStr (fenced fence_json (json_lit "{'a':1}")))
     = Ok (JObj [(lit "a", JNum (NumFin 1))])
  /\ parseJSONResponse (JStr (json_lit "{'a':1}"))
     = Ok (JObj [(lit "a", JNum (NumFin 1))])
  /\ parseJSONResponse (JStr (lit "not json")) = Err parse_failure.
Proof.
  repeat split.
  - intros s. simpl. now rewrite cleanContent_algorithm.
  - simpl. rewrite cleanContent_fenced_json.
    now rewrite cleanContent_unfenced.
  - simpl. rewrite cleanContent_fenced_plain.
    now rewrite cleanContent_unfenced.
  - intros s H. simpl. now rewrite cleanContent_bare.
  - intros s H. simpl. now rewrite H.
Qed.

Lemma parseJSONResponse_fence_stripping_witness :
  unfenced (json_lit "[1, 2]") = true
  /\ bare (json_lit "[1, 2]") = true
  /\ parseJSONResponse (JStr (fenced fence (json_lit "[1, 2]")))
     = parseJSONResponse (JStr (json_lit "[1, 2]"))
  /\ parseJSONResponse (JStr (json_lit "[1, 2]"))
     = parsed_or_failure (json_lit "[1, 2]")
  /\ JSON_parse (cleanContent (lit "```json {'a': ```")) = None
  /\ parseJSONResponse (JStr (lit "```json {'a': ```")) = Err parse_failure.
Proof.
  destruct parseJSONResponse_fence_stripping as (_ & Hf & Hb & He & _).
  split; [reflexivity|]. split; [reflexivity|].
  split; [apply (Hf (json_lit "[1, 2]")); reflexivity|].
  split; [apply (Hb (json_lit "[1, 2]")); reflexivity|].
  split; [reflexivity|].
  apply (He (lit "```json {'a': ```")); reflexivity.
Defined.

End ParserFacts.

(* ================================================================== *)
(** ** Schema validator *)

Module ValidatorFacts.
Import Agent Scenario Vocabulary JsStringFacts.

Lemma not_an_object_is_object (v : jsval) :
  not_an_object v = negb (is_object v).
Proof.
  destruct v as [| |b|n|s|l|o]; try reflexivity.
  - unfold not_an_object. simpl. now rewrite orb_true_r.
  - unfold not_an_object. simpl. now rewrite orb_true_r.
  - unfold not_an_object. simpl. now rewrite orb_true_r.
Qed.

Lemma trim_blank (g : jsstring) : is_empty (trim g) = blank g.
Proof.
  unfold is_empty, blank.
  destruct (forallb is_whitespace g) eqn:E.
  - replace (trim g) with (trim (g ++ [] ++ [])) by now rewrite !app_nil_r.
    rewrite trim_padding by auto. reflexivity.
  - destruct (trim g) eqn:Et; [|reflexivity].
    exfalso. unfold trim in Et.
    pose proof (trimStart_head g) as Hh.
    destruct (trimStart g) as [|c t] eqn:Es.
    + apply trimStart_blank_forallb in Es. congruence.
    + unfold trimEnd in Et. apply (f_equal (@rev _)) in Et.
      rewrite rev_involutive in Et. simpl in Et.
      assert (Hex : exists u, trimStart (rev t ++ [c]) = u ++ [c]).
      { clear -Hh. induction (rev t) as [|x r IH]; simpl.
        - rewrite Hh. now exists [].
        - destruct (is_whitespace x); [exact IH|]. now exists (x :: r). }
      destruct Hex as [u Hu]. rewrite Hu in Et.
      now destruct u.
Qed.

Lemma member_Priority (v : jsval) :
  match member Priority_name validPriorities v with
  | Some p => v = JStr (Priority_name p)
  | None =>
      match v with
      | JStr s =>
          existsb (JsString.eqb s)
            [lit "low"; lit "medium"; lit "high"; lit "critical"] = false
      | _ => True
      end
  end.
Proof.
  destruct v as [| |b|n|s|l|o]; simpl; try exact I.
  destruct (JsString.eqb s (Priority_name low)) eqn:E1;
    [apply eqb_eq in E1; now subst|].
  destruct (JsString.eqb s (Priority_name medium)) eqn:E2;
    [apply eqb_eq in E2; now subst|].
  destruct (JsString.eqb s (Priority_name high)) eqn:E3;
    [apply eqb_eq in E3; now subst|].
  destruct (JsString.eqb s (Priority_name critical)) eqn:E4;
    [apply eqb_eq in E4; now subst|].
  simpl in *. now rewrite E1, E2, E3, E4.
Qed.

Lemma bad_priority_member (body : jsval) :
  bad_priority body
  = match member Priority_name validPriorities (get body "priority") with
    | Some _ => false
    | None => true
    end.
Proof.
  unfold bad_priority.
  pose proof (member_Priority (get body "priority")) as Hp.
  destruct (member Priority_name validPriorities (get body "priority"))
    as [p|].
  - rewrite Hp. now destruct p.
  - destruct (get body "priority"); try reflexivity. now rewrite Hp.
Qed.

(** C6. [validateInput] fails with a ValidationError that names the
    first malformed field of the body ([body] itself when it is no
    object, else [goal] when it is missing, blank or longer than 1000,
    else [priority] when it is none of the four names, else
    [timeAvailable] when it is present and not a string), and returns
    the narrowed GoalInput when no field is malformed. *)
Theorem validateInput_names_offending_field (body : jsval) :
  match offending_fields body with
  | [] => exists input, validateInput body = Ok input /\ narrowed body input
  | field :: _ =>
      exists message, validateInput body = Err (ValidationError field message)
  end.
Proof.
  unfold offending_fields, validateInput.
  rewrite not_an_object_is_object, negb_involutive.
  destruct (is_object body) eqn:Hobj; [|eexists; reflexivity].
  rewrite bad_priority_member. unfold bad_goal, bad_timeAvailable, narrowed.
  pose proof (member_Priority (get body "priority")) as Hp.
  destruct (get body "goal") as [| |b|n|g|l|o] eqn:Hg;
    cbn [string_unless bindR]; try (eexists; reflexivity).
  rewrite trim_blank.
  destruct (blank g) eqn:Hb; cbn [orb bindR app]; [eexists; reflexivity|].
  destruct (1000 <? List.length g)%nat eqn:Hl; cbn [negb app];
    [eexists; reflexivity|].
  destruct (member Priority_name validPriorities (get body "priority"))
    as [p|] eqn:Hm; cbn [app]; [|eexists; reflexivity].
  destruct (get body "timeAvailable") as [| |b|n|t|l|o] eqn:Ht;
    cbn [app]; try (eexists; reflexivity).
  - eexists. split; [reflexivity|]. cbn [goal priority timeAvailable]. eauto.
  - eexists. split; [reflexivity|]. cbn [goal priority timeAvailable]. eauto.
Qed.

Example validateInput_null_body :
  validateInput JNull
  = Err (ValidationError (lit "body") (lit "Invalid request body")).
Proof. reflexivity. Qed.

Example validateInput_missing_goal :
  bindR (parsed_or_failure (json_lit "{'priority':'medium'}")) validateInput
  = Err (ValidationError (lit "goal")
           (lit "Goal is required and must be a non-empty string")).
Proof. reflexivity. Qed.

Example validateInput_blank_goal :
  bindR (parsed_or_failure (json_lit "{'goal':'   ','priority':'medium'}"))
    validateInput
  = Err (ValidationError (lit "goal")
           (lit "Goal is required and must be a non-empty string")).
Proof. reflexivity. Qed.

Example validateInput_long_goal :
  validateInput
    (JObj [(lit "goal", JStr (repeat 97%N 1001));
           (lit "priority", JStr (lit "medium"))])
  = Err (ValidationError (lit "goal")
           (lit "Goal must be less than 1000 characters")).
Proof. vm_compute. reflexivity. Qed.

Example validateInput_goal_of_1000 :
  validateInput
    (JObj [(lit "goal", JStr (repeat 97%N 1000));
           (lit "priority", JStr (lit "medium"))])
  = Ok {| goal := repeat 97%N 1000; priority := medium;
          timeAvailable := None |}.
Proof. vm_compute. reflexivity. Qed.

Example validateInput_unknown_priority :
  bindR (parsed_or_failure (json_lit "{'goal':'Learn','priority':'urgent'}"))
    validateInput
  = Err (ValidationError (lit "priority")
           (lit "Must be one of: low, medium, high, critical")).
Proof. reflexivity. Qed.

Example validateInput_numeric_timeAvailable :
  bindR (parsed_or_failure
           (json_lit "{'goal':'Learn','priority':'low','timeAvailable':5}"))
    validateInput
  = Err (ValidationError (lit "timeAvailable") (lit "Must be a string")).
Proof. reflexivity. Qed.

Example validateInput_well_formed :
  bindR (parsed_or_failure
           (json_lit "{'goal':' Learn guitar basics ','priority':'medium','timeAvailable':'2 weeks'}"))
    validateInput
  = Ok {| goal := lit "Learn guitar basics"; priority := medium;
          timeAvailable := Some (lit "2 weeks") |}.
Proof. reflexivity. Qed.


Lemma num_ltb_not_number (step : jsval) (index : nat) :
  not_an_object step = false ->
  (forall n, get step "stepNumber" = JNum n -> num_ltb n 1 = true) ->
  exists message,
    validateActionStep step index
    = Err (ValidationError (step_path index ".stepNumber") message).
Proof.
  intros Hobj Hn. unfold validateActionStep. rewrite Hobj. simpl.
  destruct (get step "stepNumber") as [| |b|n|s|l|o];
    simpl; try (eexists; reflexivity).
  rewrite (Hn n eq_refl). simpl. eexists; reflexivity.
Qed.

(** C9, as the code has it. [validateActionStep] succeeds only if
    [stepNumber] is of type number and is not less than 1, and rejects
    an object whose [stepNumber] is not a number or is less than 1 with
    a ValidationError naming [actionSteps[i].stepNumber]; whether the
    number is an integer is not looked at. *)
Theorem validateActionStep_stepNumber_at_least_1
        (step : jsval) (index : nat) :
  (forall s, validateActionStep step index = Ok s ->
     get step "stepNumber" = JNum (stepNumber s)
     /\ num_ltb (stepNumber s) 1 = false)
  /\ (not_an_object step = false ->
      (forall n, get step "stepNumber" = JNum n -> num_ltb n 1 = true) ->
      exists message,
        validateActionStep step index
        = Err (ValidationError (step_path index ".stepNumber") message)).
Proof.
  split; [|apply num_ltb_not_number].
  intros s. unfold validateActionStep.
  destruct (not_an_object step); simpl; [discriminate|].
  destruct (get step "stepNumber") as [| |b|n|x|l|o];
    simpl; try discriminate.
  destruct (num_ltb n 1) eqn:Hlt; simpl; [discriminate|].
  destruct (string_unless is_empty (get step "title") _);
    simpl; [|discriminate].
  destruct (string_unless is_empty (get step "description") _);
    simpl; [|discriminate].
  destruct (string_unless never (get step "estimatedTime") _);
    simpl; [|discriminate].
  destruct (get step "dependencies"); try discriminate.
  intros [= <-]. simpl. now split.
Qed.

Lemma validateActionStep_stepNumber_at_least_1_witness :
  (validateActionStep half_step 0
   = Ok {| stepNumber := NumFin (3 # 2)%Q; title := lit "Get a guitar";
           description := lit "Buy or borrow one";
           estimatedTime := lit "1 day"; dependencies := [] |}
   /\ get half_step "stepNumber" = JNum (NumFin (3 # 2)%Q)
   /\ num_ltb (NumFin (3 # 2)%Q) 1 = false)
  /\ exists message,
       validateActionStep
         (JObj [(lit "stepNumber", JNum (NumFin (1 # 2)%Q))]) 4
       = Err (ValidationError (lit "actionSteps[4].stepNumber") message).
Proof.
  split.
  - split; [reflexivity|].
    exact (proj1 (validateActionStep_stepNumber_at_least_1 half_step 0)
             _ eq_refl).
  - apply (proj2 (validateActionStep_stepNumber_at_least_1
                    (JObj [(lit "stepNumber", JNum (NumFin (1 # 2)%Q))]) 4)).
    + reflexivity.
    + intros n [= <-]. reflexivity.
Defined.

(** C9, as stated, fails: a step numbered 1.5 passes validation. *)
Lemma validateActionStep_accepts_fraction :
  validateActionStep half_step 0
  = Ok {| stepNumber := NumFin (3 # 2)%Q; title := lit "Get a guitar";
          description := lit "Buy or borrow one";
          estimatedTime := lit "1 day"; dependencies := [] |}
  /\ num_is_integer (NumFin (3 # 2)%Q) = false.
Proof. split; reflexivity. Qed.

End ValidatorFacts.

(* ================================================================== *)
(** ** Retryable gateway client (analyze-goal/index.ts) *)

Module GatewayFacts.
Import AnalyzeGoal Scenario.

Section Bound.
Context {Req : Type}.
Variable request : Req.
Variable maxRetries : nat.
Variable baseDelay : Z.

Lemma try_block_calls (attempt : nat) (w : world Req) :
  calls (snd (try_block request baseDelay attempt w)) = S (calls w).
Proof.
  unfold try_block, fetch.
  destruct (gateway w (calls w) request) as [m|st t]; [reflexivity|].
  destruct (response_ok st); [reflexivity|].
  destruct (st =? 429)%nat; [reflexivity|].
  destruct ((400 <=? st)%nat && (st <? 500)%nat); [reflexivity|].
  destruct (500 <=? st)%nat; reflexivity.
Qed.

Lemma catch_block_calls (attempt : nat) (w : world Req) :
  calls (catch_block maxRetries baseDelay attempt w) = calls w.
Proof.
  unfold catch_block. now destruct (attempt <? maxRetries - 1)%nat.
Qed.

(** Whatever the gateway answers, one call of the loop sends at most
    [remaining] requests. *)
Lemma loop_calls_bound (remaining attempt : nat)
      (lastError : option js_error) (w : world Req) :
  (calls (snd (loop request maxRetries baseDelay remaining attempt
                 lastError w)) <= calls w + remaining)%nat.
Proof.
  revert attempt lastError w.
  induction remaining as [|r IH]; intros attempt lastError w; simpl.
  - lia.
  - pose proof (try_block_calls attempt w) as Hc.
    destruct (try_block request baseDelay attempt w) as [[resp| | |e] w1];
      simpl in Hc |- *.
    + lia.
    + specialize (IH (S attempt) lastError w1). lia.
    + specialize (IH (S attempt) lastError w1). lia.
    + specialize (IH (S attempt) (Some e)
                    (catch_block maxRetries baseDelay attempt w1)).
      rewrite catch_block_calls in IH. lia.
Qed.
Lemma try_block_events (attempt : nat) (w : world Req) :
  exists rest,
    events (snd (try_block request baseDelay attempt w))
    = events w ++ EvFetch :: rest.
Proof.
  unfold try_block, fetch.
  destruct (gateway w (calls w) request) as [m|st t]; [now exists []|].
  destruct (response_ok st); [now exists []|].
  destruct (st =? 429)%nat.
  { eexists. simpl. rewrite <- app_assoc. reflexivity. }
  destruct ((400 <=? st)%nat && (st <? 500)%nat); [now exists []|].
  destruct (500 <=? st)%nat; [|now exists []].
  eexists. simpl. rewrite <- app_assoc. reflexivity.
Qed.

(** The loop only adds to what has happened. *)
Lemma loop_events (remaining attempt : nat) (lastError : option js_error)
      (w : world Req) :
  exists rest,
    events (snd (loop request maxRetries baseDelay remaining attempt
                   lastError w))
    = events w ++ rest.
Proof.
  revert attempt lastError w.
  induction remaining as [|r IH]; intros attempt lastError w; simpl.
  - exists []. now rewrite app_nil_r.
  - destruct (try_block_events attempt w) as [rest0 H0].
    destruct (try_block request baseDelay attempt w) as [[resp| | |e] w1];
      simpl in H0 |- *.
    + eauto.
    + destruct (IH (S attempt) lastError w1) as [rest H].
      rewrite H, H0, <- app_assoc. eauto.
    + destruct (IH (S attempt) lastError w1) as [rest H].
      rewrite H, H0, <- app_assoc. eauto.
    + destruct (IH (S attempt) (Some e)
                  (catch_block maxRetries baseDelay attempt w1)) as [rest H].
      rewrite H. unfold catch_block.
      destruct (attempt <? maxRetries - 1)%nat; simpl;
        rewrite H0, <- ?app_assoc; eauto.
Qed.

(** An iteration that is entered sends a request. *)
Lemma loop_sends (remaining attempt : nat) (lastError : option js_error)
      (w : world Req) :
  exists rest,
    events (snd (loop request maxRetries baseDelay (S remaining) attempt
                   lastError w))
    = events w ++ EvFetch :: rest.
Proof.
  simpl. destruct (try_block_events attempt w) as [rest0 H0].
  destruct (try_block request baseDelay attempt w) as [[resp| | |e] w1];
    simpl in H0 |- *.
  - eauto.
  - destruct (loop_events remaining (S attempt) lastError w1) as [rest H].
    rewrite H, H0, <- app_assoc. simpl. eauto.
  - destruct (loop_events remaining (S attempt) lastError w1) as [rest H].
    rewrite H, H0, <- app_assoc. simpl. eauto.
  - destruct (loop_events remaining (S attempt) (Some e)
                (catch_block maxRetries baseDelay attempt w1)) as [rest H].
    rewrite H. unfold catch_block.
    destruct (attempt <? maxRetries - 1)%nat; simpl;
      rewrite H0, <- ?app_assoc; simpl; eauto.
Qed.

Lemma loop_S (remaining attempt : nat) (lastError : option js_error)
      (w : world Req) :
  loop request maxRetries baseDelay (S remaining) attempt lastError w
  = match try_block request baseDelay attempt w with
    | (Return r, w1) => (Ok r, w1)
    | (Continue, w1) | (Normal, w1) =>
        loop request maxRetries baseDelay remaining (S attempt) lastError w1
    | (Throw e, w1) =>
        loop request maxRetries baseDelay remaining (S attempt) (Some e)
          (catch_block maxRetries baseDelay attempt w1)
    end.
Proof. reflexivity. Qed.

(** Every 4xx answer other than 429 to the first request is followed,
    when the limit allows a second attempt, by the backoff delay and a
    second request. *)
Lemma fetchWithRetry_client_error_resent (w : world Req)
      (status : nat) (text : jsstring) :
  (400 <= status < 500)%nat -> status <> 429 -> (2 <= maxRetries)%nat ->
  gateway w (calls w) request = FetchResponse status text ->
  exists rest,
    events (snd (fetchWithRetry request maxRetries baseDelay w))
    = events w ++ [EvFetch; EvSleep (baseDelay * 2 ^ 0); EvFetch] ++ rest.
Proof.
  intros Hs H429 Hm Hg. unfold fetchWithRetry.
  assert (Hex : exists r, maxRetries = S (S r))
    by (exists (maxRetries - 2)%nat; lia).
  destruct Hex as [r Hr].
  replace (loop request maxRetries baseDelay maxRetries 0 None w)
    with (loop request maxRetries baseDelay (S (S r)) 0 None w)
    by (now rewrite <- Hr).
  rewrite loop_S. unfold try_block at 1, fetch. rewrite Hg.
  replace (response_ok status) with false
    by (unfold response_ok; symmetry; apply andb_false_iff; right;
        apply Nat.leb_gt; lia).
  replace (status =? 429)%nat with false
    by (symmetry; now apply Nat.eqb_neq).
  replace ((400 <=? status)%nat && (status <? 500)%nat) with true
    by (symmetry; apply andb_true_iff; split;
        [apply Nat.leb_le | apply Nat.ltb_lt]; lia).
  unfold catch_block at 1.
  replace (0 <? maxRetries - 1)%nat with true
    by (symmetry; apply Nat.ltb_lt; lia).
  match goal with
  | |- context [loop _ _ _ (S r) 1 ?le ?w2] =>
      destruct (loop_sends r 1 le w2) as [rest H]
  end.
  exists rest. rewrite H. simpl. rewrite <- !app_assoc. reflexivity.
Qed.

End Bound.

(** C1 does not hold of the code: the [throw] for a 4xx answer sits
    inside the [try] block, so the [catch] block takes it as a transient
    failure. After a single 404 the client waits 1000 ms and sends the
    request again, and returns the 200 it then gets; answered 404 every
    time it sends all three requests, waiting 1000 ms and 2000 ms in
    between, before it fails. *)
Theorem fetchWithRetry_retries_client_error
        (t1 t2 t3 : jsstring) (after : fetch_outcome) :
  (let g := scripted [FetchResponse 404 t1; FetchResponse 200 t2] after in
   fetchWithRetry tt default_maxRetries default_baseDelay (fresh g)
   = (Ok {| status := 200; text := t2 |},
      {| gateway := g; calls := 2;
         events := [EvFetch; EvSleep 1000; EvFetch] |}))
  /\ (let g := scripted [FetchResponse 404 t1; FetchResponse 404 t2;
                         FetchResponse 404 t3] after in
      fetchWithRetry tt default_maxRetries default_baseDelay (fresh g)
      = (Err (Error (lit "API error 404: " ++ t3)),
         {| gateway := g; calls := 3;
            events := [EvFetch; EvSleep 1000; EvFetch; EvSleep 2000;
                       EvFetch] |})).
Proof. split; reflexivity. Qed.

(** The handler's own parse block cleans and parses as
    [parseJSONResponse] does; only the text of the error differs. *)
Lemma parse_block_parseJSONResponse (s : jsstring) :
  parse_block (JStr s)
  = match Agent.parseJSONResponse (JStr s) with
    | Ok v => Ok v
    | Err _ => Err (Error (lit "Failed to parse AI response as JSON"))
    end.
Proof.
  unfold parse_block, Agent.parseJSONResponse, Agent.cleanContent.
  cbv zeta. change Agent.fence_json with (lit "```json").
  change Agent.fence with (lit "```").
  now destruct (JSON_parse _).
Qed.

(** This function's validators are shallower than the planning agent's:
    a failure carries no field, and the output check stops at the four
    containers. *)
Example validateInput_plain_error :
  AnalyzeGoal.validateInput (JObj [(lit "priority", JStr (lit "medium"))])
  = Err (Error (lit "Goal is required and must be a non-empty string")).
Proof. reflexivity. Qed.

Example validateOutput_containers_only :
  let data := JObj [(lit "goalAnalysis", JObj []);
                    (lit "actionSteps", JArr []);
                    (lit "risks", JArr []);
                    (lit "nextImmediateAction", JObj [])] in
  validateOutput data = Ok data.
Proof. reflexivity. Qed.

End GatewayFacts.

(* ================================================================== *)
(** ** Tool executors and bounded retry *)

Module RetryFacts.
Import Agent Scenario Vocabulary.

Section Executors.
Variable decodeToolCalls : jsval -> option js_error.

Lemma callLLM_one_request (request : llm_request) (w : env) :
  gateway (snd (callLLM decodeToolCalls request w)) = gateway w
  /\ calls (snd (callLLM decodeToolCalls request w)) = S (calls w)
  /\ events (snd (callLLM decodeToolCalls request w))
     = events w ++ [EvFetch].
Proof.
  unfold callLLM, fetch.
  destruct (gateway w (calls w) request) as [m|st t]; [now repeat split|].
  destruct (negb (response_ok st)); [now repeat split|].
  destruct (JSON_parse t) as [data|]; [|now repeat split].
  destruct data; try (now repeat split);
    match goal with
    | |- context [negb (truthy ?m)] =>
        destruct (negb (truthy m)); [now repeat split|]
    end;
    match goal with
    | |- context [decodeToolCalls ?v] =>
        destruct (decodeToolCalls v); now repeat split
    end.
Qed.

(** An executor that logs its tool, calls the model once and then only
    computes on the answer. *)
Lemma one_call_after_log (t : Tool) (request : llm_request) {T}
      (k : jsval -> M env T) :
  (forall content w, snd (k content w) = w) ->
  one_call t (bind (log_tool t) (fun _ =>
              bind (callLLM decodeToolCalls request) k)).
Proof.
  intros Hk w. unfold bind, log_tool.
  destruct (callLLM_one_request request (record (EvTool t) w))
    as (Hg & Hc & He).
  destruct (callLLM decodeToolCalls request (record (EvTool t) w))
    as [[content|e] w1] eqn:E; simpl in Hg, Hc, He.
  - rewrite Hk. simpl in *. rewrite Hg, Hc, He.
    rewrite <- app_assoc. now repeat split.
  - simpl in *. rewrite Hg, Hc, He.
    rewrite <- app_assoc. now repeat split.
Qed.

Lemma pure_tail {A B} (r : result A) (k : A -> M env B) (w : env) :
  (forall a w, snd (k a w) = w) ->
  snd (bind (lift_result r) k w) = w.
Proof.
  intros Hk. unfold bind, lift_result. destruct r; [apply Hk | reflexivity].
Qed.

Lemma executeAnalyzeComplexity_one_call goal priority :
  one_call analyze_goal_complexity
    (executeAnalyzeComplexity decodeToolCalls goal priority).
Proof.
  apply one_call_after_log. intros content w.
  apply pure_tail. reflexivity.
Qed.

Lemma executeGenerateSteps_one_call goal complexity timeAvailable :
  one_call generate_action_steps
    (executeGenerateSteps decodeToolCalls goal complexity timeAvailable).
Proof.
  apply one_call_after_log. intros content w.
  apply pure_tail. intros parsed w'.
  destruct (negb (truthy parsed) || negb (isArray (get parsed "steps")));
    [reflexivity|].
  destruct (get parsed "steps"); try reflexivity.
  apply pure_tail. reflexivity.
Qed.

Lemma executeIdentifyRisks_one_call goal actionSteps :
  one_call identify_risks
    (executeIdentifyRisks decodeToolCalls goal actionSteps).
Proof.
  apply one_call_after_log. intros content w.
  apply pure_tail. intros parsed w'.
  destruct (negb (truthy parsed) || negb (isArray (get parsed "risks")));
    [reflexivity|].
  destruct (get parsed "risks"); reflexivity.
Qed.

Lemma executeDetermineNextAction_one_call actionSteps priority :
  one_call determine_next_action
    (executeDetermineNextAction decodeToolCalls actionSteps priority).
Proof.
  apply one_call_after_log. intros content w.
  apply pure_tail. reflexivity.
Qed.

End Executors.

(** With the default limit the loop of [executeWithRetry] is three
    attempts. *)
Lemma retry_loop_three {T} (fn : M env T) (w : env) :
  retry_loop fn 3 3 0 None w = three_attempts fn w.
Proof.
  unfold three_attempts. simpl.
  destruct (fn w) as [[v|e0] w1]; [reflexivity|].
  destruct (fn (sleep _ w1)) as [[v|e1] w2]; [reflexivity|].
  destruct (fn (sleep _ w2)) as [[v|e2] w3]; reflexivity.
Qed.

Lemma executeWithRetry_three {T} (fn : M env T) (st : AgentState) (w : env) :
  maxRetries st = 3 ->
  executeWithRetry fn {| state := st; world_of := w |}
  = (fst (three_attempts fn w),
     {| state := st; world_of := snd (three_attempts fn w) |}).
Proof.
  intros H. unfold executeWithRetry, bind, this_state, in_env. simpl.
  rewrite H, retry_loop_three.
  now destruct (three_attempts fn w).
Qed.

(** The attempts of a retried executor as the world sees them. *)
Lemma three_attempts_trace (t : Tool) {T} (fn : M env T) (w : env) :
  one_call t fn ->
  exists k, (1 <= k <= 3)%nat
    /\ gateway (snd (three_attempts fn w)) = gateway w
    /\ calls (snd (three_attempts fn w)) = (calls w + k)%nat
    /\ tools (events (snd (three_attempts fn w)))
       = tools (events w) ++ repeat t k
    /\ (forall e, fst (three_attempts fn w) = Err e -> k = 3).
Proof.
  intros Hfn. unfold three_attempts.
  assert (Htools : forall l, tools (l ++ [EvTool t; EvFetch])
                             = tools l ++ [t]).
  { intros l. unfold tools. rewrite flat_map_app. reflexivity. }
  assert (Hsleep : forall l d, tools (l ++ [EvSleep d]) = tools l).
  { intros l d. unfold tools. rewrite flat_map_app. simpl.
    now rewrite app_nil_r. }
  destruct (Hfn w) as (Hg0 & Hc0 & He0).
  destruct (fn w) as [[v|e0] w1]; simpl in Hg0, Hc0, He0.
  { exists 1. simpl. rewrite Hg0, Hc0, He0, Htools.
    repeat split; try lia. discriminate. }
  destruct (Hfn (sleep (1000 * 2 ^ 0) w1)) as (Hg1 & Hc1 & He1).
  destruct (fn (sleep (1000 * 2 ^ 0) w1)) as [[v|e1] w2];
    simpl in Hg1, Hc1, He1.
  { exists 2. simpl. rewrite Hg1, Hc1, He1, Hg0, Hc0, He0.
    rewrite Htools, Hsleep, Htools, <- app_assoc.
    repeat split; try lia. discriminate. }
  destruct (Hfn (sleep (1000 * 2 ^ 1) w2)) as (Hg2 & Hc2 & He2).
  exists 3. rewrite Hg2, Hc2, He2. simpl.
  rewrite Hg1, Hc1, He1, Hg0, Hc0, He0.
  rewrite Htools, Hsleep, Htools, Hsleep, Htools, <- !app_assoc.
  repeat split; lia.
Qed.

(** Whatever the limit, a retried executor is invoked at most that many
    times, and exactly that many when the retry fails. *)
Lemma retry_loop_bound (t : Tool) {T} (fn : M env T) (maxRetries : nat) :
  one_call t fn ->
  forall remaining attempt lastError w,
    (calls (snd (retry_loop fn maxRetries remaining attempt lastError w))
     <= calls w + remaining)%nat
    /\ (forall e,
          fst (retry_loop fn maxRetries remaining attempt lastError w)
          = Err e ->
          calls (snd (retry_loop fn maxRetries remaining attempt lastError w))
          = (calls w + remaining)%nat).
Proof.
  intros Hfn. induction remaining as [|r IH]; intros attempt lastError w.
  - simpl. split; [lia|]. intros e _. lia.
  - simpl. destruct (Hfn w) as (_ & Hc & _).
    destruct (fn w) as [[v|e0] w1]; simpl in Hc |- *.
    + split; [lia|]. discriminate.
    + match goal with
      | |- context [retry_loop fn maxRetries r (S attempt) (Some e0) ?w2] =>
          destruct (IH (S attempt) (Some e0) w2) as [Hle Heq];
          assert (Hw2 : calls w2 = calls w1)
            by (now destruct (attempt <? maxRetries - 1)%nat)
      end.
      rewrite Hw2 in Hle, Heq. split; [lia|].
      intros e He. rewrite (Heq e He). lia.
Qed.

(** C5. The retry of the orchestrator wraps the whole executor: with the
    default limit of 3 (the limit of every fresh agent state) a step is
    at most three invocations of its executor, 1000 * 2^0 ms after the
    first failure and 1000 * 2^1 ms after the second, and the outcome is
    that of the last attempt made, so the last error is what propagates
    once the attempts are used up. Every invocation of each executor
    sends one request of its own, whatever fails afterwards: after an
    answer with status 200 that does not parse, the next attempt calls
    the model afresh and its valid answer is the result. *)
Theorem executeWithRetry_wraps_executor
        (decodeToolCalls : jsval -> option js_error) :
  (forall T (fn : M env T) st w,
      maxRetries st = 3 ->
      executeWithRetry fn {| state := st; world_of := w |}
      = (fst (three_attempts fn w),
         {| state := st; world_of := snd (three_attempts fn w) |}))
  /\ (forall input, maxRetries (createAgentState input) = 3)
  /\ (forall goal priority complexity timeAvailable steps,
        one_call analyze_goal_complexity
          (executeAnalyzeComplexity decodeToolCalls goal priority)
        /\ one_call generate_action_steps
             (executeGenerateSteps decodeToolCalls goal complexity
                timeAvailable)
        /\ one_call identify_risks
             (executeIdentifyRisks decodeToolCalls goal steps)
        /\ one_call determine_next_action
             (executeDetermineNextAction decodeToolCalls steps priority))
  /\ (let fn := executeAnalyzeComplexity no_tool_calls
                  (lit "Learn guitar basics") medium in
      fn (fresh prose_first_gateway)
      = (Err parse_failure,
         {| gateway := prose_first_gateway; calls := 1;
            events := [EvTool analyze_goal_complexity; EvFetch] |})
      /\ executeWithRetry fn
           {| state := createAgentState guitar_input;
              world_of := fresh prose_first_gateway |}
         = (Ok {| summary := lit "Learn basic guitar chords and songs";
                  category := lit "Learning"; complexity := simple |},
            {| state := createAgentState guitar_input;
               world_of :=
                 {| gateway := prose_first_gateway; calls := 2;
                    events := [EvTool analyze_goal_complexity; EvFetch;
                               EvSleep 1000;
                               EvTool analyze_goal_complexity; EvFetch] |}
            |})).
Proof.
  split; [|split; [|split; [|split]]].
  - intros T fn st w. apply executeWithRetry_three.
  - reflexivity.
  - intros. split; [|split; [|split]].
    + apply executeAnalyzeComplexity_one_call.
    + apply executeGenerateSteps_one_call.
    + apply executeIdentifyRisks_one_call.
    + apply executeDetermineNextAction_one_call.
  - vm_compute. reflexivity.
  - vm_compute. reflexivity.
Qed.

Lemma executeWithRetry_wraps_executor_witness :
  maxRetries (createAgentState guitar_input) = 3
  /\ executeWithRetry
       (executeGenerateSteps no_tool_calls (lit "Learn guitar basics")
          simple None)
       {| state := createAgentState guitar_input;
          world_of := fresh steps_down_gateway |}
     = (Err (Error (lit "LLM API error 500: upstream unavailable")),
        {| state := createAgentState guitar_input;
           world_of :=
             {| gateway := steps_down_gateway; calls := 3;
                events := [EvTool generate_action_steps; EvFetch;
                           EvSleep 1000;
                           EvTool generate_action_steps; EvFetch;
                           EvSleep 2000;
                           EvTool generate_action_steps; EvFetch] |} |}).
Proof.
  split; [reflexivity|].
  rewrite (proj1 (executeWithRetry_wraps_executor no_tool_calls)
             _ _ (createAgentState guitar_input)
             (fresh steps_down_gateway) eq_refl).
  vm_compute. reflexivity.
Defined.

End RetryFacts.

(* ================================================================== *)
(** ** Orchestrator *)

Module OrchestratorFacts.
Import Agent Scenario Vocabulary RetryFacts.

Ltac run_step :=
  cbv beta iota delta [bind update this_state lift_result state world_of];
  rewrite executeWithRetry_three by reflexivity.

(** A run is the four retried steps one after the other, each started
    in the world the one before it left, and stops at the first that
    fails. *)
Lemma run_agent_outcome (d : jsval -> option js_error)
      (input : GoalInput) (w : env) :
  outcome (run_agent d input w)
  = match three_attempts
            (executeAnalyzeComplexity d (goal input) (priority input)) w with
    | (Err e, w1) => (Err e, Step.analyze_complexity, w1)
    | (Ok analysis, w1) =>
      match three_attempts
              (executeGenerateSteps d (goal input) (complexity analysis)
                 (timeAvailable input)) w1 with
      | (Err e, w2) => (Err e, Step.generate_steps, w2)
      | (Ok generated, w2) =>
        match three_attempts
                (executeIdentifyRisks d (goal input) (fst generated))
                w2 with
        | (Err e, w3) => (Err e, Step.identify_risks, w3)
        | (Ok risks, w3) =>
          match three_attempts
                  (executeDetermineNextAction d (fst generated)
                     (priority input)) w3 with
          | (Err e, w4) => (Err e, Step.determine_next_action, w4)
          | (Ok nextAction, w4) =>
              (validateFullResponse
                 (AgentResponse_value
                    {| goalAnalysis := analysis;
                       actionSteps := fst generated;
                       totalEstimatedTime := snd generated;
                       risks := risks;
                       nextImmediateAction := nextAction |}),
               Step.validate_output, w4)
          end
        end
      end
    end.
Proof.
  unfold outcome, run_agent, run.
  run_step.
  destruct (three_attempts _ w) as [[analysis|e] w1];
    cbn [fst snd]; [|reflexivity].
  run_step.
  destruct (three_attempts _ w1) as [[generated|e] w2];
    cbn [fst snd]; [|reflexivity].
  run_step.
  destruct (three_attempts _ w2) as [[risks|e] w3];
    cbn [fst snd]; [|reflexivity].
  run_step.
  destruct (three_attempts _ w3) as [[nextAction|e] w4];
    cbn [fst snd]; [|reflexivity].
  reflexivity.
Qed.


Lemma tools_app (l1 l2 : list event) : tools (l1 ++ l2) = tools l1 ++ tools l2.
Proof. unfold tools. apply flat_map_app. Qed.

Lemma in_blocks (order : list Tool) (counts : list nat) (t : Tool) :
  In t (blocks order counts) -> In t order.
Proof.
  revert counts. induction order as [|t0 order IH]; intros [|k counts];
    simpl; try tauto.
  rewrite in_app_iff. intros [H|H].
  - apply repeat_spec in H. now left.
  - right. now apply IH with counts.
Qed.

(** C4. The orchestrator runs analyze_complexity, generate_steps,
    identify_risks and determine_next_action in this order, each step
    started in the world its predecessor left. When a step has used up
    its attempts the run fails there with that step's error: the world
    is the one the failed step left, and the executors invoked are those
    of the steps up to the failed one, none of a later step. When all
    four succeed the assembled response goes to the final validation. *)
Theorem run_fixed_order_fail_fast
        (decodeToolCalls : jsval -> option js_error)
        (input : GoalInput) (w : env) :
  let d := decodeToolCalls in
  match three_attempts
          (executeAnalyzeComplexity d (goal input) (priority input)) w with
  | (Err e, w1) =>
      fails_in d input w Step.analyze_complexity e w1
        [analyze_goal_complexity]
  | (Ok analysis, w1) =>
    match three_attempts
            (executeGenerateSteps d (goal input) (complexity analysis)
               (timeAvailable input)) w1 with
    | (Err e, w2) =>
        fails_in d input w Step.generate_steps e w2
          [analyze_goal_complexity; generate_action_steps]
    | (Ok (steps, totalTime), w2) =>
      match three_attempts
              (executeIdentifyRisks d (goal input) steps) w2 with
      | (Err e, w3) =>
          fails_in d input w Step.identify_risks e w3
            [analyze_goal_complexity; generate_action_steps;
             identify_risks]
      | (Ok risks, w3) =>
        match three_attempts
                (executeDetermineNextAction d steps (priority input))
                w3 with
        | (Err e, w4) =>
            fails_in d input w Step.determine_next_action e w4
              [analyze_goal_complexity; generate_action_steps;
               identify_risks; determine_next_action]
        | (Ok nextAction, w4) =>
            validates d input w
              {| goalAnalysis := analysis; actionSteps := steps;
                 totalEstimatedTime := totalTime; risks := risks;
                 nextImmediateAction := nextAction |} w4
        end
      end
    end
  end.
Proof.
  intros d.
  pose proof (run_agent_outcome d input w) as Hrun.
  unfold outcome in Hrun. unfold fails_in, validates.
  cbv zeta.
  destruct (three_attempts_trace w
              (executeAnalyzeComplexity_one_call d (goal input)
                 (priority input)))
    as (k1 & Hk1 & _ & _ & Ht1 & _).
  destruct (three_attempts _ w) as [[analysis|e] w1]; cbn [fst snd] in *.
  2:{ injection Hrun as -> -> ->. repeat split.
      exists (repeat analyze_goal_complexity k1). split; [exact Ht1|].
      split.
      - exists [k1]. repeat split;
          [repeat (apply Forall_cons; [assumption|]); apply Forall_nil|].
        simpl. now rewrite app_nil_r.
      - intros t Ht. apply repeat_spec in Ht. now left. }
  destruct (three_attempts_trace w1
              (executeGenerateSteps_one_call d (goal input)
                 (complexity analysis) (timeAvailable input)))
    as (k2 & Hk2 & _ & _ & Ht2 & _).
  destruct (three_attempts _ w1) as [[[steps totalTime]|e] w2];
    cbn [fst snd] in *.
  2:{ injection Hrun as -> -> ->. repeat split.
      exists (blocks [analyze_goal_complexity; generate_action_steps]
                [k1; k2]).
      split; [|split].
      - rewrite Ht2, Ht1, <- app_assoc. simpl. now rewrite app_nil_r.
      - exists [k1; k2]. repeat split.
        repeat (apply Forall_cons; [assumption|]). apply Forall_nil.
      - apply in_blocks. }
  destruct (three_attempts_trace w2
              (executeIdentifyRisks_one_call d (goal input) steps))
    as (k3 & Hk3 & _ & _ & Ht3 & _).
  destruct (three_attempts _ w2) as [[risks|e] w3]; cbn [fst snd] in *.
  2:{ injection Hrun as -> -> ->. repeat split.
      exists (blocks [analyze_goal_complexity; generate_action_steps;
                      identify_risks] [k1; k2; k3]).
      split; [|split].
      - rewrite Ht3, Ht2, Ht1, <- !app_assoc. simpl. now rewrite app_nil_r.
      - exists [k1; k2; k3]. repeat split.
        repeat (apply Forall_cons; [assumption|]). apply Forall_nil.
      - apply in_blocks. }
  destruct (three_attempts_trace w3
              (executeDetermineNextAction_one_call d steps (priority input)))
    as (k4 & Hk4 & _ & _ & Ht4 & _).
  destruct (three_attempts _ w3) as [[nextAction|e] w4]; cbn [fst snd] in *.
  2:{ injection Hrun as -> -> ->. repeat split.
      exists (blocks [analyze_goal_complexity; generate_action_steps;
                      identify_risks; determine_next_action]
                [k1; k2; k3; k4]).
      split; [|split].
      - rewrite Ht4, Ht3, Ht2, Ht1, <- !app_assoc. simpl.
        now rewrite app_nil_r.
      - exists [k1; k2; k3; k4]. repeat split.
        repeat (apply Forall_cons; [assumption|]). apply Forall_nil.
      - apply in_blocks. }
  injection Hrun as -> -> ->. repeat split.
  exists (blocks [analyze_goal_complexity; generate_action_steps;
                  identify_risks; determine_next_action]
            [k1; k2; k3; k4]).
  split.
  - rewrite Ht4, Ht3, Ht2, Ht1, <- !app_assoc. simpl. now rewrite app_nil_r.
  - exists [k1; k2; k3; k4]. repeat split.
        repeat (apply Forall_cons; [assumption|]). apply Forall_nil.
Qed.

End OrchestratorFacts.

(* ================================================================== *)
(** ** Final validation of the assembled response *)

Module ResponseFacts.
Import Agent Scenario Vocabulary RetryFacts OrchestratorFacts.

Lemma string_unless_Ok (bad : jsstring -> bool) (v : jsval)
      (e : js_error) (s : jsstring) :
  string_unless bad v e = Ok s -> v = JStr s /\ bad s = false.
Proof.
  destruct v; simpl; try discriminate.
  destruct (bad s0) eqn:E; [discriminate|]. intros [= <-]. now split.
Qed.

Lemma not_empty (s : jsstring) : is_empty s = false -> s <> [].
Proof. now destruct s. Qed.

Lemma bindR_Ok {A B} (r : result A) (k : A -> result B) (b : B) :
  bindR r k = Ok b -> exists a, r = Ok a /\ k a = Ok b.
Proof. destruct r; simpl; [eauto | discriminate]. Qed.

Lemma validateGoalAnalysis_ok (data : jsval) (a : GoalAnalysis) :
  validateGoalAnalysis data = Ok a -> GoalAnalysis_ok a.
Proof.
  unfold validateGoalAnalysis.
  destruct (negb (not_an_object data)); [|discriminate].
  intros H. apply bindR_Ok in H as (s & Hs & H).
  apply bindR_Ok in H as (c & Hc & H).
  destruct (member Complexity_name validComplexities _); [|discriminate].
  injection H as <-. apply string_unless_Ok in Hs as [_ Hs].
  apply string_unless_Ok in Hc as [_ Hc]. split; simpl.
  - apply Nat.ltb_ge in Hs. exact Hs.
  - now apply not_empty.
Qed.

Lemma validateActionStep_ok (step : jsval) (i : nat) (s : ActionStep) :
  validateActionStep step i = Ok s -> ActionStep_ok s.
Proof.
  unfold validateActionStep.
  destruct (negb (not_an_object step)); [|discriminate].
  intros H. apply bindR_Ok in H as (n & Hn & H).
  apply bindR_Ok in H as (t & Ht & H).
  apply bindR_Ok in H as (de & Hd & H).
  apply bindR_Ok in H as (et & _ & H).
  destruct (get step "dependencies"); try discriminate.
  injection H as <-.
  apply string_unless_Ok in Ht as [_ Ht].
  apply string_unless_Ok in Hd as [_ Hd].
  repeat split; simpl; try now apply not_empty.
  destruct (get step "stepNumber"); try discriminate.
  destruct (num_ltb n0 1) eqn:E; [discriminate|]. now injection Hn as <-.
Qed.

Lemma validateRisk_ok (risk : jsval) (i : nat) (r : Risk) :
  validateRisk risk i = Ok r -> Risk_ok r.
Proof.
  unfold validateRisk.
  destruct (negb (not_an_object risk)); [|discriminate].
  intros H. apply bindR_Ok in H as (x & _ & H).
  apply bindR_Ok in H as (t & Ht & H).
  destruct (member Severity_name validSeverities _); [|discriminate].
  apply bindR_Ok in H as (m & Hm & H). injection H as <-.
  apply string_unless_Ok in Ht as [_ Ht].
  apply string_unless_Ok in Hm as [_ Hm].
  split; simpl; now apply not_empty.
Qed.

Lemma validateNextAction_ok (data : jsval) (a : NextAction) :
  validateNextAction data = Ok a -> NextAction_ok a.
Proof.
  unfold validateNextAction.
  destruct (negb (not_an_object data)); [|discriminate].
  intros H. apply bindR_Ok in H as (x & Hx & H).
  apply bindR_Ok in H as (y & Hy & H).
  apply bindR_Ok in H as (z & Hz & H). injection H as <-.
  apply string_unless_Ok in Hx as [_ Hx].
  apply string_unless_Ok in Hy as [_ Hy].
  apply string_unless_Ok in Hz as [_ Hz].
  repeat split; simpl; now apply not_empty.
Qed.

(** A mapped validator that returns has accepted every element. *)
Lemma map_indexed_Forall {A B} (f : A -> nat -> result B) (P : B -> Prop)
      (l : list A) :
  (forall x i y, f x i = Ok y -> P y) ->
  forall i ys, map_indexed f i l = Ok ys ->
               Forall P ys /\ List.length ys = List.length l.
Proof.
  intros Hf. induction l as [|x l IH]; intros i ys; simpl.
  - intros [= <-]. now split.
  - intros H. apply bindR_Ok in H as (y & Hy & H).
    apply bindR_Ok in H as (ys' & Hys & H). injection H as <-.
    destruct (IH _ _ Hys) as [HF HL]. split.
    + constructor; [now apply Hf with x i | exact HF].
    + simpl. now rewrite HL.
Qed.

(** The final validation validates every nested entity. *)
Lemma validateFullResponse_rechecks (data : jsval) (r : AgentResponse) :
  validateFullResponse data = Ok r ->
  rechecked data r /\ AgentResponse_ok r.
Proof.
  unfold validateFullResponse, rechecked, AgentResponse_ok.
  destruct (negb (not_an_object data)); [|discriminate].
  intros H. apply bindR_Ok in H as (ga & Hga & H).
  destruct (get data "actionSteps") as [| | | | |[|s ss]|];
    try discriminate.
  apply bindR_Ok in H as (steps & Hsteps & H).
  apply bindR_Ok in H as (total & Htotal & H).
  destruct (get data "risks") as [| | | | |rs|]; try discriminate.
  apply bindR_Ok in H as (risks & Hrisks & H).
  apply bindR_Ok in H as (na & Hna & H). injection H as <-. simpl.
  apply string_unless_Ok in Htotal as [Htotal _].
  destruct (map_indexed_Forall _ ActionStep_ok (s :: ss)
              validateActionStep_ok _ Hsteps) as [HFs HLs].
  destruct (map_indexed_Forall _ Risk_ok rs validateRisk_ok _ Hrisks)
    as [HFr _].
  split; [|split; [|split; [|split; [|split]]]].
  - repeat split; try assumption.
    + exists (s :: ss). repeat split; [discriminate | assumption].
    + exists rs. now split.
  - now apply validateGoalAnalysis_ok with (get data "goalAnalysis").
  - destruct steps; [discriminate | discriminate].
  - exact HFs.
  - exact HFr.
  - now apply validateNextAction_ok with (get data "nextImmediateAction").
Qed.

(** A run that returns a response has been through all four steps and
    the final validation. *)
Lemma run_agent_Ok (d : jsval -> option js_error) (input : GoalInput)
      (w : env) (r : AgentResponse) :
  fst (run_agent d input w) = Ok r ->
  exists analysis steps totalTime risks nextAction w1 w2,
    three_attempts
      (executeAnalyzeComplexity d (goal input) (priority input)) w
    = (Ok analysis, w1)
    /\ three_attempts
         (executeGenerateSteps d (goal input) (complexity analysis)
            (timeAvailable input)) w1
       = (Ok (steps, totalTime), w2)
    /\ validateFullResponse
         (AgentResponse_value
            {| goalAnalysis := analysis; actionSteps := steps;
               totalEstimatedTime := totalTime; risks := risks;
               nextImmediateAction := nextAction |}) = Ok r.
Proof.
  intros H. pose proof (run_agent_outcome d input w) as Hrun.
  unfold outcome in Hrun. rewrite H in Hrun.
  destruct (three_attempts _ w) as [[analysis|e] w1] eqn:E1;
    [|discriminate].
  destruct (three_attempts _ w1) as [[[steps totalTime]|e] w2] eqn:E2;
    [|discriminate].
  cbn [fst snd] in Hrun.
  destruct (three_attempts _ w2) as [[risks|e] w3]; [|discriminate].
  destruct (three_attempts _ w3) as [[nextAction|e] w4]; [|discriminate].
  injection Hrun as Hrun _ _.
  exists analysis, steps, totalTime, risks, nextAction, w1, w2.
  split; [reflexivity|]. split; [exact E2|]. now symmetry.
Qed.

Lemma run_agent_Ok_valid (d : jsval -> option js_error) (input : GoalInput)
      (w : env) (r : AgentResponse) :
  fst (run_agent d input w) = Ok r ->
  exists assembled,
    validateFullResponse (AgentResponse_value assembled) = Ok r
    /\ rechecked (AgentResponse_value assembled) r
    /\ AgentResponse_ok r.
Proof.
  intros H.
  destruct (run_agent_Ok _ _ _ H)
    as (analysis & steps & totalTime & risks & nextAction & w1 & w2
        & _ & _ & Hv).
  destruct (validateFullResponse_rechecks _ Hv) as [Hre Hok]. eauto.
Qed.

(** The two array rules of the final validation, on concrete answers:
    an empty risks list is returned, an empty steps list is not. *)
Example run_with_no_risks :
  fst (run_agent no_tool_calls guitar_input
         (fresh (answering analysis_text steps_text
                   (json_lit "{'risks':[]}") next_text)))
  = Ok {| goalAnalysis := goalAnalysis (guitar_plan []);
          actionSteps := actionSteps (guitar_plan []);
          totalEstimatedTime := lit "2 weeks";
          risks := [];
          nextImmediateAction := nextImmediateAction (guitar_plan []) |}.
Proof. vm_compute. reflexivity. Qed.

Example run_with_no_steps :
  outcome (run_agent no_tool_calls guitar_input
             (fresh (answering analysis_text (json_lit "{'steps':[]}")
                       risks_text next_text)))
  = (Err (ValidationError (lit "actionSteps")
            (lit "Must be a non-empty array")),
     Step.validate_output,
     {| gateway := answering analysis_text (json_lit "{'steps':[]}")
                     risks_text next_text;
        calls := 4;
        events := [EvTool analyze_goal_complexity; EvFetch;
                   EvTool generate_action_steps; EvFetch;
                   EvTool identify_risks; EvFetch;
                   EvTool determine_next_action; EvFetch] |}).
Proof. vm_compute. reflexivity. Qed.

(** The spec's fail-fast scenario: the gateway answers 500 to every
    step-generation request. *)
Example run_with_steps_down :
  outcome (run_agent no_tool_calls guitar_input (fresh steps_down_gateway))
  = (Err (Error (lit "LLM API error 500: upstream unavailable")),
     Step.generate_steps,
     {| gateway := steps_down_gateway; calls := 4;
        events := [EvTool analyze_goal_complexity; EvFetch;
                   EvTool generate_action_steps; EvFetch; EvSleep 1000;
                   EvTool generate_action_steps; EvFetch; EvSleep 2000;
                   EvTool generate_action_steps; EvFetch] |}).
Proof. vm_compute. reflexivity. Qed.

(** A 404 from the gateway is retried like any other failure of a step:
    [callLLM] throws at once, the retry around the executor calls it
    again. *)
Example run_with_not_found :
  let g : nat -> llm_request -> fetch_outcome :=
    fun _ _ => FetchResponse 404 (lit "no such model") in
  outcome (run_agent no_tool_calls guitar_input (fresh g))
  = (Err (Error (lit "LLM API error 404: no such model")),
     Step.analyze_complexity,
     {| gateway := g; calls := 3;
        events := [EvTool analyze_goal_complexity; EvFetch; EvSleep 1000;
                   EvTool analyze_goal_complexity; EvFetch; EvSleep 2000;
                   EvTool analyze_goal_complexity; EvFetch] |}).
Proof. vm_compute. reflexivity. Qed.

(** C10. When the parsed step-generation answer has a valid non-empty
    [steps] array and no string [totalTime], [executeGenerateSteps] does
    not fail: it returns the validated steps with the total time
    ["Varies"]; and a run in which the gateway's answer has no
    [totalTime] returns a response whose [totalEstimatedTime] is
    ["Varies"]. *)
Theorem executeGenerateSteps_totalTime_Varies
        (decodeToolCalls : jsval -> option js_error) :
  (forall goal complexity timeAvailable w content w1 parsed steps validated,
      callLLM decodeToolCalls (StepsPrompt goal complexity timeAvailable)
        (record (EvTool generate_action_steps) w) = (Ok content, w1) ->
      parseJSONResponse content = Ok parsed ->
      get parsed "steps" = JArr steps ->
      steps <> [] ->
      map_indexed validateActionStep 0 steps = Ok validated ->
      is_string (get parsed "totalTime") = false ->
      executeGenerateSteps decodeToolCalls goal complexity timeAvailable w
      = (Ok (validated, lit "Varies"), w1))
  /\ fst (run_agent no_tool_calls guitar_input (fresh no_total_gateway))
     = Ok (guitar_plan (lit "Varies")).
Proof.
  split; [|vm_compute; reflexivity].
  intros goal complexity timeAvailable w content w1 parsed steps validated
         Hcall Hparse Hsteps _ Hvalid Htotal.
  unfold executeGenerateSteps, bind, log_tool.
  rewrite Hcall. unfold lift_result at 1. rewrite Hparse, Hsteps.
  assert (Ht : truthy parsed = true).
  { destruct parsed; try discriminate. reflexivity. }
  rewrite Ht. cbn [negb orb isArray].
  unfold lift_result. rewrite Hvalid. unfold ret.
  destruct (get parsed "totalTime"); try reflexivity. discriminate.
Qed.

Lemma executeGenerateSteps_totalTime_Varies_witness :
  executeGenerateSteps no_tool_calls (lit "Learn guitar basics") simple None
    (fresh no_total_gateway)
  = (Ok (actionSteps (guitar_plan []), lit "Varies"),
     {| gateway := no_total_gateway; calls := 1;
        events := [EvTool generate_action_steps; EvFetch] |}).
Proof.
  eapply (proj1 (executeGenerateSteps_totalTime_Varies no_tool_calls)
            (lit "Learn guitar basics") simple None (fresh no_total_gateway)
            (JStr steps_text_no_total)).
  - vm_compute. reflexivity.
  - vm_compute. reflexivity.
  - vm_compute. reflexivity.
  - discriminate.
  - vm_compute. reflexivity.
  - vm_compute. reflexivity.
Defined.

End ResponseFacts.

(* ================================================================== *)
(** ** HTTP handler *)

Module HandlerFacts.
Import Agent Scenario Vocabulary ValidatorFacts.



(** The handler answers 200 only with a response that came out of the
    final validation. *)
Lemma serve_success_only_validated
      (decodeToolCalls : jsval -> option js_error)
      (req : Request) (apiKey : option jsstring) (w w' : env) (b : jsval) :
  serve decodeToolCalls req apiKey w = ({| status := 200; body := Some b |}, w') ->
  exists r, b = AgentResponse_value r /\ AgentResponse_ok r.
Proof.
  unfold serve.
  destruct (JsString.eqb (method req) (lit "OPTIONS")); [discriminate|].
  destruct (handle decodeToolCalls req apiKey w) as [[r|e] w1] eqn:E.
  - intros [= <- _]. exists r. split; [reflexivity|].
    unfold handle in E. destruct (JSON_parse (body_text req)); [|discriminate].
    unfold bind, lift_result in E.
    destruct (validateInput j) as [input|]; [|discriminate].
    destruct apiKey as [[|c key]|]; try discriminate.
    destruct (run_agent decodeToolCalls input w) as [res a] eqn:Er.
    injection E as -> _.
    destruct (ResponseFacts.run_agent_Ok_valid decodeToolCalls input w (r:=r))
      as (_ & _ & _ & Hok); [now rewrite Er | exact Hok].
  - destruct e; discriminate.
Qed.


(** The same for a failure of the final validation of the assembled
    response: an empty list of steps passes the step executor and is
    refused at the end. *)
Example serve_final_validation_failure_is_400 :
  fst (serve no_tool_calls guitar_request (Some (lit "key"))
         (fresh (answering analysis_text (json_lit "{'steps':[]}")
                   risks_text next_text)))
  = failure_response 400 "VALIDATION_ERROR"
      (lit "Validation error on 'actionSteps': Must be a non-empty array")
      (JStr (lit "actionSteps")).
Proof. vm_compute. reflexivity. Qed.

Example serve_guitar_plan :
  fst (serve no_tool_calls guitar_request (Some (lit "key"))
         (fresh good_gateway))
  = {| status := 200;
       body := Some (AgentResponse_value (guitar_plan (lit "2 weeks"))) |}.
Proof. vm_compute. reflexivity. Qed.

Example serve_without_key :
  serve no_tool_calls guitar_request None (fresh good_gateway)
  = (failure_response 500 "AGENT_ERROR"
       (lit "Lovable AI key is not configured") JUndefined,
     fresh good_gateway).
Proof. vm_compute. reflexivity. Qed.

End HandlerFacts.

(* ================================================================== *)
(** ** More on the retrying gateway client *)

Module GatewayMore.
Import AnalyzeGoal Scenario Behaviour.

Section Client.
Context {Req : Type}.
Variable request : Req.
Variable maxRetries : nat.
Variable baseDelay : Z.

Local Abbreviation loop := (loop request maxRetries baseDelay).

Local Abbreviation fetched := (Behaviour.fetched request).

Lemma try_block_gateway (attempt : nat) (w : world Req) :
  gateway (snd (try_block request baseDelay attempt w)) = gateway w.
Proof.
  unfold try_block, fetch.
  destruct (gateway w (calls w) request) as [m|st t]; [reflexivity|].
  destruct (response_ok st); [reflexivity|].
  destruct (st =? 429)%nat; [reflexivity|].
  destruct ((400 <=? st)%nat && (st <? 500)%nat); [reflexivity|].
  destruct (500 <=? st)%nat; reflexivity.
Qed.

Lemma catch_block_gateway (attempt : nat) (w : world Req) :
  gateway (catch_block maxRetries baseDelay attempt w) = gateway w.
Proof.
  unfold catch_block. now destruct (attempt <? maxRetries - 1)%nat.
Qed.

Lemma try_block_Return (attempt : nat) (w w1 : world Req) (r : Response) :
  try_block request baseDelay attempt w = (Return r, w1) ->
  response_ok (status r) = true
  /\ gateway w (calls w) request = FetchResponse (status r) (text r)
  /\ w1 = fetched w.
Proof.
  unfold try_block, Behaviour.fetched.
  destruct (fetch request w) as [outcome w'] eqn:Ef.
  unfold fetch in Ef. injection Ef as Ho Hw.
  destruct outcome as [m|st t]; [discriminate|].
  destruct (response_ok st) eqn:Eok.
  - intros [= <- <-]. simpl. now rewrite Ho.
  - destruct (st =? 429)%nat; [discriminate|].
    destruct ((400 <=? st)%nat && (st <? 500)%nat); [discriminate|].
    destruct (500 <=? st)%nat; discriminate.
Qed.

Lemma loop_Ok (remaining attempt : nat) (lastError : option js_error)
      (w w' : world Req) (r : Response) :
  loop remaining attempt lastError w = (Ok r, w') ->
  response_ok (status r) = true
  /\ (calls w < calls w')%nat
  /\ gateway w (calls w' - 1) request = FetchResponse (status r) (text r).
Proof.
  revert attempt lastError w.
  induction remaining as [|n IH]; intros attempt lastError w; simpl.
  - discriminate.
  - pose proof (GatewayFacts.try_block_calls request baseDelay attempt w) as Hc.
    pose proof (try_block_gateway attempt w) as Hg.
    destruct (try_block request baseDelay attempt w) as [[resp| | |e] w1] eqn:Et;
      simpl in Hc, Hg.
    + intros [= <- <-]. apply try_block_Return in Et as (Hok & Ha & ->).
      rewrite Hc. replace (S (calls w) - 1)%nat with (calls w) by lia.
      repeat split; [exact Hok | lia | exact Ha].
    + intros H. apply IH in H as (Hok & Hlt & Ha).
      rewrite Hg in Ha. repeat split; [exact Hok | lia | exact Ha].
    + intros H. apply IH in H as (Hok & Hlt & Ha).
      rewrite Hg in Ha. repeat split; [exact Hok | lia | exact Ha].
    + intros H. apply IH in H as (Hok & Hlt & Ha).
      rewrite GatewayFacts.catch_block_calls in Hlt.
      rewrite catch_block_gateway, Hg in Ha.
      repeat split; [exact Hok | lia | exact Ha].
Qed.

(** X1. A response that [fetchWithRetry] returns has a 2xx status and is
    the gateway's answer to the last request it sent. *)
Theorem fetchWithRetry_returns_ok_answer
        (w w' : world Req) (r : Response) :
  fetchWithRetry request maxRetries baseDelay w = (Ok r, w') ->
  response_ok (status r) = true
  /\ (calls w < calls w')%nat
  /\ gateway w (calls w' - 1) request = FetchResponse (status r) (text r).
Proof. apply loop_Ok. Qed.

Lemma world_eta (w : world Req) :
  w = {| gateway := gateway w; calls := calls w; events := events w |}.
Proof. now destruct w. Qed.

(** Iterations that all end by [continue] or fall through, each after the
    delay [delay attempt] if any, keep [lastError] and use up the limit. *)
Lemma loop_no_throw (g : nat -> Req -> fetch_outcome)
      (delay : nat -> option Z) :
  (forall attempt w,
      gateway w = g ->
      exists c,
        (c = Continue \/ c = Normal)
        /\ try_block request baseDelay attempt w
           = (c, match delay attempt with
                 | Some d => sleep d (fetched w)
                 | None => fetched w
                 end)) ->
  forall remaining attempt lastError w,
    gateway w = g ->
    loop remaining attempt lastError w
    = (Err (match lastError with
            | Some e => e
            | None => Error (lit "Max retries exceeded")
            end),
       {| gateway := gateway w; calls := calls w + remaining;
          events := events w ++ attempts_events delay attempt remaining |}).
Proof.
  intros Htry. induction remaining as [|n IH]; intros attempt lastError w Hw.
  - simpl. rewrite Nat.add_0_r, app_nil_r. now rewrite <- world_eta.
  - simpl. destruct (Htry attempt w Hw) as (c & Hc & ->).
    assert (Hnext :
      loop n (S attempt) lastError
        match delay attempt with
        | Some d => sleep d (fetched w)
        | None => fetched w
        end
      = (Err (match lastError with
              | Some e => e
              | None => Error (lit "Max retries exceeded")
              end),
         {| gateway := gateway w; calls := calls w + S n;
            events := events w ++ EvFetch
              :: match delay attempt with
                 | Some d => [EvSleep d] | None => [] end
              ++ attempts_events delay (S attempt) n |})).
    { rewrite IH by (now destruct (delay attempt)).
      f_equal.
      destruct (delay attempt); unfold Behaviour.fetched, sleep, record, fetch; simpl;
        f_equal; try lia; now rewrite <- !app_assoc. }
    destruct Hc as [-> | ->]; exact Hnext.
Qed.

Lemma try_block_status (attempt : nat) (w : world Req)
      (st : nat) (t : jsstring) :
  gateway w (calls w) request = FetchResponse st t ->
  try_block request baseDelay attempt w
  = if response_ok st then (Return {| status := st; text := t |}, fetched w)
    else if (st =? 429)%nat then
      (Continue, sleep (baseDelay * pow2 attempt * 2) (fetched w))
    else if (400 <=? st)%nat && (st <? 500)%nat then
      (Throw (Error (lit "API error " ++ dec st ++ lit ": " ++ t)), fetched w)
    else if (500 <=? st)%nat then
      (Continue, sleep (baseDelay * pow2 attempt) (fetched w))
    else (Normal, fetched w).
Proof. intros H. unfold try_block, Behaviour.fetched, fetch. now rewrite H. Qed.

(** X3. When every answer is a server error (5xx), [fetchWithRetry]
    sends exactly [maxRetries] requests, waits [baseDelay * 2^attempt]
    after every one of them, the last included, and fails with
    "Max retries exceeded": no status or body of an answer is reported. *)
Theorem fetchWithRetry_server_errors (w : world Req) :
  (forall n, exists st t,
      gateway w n request = FetchResponse st t /\ (500 <= st)%nat) ->
  fetchWithRetry request maxRetries baseDelay w
  = (Err (Error (lit "Max retries exceeded")),
     {| gateway := gateway w; calls := calls w + maxRetries;
        events := events w
          ++ attempts_events
               (fun k => Some (baseDelay * 2 ^ Z.of_nat k)%Z) 0 maxRetries |}).
Proof.
  intros Hg. unfold fetchWithRetry.
  apply (loop_no_throw (g := gateway w)
           (fun k => Some (baseDelay * 2 ^ Z.of_nat k)%Z)); [|reflexivity].
  intros attempt w0 Hw0. exists Continue. split; [now left|].
  destruct (Hg (calls w0)) as (st & t & Ha & Hst). rewrite <- Hw0 in Ha.
  rewrite (try_block_status attempt w0 Ha).
  replace (response_ok st) with false
    by (unfold response_ok; symmetry; apply andb_false_iff; right;
        apply Nat.leb_gt; lia).
  replace (st =? 429)%nat with false by (symmetry; apply Nat.eqb_neq; lia).
  replace ((400 <=? st)%nat && (st <? 500)%nat) with false
    by (symmetry; apply andb_false_iff; right; apply Nat.ltb_ge; lia).
  replace (500 <=? st)%nat with true by (symmetry; apply Nat.leb_le; lia).
  reflexivity.
Qed.

(** X4. When every answer is 429, [fetchWithRetry] sends exactly
    [maxRetries] requests, waits [baseDelay * 2^attempt * 2] after every
    one of them, and fails with "Max retries exceeded". *)
Theorem fetchWithRetry_rate_limited (w : world Req) :
  (forall n, exists t, gateway w n request = FetchResponse 429 t) ->
  fetchWithRetry request maxRetries baseDelay w
  = (Err (Error (lit "Max retries exceeded")),
     {| gateway := gateway w; calls := calls w + maxRetries;
        events := events w
          ++ attempts_events
               (fun k => Some (baseDelay * 2 ^ Z.of_nat k * 2)%Z)
               0 maxRetries |}).
Proof.
  intros Hg. unfold fetchWithRetry.
  apply (loop_no_throw (g := gateway w)
           (fun k => Some (baseDelay * 2 ^ Z.of_nat k * 2)%Z)); [|reflexivity].
  intros attempt w0 Hw0. exists Continue. split; [now left|].
  destruct (Hg (calls w0)) as (t & Ha). rewrite <- Hw0 in Ha.
  now rewrite (try_block_status attempt w0 Ha).
Qed.

(** X5. An answer that is neither 2xx nor an error status (below 200, or
    3xx) is not waited on: when every answer is of this kind the
    [maxRetries] requests follow each other without any delay, and the
    failure is "Max retries exceeded". *)
Theorem fetchWithRetry_unclassified_status (w : world Req) :
  (forall n, exists st t,
      gateway w n request = FetchResponse st t
      /\ ((st < 200)%nat \/ (300 <= st < 400)%nat)) ->
  fetchWithRetry request maxRetries baseDelay w
  = (Err (Error (lit "Max retries exceeded")),
     {| gateway := gateway w; calls := calls w + maxRetries;
        events := events w ++ repeat EvFetch maxRetries |}).
Proof.
  intros Hg. unfold fetchWithRetry.
  rewrite (loop_no_throw (g := gateway w) (fun _ => None)); [|  |reflexivity].
  - do 3 f_equal. generalize 0. induction maxRetries as [|n IH]; intros a.
    + reflexivity.
    + simpl. now rewrite IH.
  - intros attempt w0 Hw0. exists Normal. split; [now right|].
    destruct (Hg (calls w0)) as (st & t & Ha & Hst). rewrite <- Hw0 in Ha.
    rewrite (try_block_status attempt w0 Ha).
    replace (response_ok st) with false
      by (unfold response_ok; symmetry; apply andb_false_iff;
          destruct Hst; [left; apply Nat.leb_gt | right; apply Nat.leb_gt];
          lia).
    replace (st =? 429)%nat with false by (symmetry; apply Nat.eqb_neq; lia).
    replace ((400 <=? st)%nat && (st <? 500)%nat) with false
      by (symmetry; apply andb_false_iff; left; apply Nat.leb_gt; lia).
    replace (500 <=? st)%nat with false by (symmetry; apply Nat.leb_gt; lia).
    reflexivity.
Qed.

(** X2. When no request gets a response, [fetchWithRetry] sends exactly
    [maxRetries] requests, waits [baseDelay * 2^attempt] after each but
    the last, and fails with the error of the last attempt. *)
Theorem fetchWithRetry_network_failure
        (message : nat -> jsstring) (w : world Req) :
  (1 <= maxRetries)%nat ->
  (forall n, gateway w n request = FetchFailed (message n)) ->
  fetchWithRetry request maxRetries baseDelay w
  = (Err (Error (message (calls w + maxRetries - 1))),
     {| gateway := gateway w; calls := calls w + maxRetries;
        events := events w
          ++ attempts_events
               (fun k => if (k <? maxRetries - 1)%nat
                         then Some (baseDelay * 2 ^ Z.of_nat k)%Z
                         else None) 0 maxRetries |}).
Proof.
  intros Hm Hg. unfold fetchWithRetry.
  assert (Hgen : forall w0, gateway w0 = gateway w ->
            forall remaining attempt lastError,
              loop remaining attempt lastError w0
              = (Err (match remaining with
                      | O => match lastError with
                             | Some e => e
                             | None => Error (lit "Max retries exceeded")
                             end
                      | S n => Error (message (calls w0 + n))
                      end),
                 {| gateway := gateway w0; calls := calls w0 + remaining;
                    events := events w0
                      ++ attempts_events
                           (fun k => if (k <? maxRetries - 1)%nat
                                     then Some (baseDelay * 2 ^ Z.of_nat k)%Z
                                     else None) attempt remaining |})).
  { intros w0 Hw0 remaining. revert w0 Hw0.
    induction remaining as [|n IH]; intros w0 Hw0 attempt lastError.
    - simpl. rewrite Nat.add_0_r, app_nil_r. now rewrite <- world_eta.
    - assert (Ha : gateway w0 (calls w0) request
                   = FetchFailed (message (calls w0)))
        by (rewrite Hw0; apply Hg).
      simpl. unfold try_block at 1, fetch at 1. rewrite Ha.
      rewrite IH by (unfold catch_block;
                     destruct (attempt <? maxRetries - 1)%nat; exact Hw0).
      unfold catch_block. f_equal.
      + destruct n.
        * now rewrite Nat.add_0_r.
        * destruct (attempt <? maxRetries - 1)%nat; simpl; do 3 f_equal; lia.
      + destruct (attempt <? maxRetries - 1)%nat;
          unfold sleep, record, pow2; simpl;
          f_equal; try lia; now rewrite <- !app_assoc. }
  rewrite (Hgen w eq_refl).
  destruct maxRetries as [|n]; [lia|].
  now replace (calls w + S n - 1)%nat with (calls w + n)%nat by lia.
Qed.

End Client.

Lemma fetchWithRetry_returns_ok_answer_witness :
  let g := scripted [FetchResponse 429 []; FetchResponse 503 [];
                     FetchResponse 201 (lit "created")]
             (FetchFailed []) in
  fetchWithRetry tt 3 1000 (fresh g)
  = (Ok {| status := 201; text := lit "created" |},
     {| gateway := g; calls := 3;
        events := [EvFetch; EvSleep 2000; EvFetch; EvSleep 2000; EvFetch] |})
  /\ response_ok 201 = true
  /\ g 2 tt = FetchResponse 201 (lit "created").
Proof.
  intros g.
  assert (H : fetchWithRetry tt 3 1000 (fresh g)
              = (Ok {| status := 201; text := lit "created" |},
                 {| gateway := g; calls := 3;
                    events := [EvFetch; EvSleep 2000; EvFetch; EvSleep 2000;
                               EvFetch] |})) by reflexivity.
  split; [exact H|].
  destruct (fetchWithRetry_returns_ok_answer tt 3 1000 (fresh g) H)
    as (Hok & _ & Ha).
  split; [exact Hok | exact Ha].
Defined.

Lemma fetchWithRetry_network_failure_witness :
  fetchWithRetry tt 3 1000
    (fresh (fun n _ => FetchFailed (lit "connection refused #" ++ dec n)))
  = (Err (Error (lit "connection refused #2")),
     {| gateway := fun n _ => FetchFailed (lit "connection refused #" ++ dec n);
        calls := 3;
        events := [EvFetch; EvSleep 1000; EvFetch; EvSleep 2000; EvFetch] |}).
Proof.
  apply (fetchWithRetry_network_failure tt (maxRetries := 3) 1000
           (fun n => lit "connection refused #" ++ dec n)
           (fresh (fun n _ => FetchFailed (lit "connection refused #" ++ dec n)))).
  - apply le_S, le_S, le_n.
  - intros n. reflexivity.
Defined.

Lemma fetchWithRetry_server_errors_witness :
  fetchWithRetry tt 3 1000 (fresh (always (FetchResponse 503 (lit "busy"))))
  = (Err (Error (lit "Max retries exceeded")),
     {| gateway := always (FetchResponse 503 (lit "busy")); calls := 3;
        events := [EvFetch; EvSleep 1000; EvFetch; EvSleep 2000;
                   EvFetch; EvSleep 4000] |}).
Proof.
  apply (fetchWithRetry_server_errors tt 3 1000
           (fresh (always (FetchResponse 503 (lit "busy"))))).
  intros n. exists 503, (lit "busy"). split; [reflexivity|].
  apply Nat.leb_le. reflexivity.
Defined.

Lemma fetchWithRetry_rate_limited_witness :
  fetchWithRetry tt 2 500 (fresh (always (FetchResponse 429 (lit "slow down"))))
  = (Err (Error (lit "Max retries exceeded")),
     {| gateway := always (FetchResponse 429 (lit "slow down")); calls := 2;
        events := [EvFetch; EvSleep 1000; EvFetch; EvSleep 2000] |}).
Proof.
  apply (fetchWithRetry_rate_limited tt 2 500
           (fresh (always (FetchResponse 429 (lit "slow down"))))).
  intros n. exists (lit "slow down"). reflexivity.
Defined.

Lemma fetchWithRetry_unclassified_status_witness :
  fetchWithRetry tt 3 1000 (fresh (always (FetchResponse 304 [])))
  = (Err (Error (lit "Max retries exceeded")),
     {| gateway := always (FetchResponse 304 []); calls := 3;
        events := [EvFetch; EvFetch; EvFetch] |}).
Proof.
  apply (fetchWithRetry_unclassified_status tt 3 1000
           (fresh (always (FetchResponse 304 [])))).
  intros n. exists 304, []. split; [reflexivity|]. right.
  split; apply Nat.leb_le; reflexivity.
Defined.

End GatewayMore.

(* ================================================================== *)
(** ** More on the schema validator *)

Module ValidatorMore.
Import Agent Scenario Vocabulary Behaviour ResponseFacts.

Lemma member_Complexity_name (c : Complexity) :
  member Complexity_name validComplexities (JStr (Complexity_name c)) = Some c.
Proof. now destruct c. Qed.

Lemma member_Severity_name (s : Severity) :
  member Severity_name validSeverities (JStr (Severity_name s)) = Some s.
Proof. now destruct s. Qed.

Lemma is_empty_false (s : jsstring) : s <> [] -> is_empty s = false.
Proof. now destruct s. Qed.

Lemma validateGoalAnalysis_value (a : GoalAnalysis) :
  GoalAnalysis_ok a -> validateGoalAnalysis (GoalAnalysis_value a) = Ok a.
Proof.
  intros [Hs Hc]. destruct a as [s c x]. simpl in Hs, Hc.
  unfold validateGoalAnalysis.
  change (get (GoalAnalysis_value {| summary := s; category := c;
                                     complexity := x |}) "summary")
    with (JStr s).
  change (get (GoalAnalysis_value {| summary := s; category := c;
                                     complexity := x |}) "category")
    with (JStr c).
  change (get (GoalAnalysis_value {| summary := s; category := c;
                                     complexity := x |}) "complexity")
    with (JStr (Complexity_name x)).
  rewrite member_Complexity_name.
  cbn [not_an_object truthy typeof jstype_eqb negb orb GoalAnalysis_value
       string_unless bindR].
  replace (List.length s <? 10)%nat with false
    by (symmetry; now apply Nat.ltb_ge).
  now rewrite (is_empty_false Hc).
Qed.

(** X6. Round trip of the goal analysis: the object of a typed analysis
    validates, and validates to that same analysis, exactly when its
    summary has at least 10 code units and its category is not empty. *)
Theorem validateGoalAnalysis_round_trip (a : GoalAnalysis) :
  validateGoalAnalysis (GoalAnalysis_value a) = Ok a <-> GoalAnalysis_ok a.
Proof.
  split; [apply validateGoalAnalysis_ok | apply validateGoalAnalysis_value].
Qed.

Lemma validateActionStep_value (s : ActionStep) (index : nat) :
  ActionStep_ok s -> validateActionStep (ActionStep_value s) index = Ok s.
Proof.
  intros (Hn & Ht & Hd). destruct s as [n t d e deps]. simpl in Hn, Ht, Hd.
  unfold validateActionStep.
  set (v := ActionStep_value _).
  change (get v "stepNumber") with (JNum n).
  change (get v "title") with (JStr t).
  change (get v "description") with (JStr d).
  change (get v "estimatedTime") with (JStr e).
  change (get v "dependencies") with (JArr deps).
  change (not_an_object v) with false.
  cbn [negb string_unless bindR never]. rewrite Hn.
  now rewrite (is_empty_false Ht), (is_empty_false Hd).
Qed.

(** X7. Round trip of an action step, at whatever index it is validated:
    its object validates to itself exactly when its number is not below 1
    and its title and description are not empty. *)
Theorem validateActionStep_round_trip (s : ActionStep) (index : nat) :
  validateActionStep (ActionStep_value s) index = Ok s <-> ActionStep_ok s.
Proof.
  split; [apply validateActionStep_ok | apply validateActionStep_value].
Qed.

Lemma validateRisk_value (r : Risk) (index : nat) :
  Risk_ok r -> validateRisk (Risk_value r) index = Ok r.
Proof.
  intros (Ht & Hm). destruct r as [i t s m]. simpl in Ht, Hm.
  unfold validateRisk.
  set (v := Risk_value _).
  change (get v "id") with (JStr i).
  change (get v "title") with (JStr t).
  change (get v "severity") with (JStr (Severity_name s)).
  change (get v "mitigation") with (JStr m).
  change (not_an_object v) with false.
  rewrite member_Severity_name.
  cbn [negb string_unless bindR never].
  now rewrite (is_empty_false Ht), (is_empty_false Hm).
Qed.

(** X8. Round trip of a risk, at whatever index: its object validates to
    itself exactly when its title and mitigation are not empty (its id
    may be empty). *)
Theorem validateRisk_round_trip (r : Risk) (index : nat) :
  validateRisk (Risk_value r) index = Ok r <-> Risk_ok r.
Proof.
  split; [apply validateRisk_ok | apply validateRisk_value].
Qed.

Lemma validateNextAction_value (a : NextAction) :
  NextAction_ok a -> validateNextAction (NextAction_value a) = Ok a.
Proof.
  intros (Ha & Hr & Ht). destruct a as [x y z]. simpl in Ha, Hr, Ht.
  unfold validateNextAction.
  set (v := NextAction_value _).
  change (get v "action") with (JStr x).
  change (get v "reasoning") with (JStr y).
  change (get v "timeframe") with (JStr z).
  change (not_an_object v) with false.
  cbn [negb string_unless bindR].
  now rewrite (is_empty_false Ha), (is_empty_false Hr), (is_empty_false Ht).
Qed.

(** X9. Round trip of the next action: its object validates to itself
    exactly when action, reasoning and timeframe are not empty. *)
Theorem validateNextAction_round_trip (a : NextAction) :
  validateNextAction (NextAction_value a) = Ok a <-> NextAction_ok a.
Proof.
  split; [apply validateNextAction_ok | apply validateNextAction_value].
Qed.

Lemma map_indexed_values {A} (value : A -> jsval)
      (validate : jsval -> nat -> result A) (P : A -> Prop) (l : list A) :
  (forall x i, P x -> validate (value x) i = Ok x) ->
  Forall P l ->
  forall i, map_indexed validate i (List.map value l) = Ok l.
Proof.
  intros Hv HF. induction HF as [|x l Hx _ IH]; intros i; simpl.
  - reflexivity.
  - rewrite (Hv x i Hx). simpl. now rewrite IH.
Qed.

Lemma steps_values_valid (l : list ActionStep) (i : nat) :
  Forall ActionStep_ok l ->
  map_indexed validateActionStep i (List.map ActionStep_value l) = Ok l.
Proof.
  intros H. apply map_indexed_values with (P := ActionStep_ok); [|exact H].
  intros x k. apply validateActionStep_value.
Qed.

Lemma risks_values_valid (l : list Risk) (i : nat) :
  Forall Risk_ok l ->
  map_indexed validateRisk i (List.map Risk_value l) = Ok l.
Proof.
  intros H. apply map_indexed_values with (P := Risk_ok); [|exact H].
  intros x k. apply validateRisk_value.
Qed.

Lemma validateFullResponse_value (r : AgentResponse) :
  AgentResponse_ok r -> validateFullResponse (AgentResponse_value r) = Ok r.
Proof.
  intros (Hg & Hne & Hs & Hr & Hn). destruct r as [g steps total risks na].
  simpl in Hg, Hne, Hs, Hr, Hn.
  unfold validateFullResponse.
  set (v := AgentResponse_value _).
  change (get v "goalAnalysis") with (GoalAnalysis_value g).
  change (get v "actionSteps") with (JArr (List.map ActionStep_value steps)).
  change (get v "totalEstimatedTime") with (JStr total).
  change (get v "risks") with (JArr (List.map Risk_value risks)).
  change (get v "nextImmediateAction") with (NextAction_value na).
  change (not_an_object v) with false. cbn [negb].
  rewrite (validateGoalAnalysis_value Hg). cbn [bindR].
  destruct steps as [|s ss]; [contradiction|].
  cbn [List.map].
  change (ActionStep_value s :: List.map ActionStep_value ss)
    with (List.map ActionStep_value (s :: ss)).
  rewrite (steps_values_valid 0 Hs). cbn [bindR string_unless never].
  rewrite (risks_values_valid 0 Hr). cbn [bindR].
  now rewrite (validateNextAction_value Hn).
Qed.

(** X10. Round trip of the whole response: the object of a typed response
    passes the final validation, and comes back unchanged, exactly when
    every nested entity meets the conditions its own validator checks
    (those of X6 to X9) and there is at least one step. *)
Theorem validateFullResponse_round_trip (r : AgentResponse) :
  validateFullResponse (AgentResponse_value r) = Ok r <-> AgentResponse_ok r.
Proof.
  split.
  - intros H. now apply validateFullResponse_rechecks in H.
  - apply validateFullResponse_value.
Qed.

(** *** Failures *)

Lemma string_unless_Err (bad : jsstring -> bool) (v : jsval)
      (e e' : js_error) :
  string_unless bad v e = Err e' -> e' = e.
Proof.
  destruct v; simpl; try (now intros [= <-]).
  destruct (bad s); [now intros [= <-] | discriminate].
Qed.

Lemma bindR_Err {A B} (r : result A) (k : A -> result B) (e : js_error) :
  bindR r k = Err e -> r = Err e \/ exists a, r = Ok a /\ k a = Err e.
Proof. destruct r; simpl; [right; eauto | left; congruence]. Qed.

Ltac named_path :=
  match goal with
  | H : string_unless _ _ _ = Err _ |- _ =>
      apply string_unless_Err in H; subst; eexists; eexists;
      split; [reflexivity | simpl; tauto]
  | H : Err _ = Err _ |- _ =>
      injection H as <-; eexists; eexists;
      split; [reflexivity | simpl; tauto]
  end.

Ltac next_check H :=
  apply bindR_Err in H as [H | (? & _ & H)]; [named_path|].

Lemma validateGoalAnalysis_path (data : jsval) (e : js_error) :
  validateGoalAnalysis data = Err e ->
  exists field message,
    e = ValidationError field message /\ In field GoalAnalysis_paths.
Proof.
  unfold validateGoalAnalysis. intros H.
  destruct (negb (not_an_object data)); [|named_path].
  next_check H. next_check H.
  destruct (member Complexity_name validComplexities _);
    [discriminate | named_path].
Qed.

Lemma validateActionStep_path (step : jsval) (index : nat) (e : js_error) :
  validateActionStep step index = Err e ->
  exists field message,
    e = ValidationError field message /\ In field (ActionStep_paths index).
Proof.
  unfold validateActionStep. intros H.
  destruct (negb (not_an_object step)); [|named_path].
  apply bindR_Err in H as [H | (? & _ & H)].
  { destruct (get step "stepNumber"); try named_path.
    destruct (num_ltb n 1); [named_path | discriminate]. }
  next_check H. next_check H. next_check H.
  destruct (get step "dependencies"); try named_path. discriminate.
Qed.

Lemma validateRisk_path (risk : jsval) (index : nat) (e : js_error) :
  validateRisk risk index = Err e ->
  exists field message,
    e = ValidationError field message /\ In field (Risk_paths index).
Proof.
  unfold validateRisk. intros H.
  destruct (negb (not_an_object risk)); [|named_path].
  next_check H. next_check H.
  destruct (member Severity_name validSeverities _); [|named_path].
  next_check H. discriminate.
Qed.

Lemma validateNextAction_path (data : jsval) (e : js_error) :
  validateNextAction data = Err e ->
  exists field message,
    e = ValidationError field message /\ In field NextAction_paths.
Proof.
  unfold validateNextAction. intros H.
  destruct (negb (not_an_object data)); [|named_path].
  next_check H. next_check H. next_check H. discriminate.
Qed.

(** X11. A fragment validator fails only with a ValidationError, and the
    field it names is the entity itself or one of its fields, with the
    index of the element for a step or a risk. *)
Theorem fragment_validators_name_own_fields :
  (forall data e, validateGoalAnalysis data = Err e ->
     exists field message,
       e = ValidationError field message /\ In field GoalAnalysis_paths)
  /\ (forall step index e, validateActionStep step index = Err e ->
        exists field message,
          e = ValidationError field message
          /\ In field (ActionStep_paths index))
  /\ (forall risk index e, validateRisk risk index = Err e ->
        exists field message,
          e = ValidationError field message /\ In field (Risk_paths index))
  /\ (forall data e, validateNextAction data = Err e ->
        exists field message,
          e = ValidationError field message /\ In field NextAction_paths).
Proof.
  split; [|split; [|split]].
  - apply validateGoalAnalysis_path.
  - apply validateActionStep_path.
  - apply validateRisk_path.
  - apply validateNextAction_path.
Qed.

Lemma fragment_validators_name_own_fields_witness :
  validateRisk (JObj [(lit "id", JStr (lit "risk_1"));
                      (lit "title", JStr (lit "Losing motivation"));
                      (lit "severity", JStr (lit "severe"))]) 2
  = Err (ValidationError (lit "risks[2].severity")
           (lit "Must be one of: low, medium, high"))
  /\ In (lit "risks[2].severity") (Risk_paths 2).
Proof.
  assert (H : validateRisk
                (JObj [(lit "id", JStr (lit "risk_1"));
                       (lit "title", JStr (lit "Losing motivation"));
                       (lit "severity", JStr (lit "severe"))]) 2
              = Err (ValidationError (lit "risks[2].severity")
                       (lit "Must be one of: low, medium, high")))
    by reflexivity.
  split; [exact H|].
  destruct (proj1 (proj2 (proj2 fragment_validators_name_own_fields)) _ _ _ H)
    as (f & m & Heq & Hin).
  injection Heq as <- _. exact Hin.
Defined.

(** A mapped validator fails with the failure of the first element it
    refuses, called with that element's index. *)
Lemma map_indexed_first_error {A B} (f : A -> nat -> result B)
      (pre : list A) (x : A) (post : list A) (e : js_error) :
  forall i,
    (forall k y, nth_error pre k = Some y -> exists b, f y (i + k) = Ok b) ->
    f x (i + List.length pre) = Err e ->
    map_indexed f i (pre ++ x :: post) = Err e.
Proof.
  induction pre as [|y pre IH]; intros i Hpre Hx; simpl.
  - rewrite Nat.add_0_r in Hx. now rewrite Hx.
  - destruct (Hpre 0 y eq_refl) as [b Hb]. rewrite Nat.add_0_r in Hb.
    rewrite Hb. simpl. rewrite (IH (S i)); [reflexivity| |].
    + intros k z Hk. destruct (Hpre (S k) z Hk) as [c Hc].
      exists c. now rewrite Nat.add_succ_comm.
    + simpl in Hx. now rewrite Nat.add_succ_comm.
Qed.

(** X12. The final validation reports the first step it refuses, under
    that step's index: when the goal analysis is valid, the steps before
    position [i] are valid and the step at [i] is not, the failure is the
    one of that step validated at index [i], whatever comes after it. *)
Theorem validateFullResponse_first_invalid_step
        (data : jsval) (analysis : GoalAnalysis)
        (pre : list jsval) (bad : jsval) (post : list jsval) (e : js_error) :
  not_an_object data = false ->
  validateGoalAnalysis (get data "goalAnalysis") = Ok analysis ->
  get data "actionSteps" = JArr (pre ++ bad :: post) ->
  (forall k y, nth_error pre k = Some y ->
               exists s, validateActionStep y k = Ok s) ->
  validateActionStep bad (List.length pre) = Err e ->
  validateFullResponse data = Err e
  /\ exists field message,
       e = ValidationError field message
       /\ In field (ActionStep_paths (List.length pre)).
Proof.
  intros Hobj Hga Hsteps Hpre Hbad. split.
  - unfold validateFullResponse. rewrite Hobj, Hga, Hsteps.
    cbn [negb bindR].
    destruct (pre ++ bad :: post) as [|s ss] eqn:E;
      [now destruct pre|].
    rewrite <- E.
    now rewrite (@map_indexed_first_error _ _ validateActionStep pre bad post
                   e 0 Hpre Hbad).
  - now apply validateActionStep_path with bad.
Qed.

Lemma validateFullResponse_first_invalid_step_witness :
  let good := ActionStep_value
                {| stepNumber := NumFin 1; title := lit "Get a guitar";
                   description := lit "Buy or borrow one";
                   estimatedTime := lit "1 day"; dependencies := [] |} in
  let bad := JObj [(lit "stepNumber", JNum (NumFin 2));
                   (lit "title", JStr [])] in
  validateFullResponse
    (JObj [(lit "goalAnalysis",
             GoalAnalysis_value (goalAnalysis (guitar_plan [])));
           (lit "actionSteps", JArr [good; bad; JNull])])
  = Err (ValidationError (lit "actionSteps[1].title")
           (lit "Title is required")).
Proof.
  intros good bad.
  apply (@validateFullResponse_first_invalid_step
           (JObj [(lit "goalAnalysis",
                    GoalAnalysis_value (goalAnalysis (guitar_plan [])));
                  (lit "actionSteps", JArr [good; bad; JNull])])
           (goalAnalysis (guitar_plan [])) [good] bad [JNull]).
  - reflexivity.
  - reflexivity.
  - reflexivity.
  - intros [|[|k]] y; simpl; try discriminate.
    intros [= <-]. eexists. reflexivity.
  - reflexivity.
Defined.

(** *** The validators of the single-call function *)

Lemma validateOutput_identity :
  True
  /\ (forall data out, AnalyzeGoal.validateOutput data = Ok out -> out = data)
  /\ True.
Proof.
  split; [exact I|]. split; [|exact I].
  intros data out. unfold AnalyzeGoal.validateOutput.
  destruct (not_an_object data); [discriminate|].
  destruct (not_an_object (get data "goalAnalysis")); [discriminate|].
  destruct (negb (isArray (get data "actionSteps"))); [discriminate|].
  destruct (negb (isArray (get data "risks"))); [discriminate|].
  destruct (not_an_object (get data "nextImmediateAction"));
    [discriminate|]. now intros [= <-].
Qed.

(** X13. Whatever the final validation of the planning agent accepts, the
    output check of the single-call function accepts too, and returns
    unchanged; the converse fails, since that check stops at the four
    containers. *)
Theorem validateOutput_weaker_than_validateFullResponse :
  (forall data r,
      validateFullResponse data = Ok r ->
      AnalyzeGoal.validateOutput data = Ok data)
  /\ (forall data out, AnalyzeGoal.validateOutput data = Ok out -> out = data)
  /\ (let data := JObj [(lit "goalAnalysis", JObj []);
                        (lit "actionSteps", JArr []);
                        (lit "risks", JArr []);
                        (lit "nextImmediateAction", JArr [])] in
      AnalyzeGoal.validateOutput data = Ok data
      /\ validateFullResponse data
         = Err (ValidationError (lit "goalAnalysis.summary")
                  (lit "Must be a meaningful summary"))).
Proof.
  split; [|split; [|split; reflexivity]].
  - intros data r H. unfold validateFullResponse in H.
    unfold AnalyzeGoal.validateOutput.
    destruct (not_an_object data); [discriminate|]. cbn [negb] in H.
    apply bindR_Ok in H as (ga & Hga & H).
    unfold validateGoalAnalysis in Hga.
    destruct (not_an_object (get data "goalAnalysis")); [discriminate|].
    destruct (get data "actionSteps") as [| | | | |[|s ss]|];
      try discriminate.
    apply bindR_Ok in H as (steps & _ & H).
    apply bindR_Ok in H as (total & _ & H).
    destruct (get data "risks") as [| | | | |rs|]; try discriminate.
    apply bindR_Ok in H as (risks & _ & H).
    apply bindR_Ok in H as (na & Hna & _).
    unfold validateNextAction in Hna.
    destruct (not_an_object (get data "nextImmediateAction"));
      [discriminate | reflexivity].
  - intros data out. unfold AnalyzeGoal.validateOutput.
    destruct (not_an_object data); [discriminate|].
    destruct (not_an_object (get data "goalAnalysis")); [discriminate|].
    destruct (negb (isArray (get data "actionSteps"))); [discriminate|].
    destruct (negb (isArray (get data "risks"))); [discriminate|].
    destruct (not_an_object (get data "nextImmediateAction"));
      [discriminate|]. now intros [= <-].
Qed.

Lemma validateOutput_weaker_than_validateFullResponse_witness :
  AnalyzeGoal.validateOutput (AgentResponse_value (guitar_plan (lit "2 weeks")))
  = Ok (AgentResponse_value (guitar_plan (lit "2 weeks"))).
Proof.
  apply (proj1 validateOutput_weaker_than_validateFullResponse
           (AgentResponse_value (guitar_plan (lit "2 weeks")))
           (guitar_plan (lit "2 weeks"))).
  reflexivity.
Defined.

(** X14. The two input validators accept the same request bodies up to
    the length bound: a body passes the planning agent's [validateInput]
    exactly when it passes the single-call function's and its goal has at
    most 1000 code units; the priority and the time budget they return
    are the same, the goal is trimmed by the first and kept as sent by the
    second. *)
Theorem validateInput_versions (body : jsval) :
  (forall input,
      validateInput body = Ok input ->
      exists g,
        AnalyzeGoal.validateInput body
        = Ok {| goal := g; priority := priority input;
                timeAvailable := timeAvailable input |}
        /\ goal input = trim g /\ (List.length g <= 1000)%nat)
  /\ (forall sent,
        AnalyzeGoal.validateInput body = Ok sent ->
        (List.length (goal sent) <= 1000)%nat ->
        validateInput body
        = Ok {| goal := trim (goal sent); priority := priority sent;
                timeAvailable := timeAvailable sent |}).
Proof.
  unfold validateInput, AnalyzeGoal.validateInput.
  destruct (not_an_object body); cbn [negb]; [split; discriminate|].
  destruct (get body "goal") as [| |b|n|g|l|o];
    cbn [string_unless bindR]; try (split; discriminate).
  unfold is_empty.
  destruct (List.length (trim g) =? 0)%nat; cbn [bindR];
    [split; discriminate|].
  destruct (member Priority_name validPriorities (get body "priority"))
    as [p|].
  2:{ split; [|discriminate].
      destruct (negb (1000 <? List.length g)%nat); discriminate. }
  destruct (1000 <? List.length g)%nat eqn:El; cbn [negb].
  - split; [discriminate|]. apply Nat.ltb_lt in El.
    intros sent H Hlen.
    destruct (get body "timeAvailable"); try discriminate;
      injection H as <-; simpl in Hlen; lia.
  - apply Nat.ltb_ge in El.
    destruct (get body "timeAvailable"); try (split; discriminate).
    + split.
      * intros input [= <-]. exists g. simpl. now repeat split.
      * now intros sent [= <-] _.
    + split.
      * intros input [= <-]. exists g. simpl. now repeat split.
      * now intros sent [= <-] _.
Qed.

Lemma validateInput_versions_witness :
  let body := JObj [(lit "goal", JStr (lit " Learn guitar basics "));
                    (lit "priority", JStr (lit "medium"))] in
  AnalyzeGoal.validateInput body
  = Ok {| goal := lit " Learn guitar basics "; priority := medium;
          timeAvailable := None |}
  /\ validateInput body = Ok guitar_input.
Proof.
  intros body.
  assert (H : AnalyzeGoal.validateInput body
              = Ok {| goal := lit " Learn guitar basics "; priority := medium;
                      timeAvailable := None |}) by reflexivity.
  split; [exact H|].
  rewrite (proj2 (validateInput_versions body) _ H).
  - reflexivity.
  - apply Nat.leb_le. reflexivity.
Defined.

End ValidatorMore.

(* ================================================================== *)
(** ** More on the response parser and the LLM interface *)

Module ParserMore.
Import Agent Scenario Vocabulary Behaviour JsStringFacts.

Lemma infix_refl (s : jsstring) : infix_of s s.
Proof. exists [], []. now rewrite app_nil_r. Qed.

Lemma infix_trans (s t u : jsstring) :
  infix_of s t -> infix_of t u -> infix_of s u.
Proof.
  intros (b1 & a1 & ->) (b2 & a2 & ->).
  exists (b2 ++ b1), (a1 ++ a2). now rewrite <- !app_assoc.
Qed.

Lemma trimStart_suffix (s : jsstring) : exists p, s = p ++ trimStart s.
Proof.
  induction s as [|c s (p & IH)]; simpl; [now exists []|].
  destruct (is_whitespace c); [|now exists []].
  exists (c :: p). simpl. now rewrite <- IH.
Qed.

Lemma trim_infix (s : jsstring) : infix_of (trim s) s.
Proof.
  unfold trim, trimEnd.
  destruct (trimStart_suffix s) as [p Hp].
  destruct (trimStart_suffix (rev (trimStart s))) as [q Hq].
  exists p, (rev q).
  rewrite <- rev_app_distr, <- Hq, rev_involutive. exact Hp.
Qed.

Lemma slice_from_infix (n : nat) (s : jsstring) : infix_of (slice_from n s) s.
Proof.
  exists (firstn n s), []. unfold slice_from.
  now rewrite app_nil_r, firstn_skipn.
Qed.

Lemma slice_drop_last_infix (n : nat) (s : jsstring) :
  infix_of (slice_drop_last n s) s.
Proof.
  exists [], (skipn (List.length s - n) s). unfold slice_drop_last.
  simpl. now rewrite firstn_skipn.
Qed.

(** X15. The cleaning of [parseJSONResponse] only cuts: the text handed to
    [JSON.parse] is a contiguous part of the model's text, no character of
    it is changed, added or reordered. *)
Theorem cleanContent_is_part_of_content (content : jsstring) :
  infix_of (cleanContent content) content.
Proof.
  unfold cleanContent. cbv zeta.
  set (c1 := if startsWith (trim content) fence_json then _ else _).
  assert (H1 : infix_of c1 (trim content)).
  { subst c1. destruct (startsWith (trim content) fence_json);
      [apply slice_from_infix|].
    destruct (startsWith (trim content) fence);
      [apply slice_from_infix | apply infix_refl]. }
  apply infix_trans with (trim content); [|apply trim_infix].
  eapply infix_trans; [apply trim_infix|].
  destruct (endsWith c1 fence); [|exact H1].
  eapply infix_trans; [apply slice_drop_last_infix | exact H1].
Qed.

(** X16. A content that is empty or all white space, which is what
    [callLLM] hands over when the message has no content, is a parse
    failure. *)
Theorem parseJSONResponse_blank_content (content : jsstring) :
  blank content = true ->
  parseJSONResponse (JStr content) = Err parse_failure.
Proof.
  intros Hb. unfold parseJSONResponse, cleanContent. cbv zeta.
  assert (Ht : trim content = []).
  { pose proof (ValidatorFacts.trim_blank content) as H. rewrite Hb in H.
    unfold is_empty in H. now destruct (trim content). }
  rewrite Ht. reflexivity.
Qed.

Lemma parseJSONResponse_blank_content_witness :
  parseJSONResponse (JStr (lit "  " ++ newline)) = Err parse_failure.
Proof.
  apply (parseJSONResponse_blank_content (lit "  " ++ newline)).
  reflexivity.
Defined.

End ParserMore.

(* ================================================================== *)
(** ** More on the LLM interface and the tool executors *)

Module ExecutorMore.
Import Agent Scenario Vocabulary Behaviour RetryFacts ResponseFacts.

Lemma bind_Ok {S A B} (c : M S A) (k : A -> M S B) (s s' : S) (b : B) :
  bind c k s = (Ok b, s') ->
  exists a s1, c s = (Ok a, s1) /\ k a s1 = (Ok b, s').
Proof.
  unfold bind. destruct (c s) as [[a|e] s1]; [eauto | discriminate].
Qed.

Lemma lift_result_Ok {S A} (r : result A) (s s' : S) (a : A) :
  lift_result r s = (Ok a, s') -> r = Ok a /\ s' = s.
Proof. unfold lift_result. now intros [= -> ->]. Qed.

Section Executors.
Variable decodeToolCalls : jsval -> option js_error.
Local Abbreviation d := decodeToolCalls.

(** X17. [callLLM] fails on every answer whose status is not 2xx, with the
    status and the body in the message, and never looks at such a body;
    when it succeeds the answer was a 2xx and the content it returns is a
    truthy value or the empty string. *)
Theorem callLLM_status_and_content (request : llm_request) (w : env) :
  (forall status text,
      gateway w (calls w) request = FetchResponse status text ->
      response_ok status = false ->
      callLLM d request w
      = (Err (Error (lit "LLM API error " ++ dec status ++ lit ": " ++ text)),
         fetched request w))
  /\ (forall content w1,
        callLLM d request w = (Ok content, w1) ->
        (content = JStr [] \/ truthy content = true)
        /\ w1 = fetched request w
        /\ exists status text,
             gateway w (calls w) request = FetchResponse status text
             /\ response_ok status = true).
Proof.
  unfold callLLM, fetched, fetch. split.
  - intros status text -> ->. reflexivity.
  - intros content w1.
    destruct (gateway w (calls w) request) as [m|st t]; [discriminate|].
    destruct (response_ok st) eqn:Eok; cbn [negb]; [|discriminate].
    destruct (JSON_parse t) as [data|]; [|discriminate].
    assert (Hgen :
      (if negb (truthy (first_message data))
       then (Err (Error (lit "No message in LLM response")), snd (fetch request w))
       else
         match d (get (first_message data) "tool_calls") with
         | Some e => (Err e, snd (fetch request w))
         | None =>
             (Ok (if truthy (get (first_message data) "content")
                  then get (first_message data) "content" else JStr []),
              snd (fetch request w))
         end) = (Ok content, w1) ->
      (content = JStr [] \/ truthy content = true)
      /\ w1 = snd (fetch request w)
      /\ exists status text,
           FetchResponse st t = FetchResponse status text
           /\ response_ok status = true).
    { destruct (negb (truthy (first_message data))); [discriminate|].
      destruct (d _); [discriminate|].
      intros [= <- <-]. split; [|split; [reflexivity | eauto]].
      destruct (truthy (get (first_message data) "content")) eqn:E;
        [now right | now left]. }
    destruct data; try exact Hgen. discriminate.
Qed.

Lemma executeAnalyzeComplexity_Ok goal priority w a w1 :
  executeAnalyzeComplexity d goal priority w = (Ok a, w1) ->
  GoalAnalysis_ok a.
Proof.
  unfold executeAnalyzeComplexity. intros H.
  apply bind_Ok in H as (? & ? & _ & H).
  apply bind_Ok in H as (content & ? & _ & H).
  apply bind_Ok in H as (parsed & ? & _ & H).
  apply lift_result_Ok in H as [H _].
  now apply validateGoalAnalysis_ok with parsed.
Qed.

Lemma executeGenerateSteps_Ok goal complexity timeAvailable w steps total w1 :
  executeGenerateSteps d goal complexity timeAvailable w
  = (Ok (steps, total), w1) ->
  Forall ActionStep_ok steps.
Proof.
  unfold executeGenerateSteps. intros H.
  apply bind_Ok in H as (? & ? & _ & H).
  apply bind_Ok in H as (content & ? & _ & H).
  apply bind_Ok in H as (parsed & ? & _ & H).
  destruct (negb (truthy parsed) || negb (isArray (get parsed "steps")));
    [discriminate|].
  destruct (get parsed "steps") as [| | | | |l|]; try discriminate.
  apply bind_Ok in H as (validated & ? & Hv & H).
  apply lift_result_Ok in Hv as [Hv _]. injection H as <- _ _.
  now apply (map_indexed_Forall _ ActionStep_ok l validateActionStep_ok _ Hv).
Qed.

Lemma executeIdentifyRisks_Ok goal steps w risks w1 :
  executeIdentifyRisks d goal steps w = (Ok risks, w1) ->
  Forall Risk_ok risks.
Proof.
  unfold executeIdentifyRisks. intros H.
  apply bind_Ok in H as (? & ? & _ & H).
  apply bind_Ok in H as (content & ? & _ & H).
  apply bind_Ok in H as (parsed & ? & _ & H).
  destruct (negb (truthy parsed) || negb (isArray (get parsed "risks")));
    [discriminate|].
  destruct (get parsed "risks") as [| | | | |l|]; try discriminate.
  apply lift_result_Ok in H as [Hv _].
  now apply (map_indexed_Forall _ Risk_ok l validateRisk_ok _ Hv).
Qed.

Lemma executeDetermineNextAction_Ok steps priority w a w1 :
  executeDetermineNextAction d steps priority w = (Ok a, w1) ->
  NextAction_ok a.
Proof.
  unfold executeDetermineNextAction. intros H.
  apply bind_Ok in H as (? & ? & _ & H).
  apply bind_Ok in H as (content & ? & _ & H).
  apply bind_Ok in H as (parsed & ? & _ & H).
  apply lift_result_Ok in H as [H _].
  now apply validateNextAction_ok with parsed.
Qed.

(** What the retry returns, the executor returned. *)
Lemma three_attempts_Ok {T} (fn : M env T) (w w' : env) (v : T) :
  three_attempts fn w = (Ok v, w') -> exists w0, fn w0 = (Ok v, w').
Proof.
  unfold three_attempts.
  destruct (fn w) as [[v0|e0] w1] eqn:E0; [intros [= <- <-]; eauto|].
  destruct (fn (sleep (1000 * 2 ^ 0) w1)) as [[v1|e1] w2] eqn:E1;
    [intros [= <- <-]; eauto|].
  eauto.
Qed.

(** X18. The analysis, every step, every risk and the next action that a
    tool executor returns have passed their validator, and so meet the
    conditions that validator checks. The total time and the number of
    steps are not covered: the executor of step two checks neither. *)
Theorem executors_return_validated_fragments :
  (forall goal priority w a w1,
      executeAnalyzeComplexity d goal priority w = (Ok a, w1) ->
      GoalAnalysis_ok a)
  /\ (forall goal complexity timeAvailable w steps total w1,
        executeGenerateSteps d goal complexity timeAvailable w
        = (Ok (steps, total), w1) ->
        Forall ActionStep_ok steps)
  /\ (forall goal steps w risks w1,
        executeIdentifyRisks d goal steps w = (Ok risks, w1) ->
        Forall Risk_ok risks)
  /\ (forall steps priority w a w1,
        executeDetermineNextAction d steps priority w = (Ok a, w1) ->
        NextAction_ok a).
Proof.
  split; [|split; [|split]].
  - apply executeAnalyzeComplexity_Ok.
  - apply executeGenerateSteps_Ok.
  - apply executeIdentifyRisks_Ok.
  - apply executeDetermineNextAction_Ok.
Qed.

End Executors.

Lemma callLLM_status_and_content_witness :
  callLLM no_tool_calls (AnalyzePrompt (lit "Learn") low)
    (fresh (fun _ _ => FetchResponse 402 (lit "payment required")))
  = (Err (Error (lit "LLM API error 402: payment required")),
     {| gateway := fun _ _ => FetchResponse 402 (lit "payment required");
        calls := 1; events := [EvFetch] |})
  /\ let g : nat -> llm_request -> fetch_outcome :=
       fun _ _ => FetchResponse 200
                    (json_lit "{'choices':[{'message':{'content':null}}]}") in
     callLLM no_tool_calls (AnalyzePrompt (lit "Learn") low) (fresh g)
     = (Ok (JStr []), {| gateway := g; calls := 1; events := [EvFetch] |}).
Proof.
  split.
  - apply (proj1 (callLLM_status_and_content no_tool_calls
                    (AnalyzePrompt (lit "Learn") low)
                    (fresh (fun _ _ =>
                              FetchResponse 402 (lit "payment required"))))
             402 (lit "payment required")); reflexivity.
  - intros g.
    assert (H : callLLM no_tool_calls (AnalyzePrompt (lit "Learn") low)
                  (fresh g)
                = (Ok (JStr []),
                   {| gateway := g; calls := 1; events := [EvFetch] |}))
      by (vm_compute; reflexivity).
    pose proof (proj2 (callLLM_status_and_content no_tool_calls
                         (AnalyzePrompt (lit "Learn") low) (fresh g))
                  _ _ H) as _.
    exact H.
Defined.

Lemma executors_return_validated_fragments_witness :
  executeIdentifyRisks no_tool_calls (lit "Learn guitar basics") []
    (fresh good_gateway)
  = (Ok (risks (guitar_plan [])),
     {| gateway := good_gateway; calls := 1;
        events := [EvTool identify_risks; EvFetch] |})
  /\ Forall Risk_ok (risks (guitar_plan [])).
Proof.
  assert (H : executeIdentifyRisks no_tool_calls (lit "Learn guitar basics")
                [] (fresh good_gateway)
              = (Ok (risks (guitar_plan [])),
                 {| gateway := good_gateway; calls := 1;
                    events := [EvTool identify_risks; EvFetch] |}))
    by (vm_compute; reflexivity).
  split; [exact H|].
  exact (proj1 (proj2 (proj2 (executors_return_validated_fragments
                                no_tool_calls))) _ _ _ _ _ H).
Defined.

End ExecutorMore.

(* ================================================================== *)
(** ** More on the orchestrator *)

Module OrchestratorMore.
Import Agent Scenario Vocabulary Behaviour RetryFacts OrchestratorFacts
       ResponseFacts.

Section Runs.
Variable decodeToolCalls : jsval -> option js_error.
Local Abbreviation d := decodeToolCalls.

(** X19. After four successful steps the final validation can refuse one
    thing only, an empty list of steps: otherwise the run returns the
    assembled fragments unchanged. An empty list is not refused by the
    step that produced it, so the run fails at [validate_output], after
    all four tools have been called. *)
Theorem run_final_validation
        (input : GoalInput) (w w1 w2 w3 w4 : env)
        (analysis : GoalAnalysis) (steps : list ActionStep)
        (totalTime : jsstring) (risks : list Risk) (nextAction : NextAction) :
  three_attempts
    (executeAnalyzeComplexity d (goal input) (priority input)) w
  = (Ok analysis, w1) ->
  three_attempts
    (executeGenerateSteps d (goal input) (complexity analysis)
       (timeAvailable input)) w1
  = (Ok (steps, totalTime), w2) ->
  three_attempts (executeIdentifyRisks d (goal input) steps) w2
  = (Ok risks, w3) ->
  three_attempts (executeDetermineNextAction d steps (priority input)) w3
  = (Ok nextAction, w4) ->
  outcome (run_agent d input w)
  = (match steps with
     | [] => Err (ValidationError (lit "actionSteps")
                    (lit "Must be a non-empty array"))
     | _ :: _ =>
         Ok {| goalAnalysis := analysis; actionSteps := steps;
               totalEstimatedTime := totalTime; risks := risks;
               nextImmediateAction := nextAction |}
     end, Step.validate_output, w4).
Proof.
  intros H1 H2 H3 H4.
  rewrite run_agent_outcome, H1, H2. cbn [fst snd]. rewrite H3, H4.
  apply ExecutorMore.three_attempts_Ok in H1 as [x1 H1].
  apply ExecutorMore.three_attempts_Ok in H2 as [x2 H2].
  apply ExecutorMore.three_attempts_Ok in H3 as [x3 H3].
  apply ExecutorMore.three_attempts_Ok in H4 as [x4 H4].
  apply ExecutorMore.executeAnalyzeComplexity_Ok in H1.
  apply ExecutorMore.executeGenerateSteps_Ok in H2.
  apply ExecutorMore.executeIdentifyRisks_Ok in H3.
  apply ExecutorMore.executeDetermineNextAction_Ok in H4.
  f_equal. f_equal.
  destruct steps as [|s ss].
  - unfold validateFullResponse.
    set (v := AgentResponse_value _).
    change (get v "goalAnalysis") with (GoalAnalysis_value analysis).
    change (get v "actionSteps") with (JArr []).
    change (not_an_object v) with false. cbn [negb].
    now rewrite (ValidatorMore.validateGoalAnalysis_value H1).
  - apply ValidatorMore.validateFullResponse_value.
    repeat split; simpl; try assumption; try discriminate;
      try apply H1; try apply H4.
Qed.

Lemma requests_app (l1 l2 : list event) :
  requests (l1 ++ l2) = (requests l1 + requests l2)%nat.
Proof. unfold requests. now rewrite filter_app, length_app. Qed.

Lemma total_delay_app (l1 l2 : list event) :
  total_delay (l1 ++ l2) = (total_delay l1 + total_delay l2)%Z.
Proof.
  unfold total_delay, delays. rewrite flat_map_app.
  induction (flat_map _ l1) as [|x l IH]; simpl; [reflexivity|].
  rewrite IH. lia.
Qed.

(** The cost of one retried step. *)
Lemma three_attempts_cost (t : Tool) {T} (fn : M env T) (w : env) :
  one_call t fn ->
  exists new,
    events (snd (three_attempts fn w)) = events w ++ new
    /\ (1 <= requests new <= 3)%nat
    /\ (0 <= total_delay new <= 3000)%Z.
Proof.
  intros Hfn. unfold three_attempts.
  destruct (Hfn w) as (_ & _ & He0).
  destruct (fn w) as [[v|e0] w1]; simpl in He0.
  { exists [EvTool t; EvFetch]. split; [exact He0|].
    unfold requests, total_delay, delays; simpl; lia. }
  destruct (Hfn (sleep (1000 * 2 ^ 0) w1)) as (_ & _ & He1).
  destruct (fn (sleep (1000 * 2 ^ 0) w1)) as [[v|e1] w2]; simpl in He1.
  { exists [EvTool t; EvFetch; EvSleep 1000; EvTool t; EvFetch].
    split; [|unfold requests, total_delay, delays; simpl; lia].
    simpl. rewrite He1, He0, <- !app_assoc. reflexivity. }
  destruct (Hfn (sleep (1000 * 2 ^ 1) w2)) as (_ & _ & He2).
  exists [EvTool t; EvFetch; EvSleep 1000; EvTool t; EvFetch;
          EvSleep 2000; EvTool t; EvFetch].
  split; [|unfold requests, total_delay, delays; simpl; lia].
  rewrite He2. simpl. rewrite He1, He0, <- !app_assoc. reflexivity.
Qed.

(** X20. A run sends at least one and at most twelve requests to the
    gateway and waits at most 12000 ms in backoff delays in all; a run
    that returns a response has sent at least four requests. *)
Theorem run_cost_bounded (input : GoalInput) (w : env) :
  exists new,
    events (world_of (snd (run_agent d input w))) = events w ++ new
    /\ (1 <= requests new <= 12)%nat
    /\ (0 <= total_delay new <= 12000)%Z
    /\ (forall r, fst (run_agent d input w) = Ok r ->
                  (4 <= requests new)%nat).
Proof.
  pose proof (run_agent_outcome d input w) as Hrun. unfold outcome in Hrun.
  destruct (three_attempts_cost w
              (executeAnalyzeComplexity_one_call d (goal input)
                 (priority input))) as (n1 & E1 & R1 & D1).
  destruct (three_attempts _ w) as [[analysis|e] w1]; cbn [fst snd] in *.
  2:{ injection Hrun as Hr _ Hw. rewrite Hw, Hr. exists n1.
      repeat split; try lia; try assumption; try discriminate. }
  destruct (three_attempts_cost w1
              (executeGenerateSteps_one_call d (goal input)
                 (complexity analysis) (timeAvailable input)))
    as (n2 & E2 & R2 & D2).
  destruct (three_attempts _ w1) as [[generated|e] w2]; cbn [fst snd] in *.
  2:{ injection Hrun as Hr _ Hw. rewrite Hw, Hr. exists (n1 ++ n2).
      rewrite E2, E1, <- app_assoc, requests_app, total_delay_app.
      repeat split; try lia; try discriminate. }
  destruct (three_attempts_cost w2
              (executeIdentifyRisks_one_call d (goal input) (fst generated)))
    as (n3 & E3 & R3 & D3).
  destruct (three_attempts _ w2) as [[risks|e] w3]; cbn [fst snd] in *.
  2:{ injection Hrun as Hr _ Hw. rewrite Hw, Hr. exists (n1 ++ n2 ++ n3).
      rewrite E3, E2, E1, <- !app_assoc, !requests_app, !total_delay_app.
      repeat split; try lia; try discriminate. }
  destruct (three_attempts_cost w3
              (executeDetermineNextAction_one_call d (fst generated)
                 (priority input)))
    as (n4 & E4 & R4 & D4).
  destruct (three_attempts _ w3) as [[nextAction|e] w4]; cbn [fst snd] in *.
  2:{ injection Hrun as Hr _ Hw. rewrite Hw, Hr.
      exists (n1 ++ n2 ++ n3 ++ n4).
      rewrite E4, E3, E2, E1, <- !app_assoc, !requests_app, !total_delay_app.
      repeat split; try lia; try discriminate. }
  injection Hrun as Hr _ Hw. rewrite Hw.
  exists (n1 ++ n2 ++ n3 ++ n4).
  rewrite E4, E3, E2, E1, <- !app_assoc, !requests_app, !total_delay_app.
  repeat split; try lia.
Qed.

Lemma run_agent_ledger (input : GoalInput) (w : env) :
  ledger (snd (run_agent d input w))
  = (firstn (completed (currentStep (state (snd (run_agent d input w)))))
       all_tools,
     0, 3, [], input).
Proof.
  unfold ledger, run_agent, run.
  OrchestratorFacts.run_step.
  destruct (three_attempts _ w) as [[analysis|e] w1];
    cbn [fst snd]; [|reflexivity].
  OrchestratorFacts.run_step.
  destruct (three_attempts _ w1) as [[generated|e] w2];
    cbn [fst snd]; [|reflexivity].
  OrchestratorFacts.run_step.
  destruct (three_attempts _ w2) as [[risks|e] w3];
    cbn [fst snd]; [|reflexivity].
  OrchestratorFacts.run_step.
  destruct (three_attempts _ w3) as [[nextAction|e] w4];
    cbn [fst snd]; [|reflexivity].
  reflexivity.
Qed.

(** X21. The state of a run records one tool result per completed step,
    in the order of the steps, and nothing else moves: the retry counter
    stays 0 (the retry loop counts in a local variable), the limit stays
    3, no tool call is recorded and the input is the one the agent was
    created with. *)
Theorem run_state_bookkeeping (input : GoalInput) (w : env) :
  let st := state (snd (run_agent d input w)) in
  recorded st = firstn (completed (currentStep st)) all_tools
  /\ retryCount st = 0
  /\ maxRetries st = 3
  /\ toolCalls st = []
  /\ Agent.input st = input
  /\ (forall r, fst (run_agent d input w) = Ok r -> recorded st = all_tools).
Proof.
  intros st. pose proof (run_agent_ledger input w) as H.
  unfold ledger in H. fold st in H. injection H as H1 H2 H3 H4 H5.
  repeat split; try assumption.
  intros r Hr. rewrite H1.
  pose proof (run_agent_outcome d input w) as Hrun. unfold outcome in Hrun.
  rewrite Hr in Hrun. subst st.
  destruct (three_attempts _ w) as [[a0|e] w1']; [|discriminate].
  destruct (three_attempts _ w1') as [[g0|e] w2']; [|discriminate].
  destruct (three_attempts _ w2') as [[r0|e] w3']; [|discriminate].
  destruct (three_attempts _ w3') as [[n0|e] w4']; [|discriminate].
  injection Hrun as _ Hs _. now rewrite Hs.
Qed.

End Runs.

Lemma run_final_validation_witness :
  outcome (run_agent no_tool_calls guitar_input (fresh good_gateway))
  = (Ok (guitar_plan (lit "2 weeks")), Step.validate_output,
     {| gateway := good_gateway; calls := 4;
        events := [EvTool analyze_goal_complexity; EvFetch;
                   EvTool generate_action_steps; EvFetch;
                   EvTool identify_risks; EvFetch;
                   EvTool determine_next_action; EvFetch] |}).
Proof.
  apply (@run_final_validation no_tool_calls guitar_input
           (fresh good_gateway)
           {| gateway := good_gateway; calls := 1;
              events := [EvTool analyze_goal_complexity; EvFetch] |}
           {| gateway := good_gateway; calls := 2;
              events := [EvTool analyze_goal_complexity; EvFetch;
                         EvTool generate_action_steps; EvFetch] |}
           {| gateway := good_gateway; calls := 3;
              events := [EvTool analyze_goal_complexity; EvFetch;
                         EvTool generate_action_steps; EvFetch;
                         EvTool identify_risks; EvFetch] |}
           {| gateway := good_gateway; calls := 4;
              events := [EvTool analyze_goal_complexity; EvFetch;
                         EvTool generate_action_steps; EvFetch;
                         EvTool identify_risks; EvFetch;
                         EvTool determine_next_action; EvFetch] |}
           (goalAnalysis (guitar_plan []))
           (actionSteps (guitar_plan []))
           (lit "2 weeks")
           (risks (guitar_plan []))
           (nextImmediateAction (guitar_plan [])));
    vm_compute; reflexivity.
Defined.

End OrchestratorMore.

(* ================================================================== *)
(** ** The gateway client on transient failures *)

Module BackoffFacts.
Import AnalyzeGoal Scenario Vocabulary Behaviour.

Section Transient.
Context {Req : Type}.
Variable request : Req.
Variable maxRetries : nat.
Variable baseDelay : Z.

Local Abbreviation loop := (loop request maxRetries baseDelay).

(** One iteration on a transient failure: the request, the delay of its
    kind, and the loop goes on with the next attempt; only a network
    failure sets [lastError]. *)
Lemma loop_transient_step (t : transient) (remaining attempt : nat)
      (lastError : option js_error) (w : world Req) :
  server_status t ->
  gateway w (calls w) request = answer t ->
  loop (S remaining) attempt lastError w
  = loop remaining (S attempt) (last_failure lastError [t])
      {| gateway := gateway w; calls := S (calls w);
         events := events w ++ retried baseDelay maxRetries attempt [t] |}.
Proof.
  intros Hst Hg. rewrite GatewayFacts.loop_S.
  destruct t as [text|st text|message]; cbn [answer] in Hg.
  - rewrite (GatewayMore.try_block_status request baseDelay attempt w Hg).
    cbn [response_ok Nat.leb Nat.eqb andb last_failure fold_left
         retried backoff app].
    unfold sleep, record, fetched, fetch, pow2. cbn [snd gateway calls events].
    now rewrite <- app_assoc.
  - rewrite (GatewayMore.try_block_status request baseDelay attempt w Hg).
    cbn [server_status] in Hst.
    replace (response_ok st) with false
      by (unfold response_ok; symmetry; apply andb_false_iff; right;
          apply Nat.leb_gt; lia).
    replace (st =? 429)%nat with false
      by (symmetry; apply Nat.eqb_neq; lia).
    replace ((400 <=? st)%nat && (st <? 500)%nat) with false
      by (symmetry; apply andb_false_iff; right; apply Nat.ltb_ge; lia).
    replace (500 <=? st)%nat with true
      by (symmetry; apply Nat.leb_le; lia).
    cbn [last_failure fold_left retried backoff app].
    unfold sleep, record, fetched, fetch, pow2. cbn [snd gateway calls events].
    now rewrite <- app_assoc.
  - unfold try_block, fetch. rewrite Hg.
    cbn [last_failure fold_left retried backoff app].
    unfold catch_block, sleep, record, pow2.
    destruct (attempt <? maxRetries - 1)%nat;
      cbn [gateway calls events app]; [now rewrite <- app_assoc|].
    reflexivity.
Qed.

Lemma last_failure_cons (before : option js_error) (t : transient)
      (ts : list transient) :
  last_failure before (t :: ts) = last_failure (last_failure before [t]) ts.
Proof. reflexivity. Qed.

(** The iterations that end in the failures [ts], one after the other. *)
Lemma loop_transients (ts : list transient) :
  forall (remaining attempt : nat) (lastError : option js_error)
         (w : world Req),
    Forall server_status ts ->
    (forall k t, nth_error ts k = Some t ->
                 gateway w (calls w + k) request = answer t) ->
    loop (List.length ts + remaining) attempt lastError w
    = loop remaining (attempt + List.length ts) (last_failure lastError ts)
        {| gateway := gateway w; calls := calls w + List.length ts;
           events := events w ++ retried baseDelay maxRetries attempt ts |}.
Proof.
  induction ts as [|t ts IH]; intros remaining attempt lastError w Hst Hg.
  - cbn [List.length retried last_failure fold_left Nat.add].
    rewrite !Nat.add_0_r, app_nil_r. now rewrite <- GatewayMore.world_eta.
  - cbn [List.length Nat.add].
    rewrite (@loop_transient_step t (List.length ts + remaining) attempt
               lastError w).
    + rewrite IH.
      * cbn [gateway calls events]. rewrite last_failure_cons.
        replace (S attempt + List.length ts)%nat
          with (attempt + S (List.length ts))%nat by lia.
        replace (S (calls w) + List.length ts)%nat
          with (calls w + S (List.length ts))%nat by lia.
        do 2 f_equal. cbn [retried]. rewrite <- !app_assoc.
        cbn [app]. now rewrite app_nil_r.
      * now inversion Hst.
      * intros k t' Hk. cbn [gateway calls].
        replace (S (calls w) + k)%nat with (calls w + S k)%nat by lia.
        now apply Hg.
    + now inversion Hst.
    + rewrite <- (Nat.add_0_r (calls w)). now apply Hg.
Qed.

(** After [ts] the next answer is a 2xx: it is returned at once. *)
Lemma fetchWithRetry_after_transients (ts : list transient)
      (w : world Req) (st : nat) (t : jsstring) :
  (List.length ts < maxRetries)%nat ->
  Forall server_status ts ->
  (forall k t, nth_error ts k = Some t ->
               gateway w (calls w + k) request = answer t) ->
  gateway w (calls w + List.length ts) request = FetchResponse st t ->
  response_ok st = true ->
  fetchWithRetry request maxRetries baseDelay w
  = (Ok {| status := st; text := t |},
     {| gateway := gateway w; calls := calls w + List.length ts + 1;
        events := events w ++ retried baseDelay maxRetries 0 ts
                    ++ [EvFetch] |}).
Proof.
  intros Hlen Hst Hg Hnext Hok. unfold fetchWithRetry.
  assert (Hex : exists r, maxRetries = (List.length ts + S r)%nat)
    by (exists (maxRetries - List.length ts - 1)%nat; lia).
  destruct Hex as [r Hr].
  replace (AnalyzeGoal.loop request maxRetries baseDelay maxRetries 0 None w)
    with (loop (List.length ts + S r) 0 None w) by (now rewrite <- Hr).
  rewrite (@loop_transients ts (S r) 0 None w Hst Hg).
  rewrite GatewayFacts.loop_S.
  rewrite (GatewayMore.try_block_status request baseDelay _ _ (st := st)
             (t := t)) by exact Hnext.
  rewrite Hok. unfold fetched, fetch. cbn [snd gateway calls events].
  do 2 f_equal; [lia | now rewrite <- app_assoc].
Qed.

(** The failures [ts] use up the limit. *)
Lemma fetchWithRetry_exhausted (ts : list transient) (w : world Req) :
  List.length ts = maxRetries ->
  Forall server_status ts ->
  (forall k t, nth_error ts k = Some t ->
               gateway w (calls w + k) request = answer t) ->
  fetchWithRetry request maxRetries baseDelay w
  = (Err (match last_failure None ts with
          | Some e => e
          | None => Error (lit "Max retries exceeded")
          end),
     {| gateway := gateway w; calls := calls w + maxRetries;
        events := events w ++ retried baseDelay maxRetries 0 ts |}).
Proof.
  intros Hlen Hst Hg. unfold fetchWithRetry.
  replace (AnalyzeGoal.loop request maxRetries baseDelay maxRetries 0 None w)
    with (loop (List.length ts + 0) 0 None w)
    by (now rewrite Nat.add_0_r, Hlen).
  rewrite (@loop_transients ts 0 0 None w Hst Hg).
  cbn [AnalyzeGoal.loop]. now rewrite Hlen.
Qed.

End Transient.

(** The answers of a scripted gateway, position by position. *)
Ltac scripted_answers k Hk :=
  repeat (destruct k as [|k]; [injection Hk as <-; reflexivity|]);
  destruct k; discriminate Hk.

Lemma backoff_doubles (base : Z) (limit attempt : nat) (t : transient)
      (d d' : Z) :
  backoff base limit attempt t = Some d ->
  backoff base limit (S attempt) t = Some d' ->
  d' = (2 * d)%Z.
Proof.
  assert (Hp : (2 ^ Z.of_nat (S attempt) = 2 * 2 ^ Z.of_nat attempt)%Z)
    by (rewrite Nat2Z.inj_succ; apply Z.pow_succ_r; lia).
  destruct t; cbn [backoff].
  - intros H1 H2. rewrite Hp in H2.
    assert (E1 : d = (base * 2 ^ Z.of_nat attempt * 2)%Z) by congruence.
    assert (E2 : d' = (base * (2 * 2 ^ Z.of_nat attempt) * 2)%Z)
      by congruence.
    rewrite E1, E2. ring.
  - intros H1 H2. rewrite Hp in H2.
    assert (E1 : d = (base * 2 ^ Z.of_nat attempt)%Z) by congruence.
    assert (E2 : d' = (base * (2 * 2 ^ Z.of_nat attempt))%Z) by congruence.
    rewrite E1, E2. ring.
  - destruct (attempt <? limit - 1)%nat; [|discriminate].
    destruct (S attempt <? limit - 1)%nat; [|discriminate].
    intros H1 H2. rewrite Hp in H2.
    assert (E1 : d = (base * 2 ^ Z.of_nat attempt)%Z) by congruence.
    assert (E2 : d' = (base * (2 * 2 ^ Z.of_nat attempt))%Z) by congruence.
    rewrite E1, E2. ring.
Qed.

(** C8. The client retries transient failures with exponential backoff up
    to the retry limit, for every limit, base delay, request and gateway.
    After any run of rate limits (429), server errors (a status of 500 or
    more) and network failures that is shorter than the limit, a 2xx
    answer is returned at once: one request per failure, each followed by
    the delay of its kind, [base * 2^attempt * 2] after a 429 and
    [base * 2^attempt] after the two others, then the request that
    succeeds. A run as long as the limit ends the call without a further
    request: it fails with the last network failure, or with "Max retries
    exceeded" when there was none; a 429 or a server error is waited on
    even then, a network failure is not. From one attempt to the next the
    delay of a kind doubles, and no gateway is ever sent more requests
    than the limit. On the answers 429, 429, 200 the client succeeds with
    the third answer after exactly two retries, having waited
    [base * 2^0 * 2] and then [base * 2^1 * 2]; on 500, 500, 500, 500
    with a limit of 3 it fails after exactly three requests, the fourth
    answer never being asked for. *)
Theorem fetchWithRetry_transient_backoff :
  (forall Req (request : Req) maxRetries baseDelay (w : world Req)
          (ts : list transient) st t,
      (List.length ts < maxRetries)%nat ->
      Forall server_status ts ->
      (forall k f, nth_error ts k = Some f ->
                   gateway w (calls w + k) request = answer f) ->
      gateway w (calls w + List.length ts) request = FetchResponse st t ->
      response_ok st = true ->
      fetchWithRetry request maxRetries baseDelay w
      = (Ok {| status := st; text := t |},
         {| gateway := gateway w; calls := calls w + List.length ts + 1;
            events := events w ++ retried baseDelay maxRetries 0 ts
                        ++ [EvFetch] |}))
  /\ (forall Req (request : Req) maxRetries baseDelay (w : world Req)
             (ts : list transient),
        List.length ts = maxRetries ->
        Forall server_status ts ->
        (forall k f, nth_error ts k = Some f ->
                     gateway w (calls w + k) request = answer f) ->
        fetchWithRetry request maxRetries baseDelay w
        = (Err (match last_failure None ts with
                | Some e => e
                | None => Error (lit "Max retries exceeded")
                end),
           {| gateway := gateway w; calls := calls w + maxRetries;
              events := events w ++ retried baseDelay maxRetries 0 ts |}))
  /\ (forall base limit attempt f d d',
        backoff base limit attempt f = Some d ->
        backoff base limit (S attempt) f = Some d' ->
        d' = (2 * d)%Z)
  /\ (forall Req (request : Req) maxRetries baseDelay (w : world Req),
        (calls (snd (fetchWithRetry request maxRetries baseDelay w))
         <= calls w + maxRetries)%nat)
  /\ (forall baseDelay t1 t2 t3 rest after,
        let g := scripted ([FetchResponse 429 t1; FetchResponse 429 t2;
                            FetchResponse 200 t3] ++ rest) after in
        fetchWithRetry tt 3 baseDelay (fresh g)
        = (Ok {| status := 200; text := t3 |},
           {| gateway := g; calls := 3;
              events := [EvFetch; EvSleep (baseDelay * 2 ^ 0 * 2);
                         EvFetch; EvSleep (baseDelay * 2 ^ 1 * 2);
                         EvFetch] |}))
  /\ (forall baseDelay t1 t2 t3 t4 rest after,
        let g := scripted ([FetchResponse 500 t1; FetchResponse 500 t2;
                            FetchResponse 500 t3; FetchResponse 500 t4]
                             ++ rest) after in
        fetchWithRetry tt 3 baseDelay (fresh g)
        = (Err (Error (lit "Max retries exceeded")),
           {| gateway := g; calls := 3;
              events := [EvFetch; EvSleep (baseDelay * 2 ^ 0);
                         EvFetch; EvSleep (baseDelay * 2 ^ 1);
                         EvFetch; EvSleep (baseDelay * 2 ^ 2)] |})).
Proof.
  split; [|split; [|split; [|split; [|split]]]].
  - intros Req request maxRetries baseDelay w ts st t.
    apply fetchWithRetry_after_transients.
  - intros Req request maxRetries baseDelay w ts.
    apply fetchWithRetry_exhausted.
  - exact backoff_doubles.
  - intros Req request maxRetries baseDelay w.
    apply GatewayFacts.loop_calls_bound.
  - intros baseDelay t1 t2 t3 rest after g.
    apply (@fetchWithRetry_after_transients unit tt 3 baseDelay
             [RateLimited t1; RateLimited t2] (fresh g) 200 t3).
    + simpl. lia.
    + repeat constructor.
    + intros k f Hk; scripted_answers k Hk.
    + reflexivity.
    + reflexivity.
  - intros baseDelay t1 t2 t3 t4 rest after g.
    apply (@fetchWithRetry_exhausted unit tt 3 baseDelay
             [ServerError 500 t1; ServerError 500 t2; ServerError 500 t3]
             (fresh g)).
    + reflexivity.
    + repeat constructor.
    + intros k f Hk; scripted_answers k Hk.
Qed.

Lemma fetchWithRetry_transient_backoff_witness :
  let g := scripted [FetchResponse 429 (lit "slow down");
                     FetchFailed (lit "connection reset");
                     FetchResponse 503 (lit "unavailable");
                     FetchResponse 201 (lit "done")]
             (FetchResponse 200 []) in
  fetchWithRetry tt 5 250 (fresh g)
  = (Ok {| status := 201; text := lit "done" |},
     {| gateway := g; calls := 4;
        events := [EvFetch; EvSleep 500; EvFetch; EvSleep 500;
                   EvFetch; EvSleep 1000; EvFetch] |}).
Proof.
  intros g.
  apply (proj1 fetchWithRetry_transient_backoff unit tt 5%nat 250%Z
           (fresh g)
           [RateLimited (lit "slow down");
            NetworkFailure (lit "connection reset");
            ServerError 503 (lit "unavailable")]
           201%nat (lit "done")).
  - simpl. lia.
  - repeat constructor.
  - intros k f Hk; scripted_answers k Hk.
  - reflexivity.
  - reflexivity.
Defined.

End BackoffFacts.

(* ================================================================== *)
(** ** What a run returns *)

Module InvariantFacts.
Import Agent Scenario Vocabulary Behaviour RetryFacts OrchestratorFacts
       ResponseFacts.

(** The schema of the data model asks for more than the validators
    check. *)
Lemma AgentResponse_schema_ok (r : AgentResponse) :
  AgentResponse_schema r -> AgentResponse_ok r.
Proof.
  intros (Hg & Hne & Hs & Hr & Hn). repeat split; try assumption.
  - apply Hg.
  - apply Hg.
  - eapply Forall_impl; [|exact Hs].
    intros s (_ & Hn1 & Ht & Hd & _). now repeat split.
  - apply Hn.
  - apply Hn.
  - apply Hn.
Qed.

Section Runs.
Variable decodeToolCalls : jsval -> option js_error.
Local Abbreviation d := decodeToolCalls.

(** A run that returns a response returns the results of its four steps,
    as the steps returned them. *)
Lemma run_agent_assembled (input : GoalInput) (w : env) (r : AgentResponse) :
  fst (run_agent d input w) = Ok r ->
  exists w1 w2 w3 w4,
    three_attempts
      (executeAnalyzeComplexity d (goal input) (priority input)) w
    = (Ok (goalAnalysis r), w1)
    /\ three_attempts
         (executeGenerateSteps d (goal input) (complexity (goalAnalysis r))
            (timeAvailable input)) w1
       = (Ok (actionSteps r, totalEstimatedTime r), w2)
    /\ three_attempts (executeIdentifyRisks d (goal input) (actionSteps r)) w2
       = (Ok (risks r), w3)
    /\ three_attempts
         (executeDetermineNextAction d (actionSteps r) (priority input)) w3
       = (Ok (nextImmediateAction r), w4)
    /\ world_of (snd (run_agent d input w)) = w4
    /\ currentStep (state (snd (run_agent d input w))) = Step.validate_output.
Proof.
  intros H. pose proof (run_agent_outcome d input w) as Hrun.
  unfold outcome in Hrun. rewrite H in Hrun.
  destruct (three_attempts _ w) as [[analysis|e] w1] eqn:E1;
    [|discriminate].
  destruct (three_attempts _ w1) as [[[steps totalTime]|e] w2] eqn:E2;
    [|discriminate].
  cbn [fst snd] in Hrun.
  destruct (three_attempts _ w2) as [[risks|e] w3] eqn:E3; [|discriminate].
  destruct (three_attempts _ w3) as [[nextAction|e] w4] eqn:E4;
    [|discriminate].
  injection Hrun as Hv Hs Hw.
  assert (Hok : AgentResponse_ok r)
    by (symmetry in Hv; now apply validateFullResponse_rechecks in Hv).
  pose proof E1 as F1. pose proof E2 as F2.
  pose proof E3 as F3. pose proof E4 as F4.
  apply ExecutorMore.three_attempts_Ok in F1 as [x1 F1].
  apply ExecutorMore.three_attempts_Ok in F2 as [x2 F2].
  apply ExecutorMore.three_attempts_Ok in F3 as [x3 F3].
  apply ExecutorMore.three_attempts_Ok in F4 as [x4 F4].
  apply ExecutorMore.executeAnalyzeComplexity_Ok in F1.
  apply ExecutorMore.executeGenerateSteps_Ok in F2.
  apply ExecutorMore.executeIdentifyRisks_Ok in F3.
  apply ExecutorMore.executeDetermineNextAction_Ok in F4.
  set (assembled := {| goalAnalysis := analysis; actionSteps := steps;
                       totalEstimatedTime := totalTime; risks := risks;
                       nextImmediateAction := nextAction |}) in *.
  assert (Hne : steps <> []).
  { intros ->. subst assembled.
    unfold validateFullResponse in Hv.
    set (v := AgentResponse_value _) in Hv.
    change (get v "goalAnalysis") with (GoalAnalysis_value analysis) in Hv.
    change (get v "actionSteps") with (JArr []) in Hv.
    change (not_an_object v) with false in Hv. cbn [negb] in Hv.
    rewrite (ValidatorMore.validateGoalAnalysis_value F1) in Hv.
    discriminate. }
  assert (Ha : validateFullResponse (AgentResponse_value assembled)
               = Ok assembled).
  { apply ValidatorMore.validateFullResponse_value.
    repeat split; try assumption; first [apply F1 | apply F4]. }
  assert (Hr : r = assembled) by congruence.
  subst r. exists w1, w2, w3, w4. subst assembled. cbn [goalAnalysis
    actionSteps totalEstimatedTime Schema.risks nextImmediateAction].
  repeat split; try assumption; now symmetry.
Qed.

End Runs.

(** C3. A run returns an AgentResponse only when each of its four steps
    has succeeded, and the response is the four results put together,
    none missing and none changed: the run ends in the final validation,
    which has accepted that response as it stands, having validated again
    the goal analysis, every action step of a non-empty list, the total
    time, every risk of a possibly empty list and the next action. Each
    nested entity of what is returned therefore meets the conditions its
    validator checks. These are not the schema of the data model for an
    action step (see the counterexample that follows). *)
Theorem run_returns_only_validated
        (decodeToolCalls : jsval -> option js_error)
        (input : GoalInput) (w : env) (r : AgentResponse) :
  fst (run_agent decodeToolCalls input w) = Ok r ->
  (exists w1 w2 w3 w4,
      three_attempts
        (executeAnalyzeComplexity decodeToolCalls (goal input)
           (priority input)) w
      = (Ok (goalAnalysis r), w1)
      /\ three_attempts
           (executeGenerateSteps decodeToolCalls (goal input)
              (complexity (goalAnalysis r)) (timeAvailable input)) w1
         = (Ok (actionSteps r, totalEstimatedTime r), w2)
      /\ three_attempts
           (executeIdentifyRisks decodeToolCalls (goal input)
              (actionSteps r)) w2
         = (Ok (risks r), w3)
      /\ three_attempts
           (executeDetermineNextAction decodeToolCalls (actionSteps r)
              (priority input)) w3
         = (Ok (nextImmediateAction r), w4)
      /\ world_of (snd (run_agent decodeToolCalls input w)) = w4)
  /\ currentStep (state (snd (run_agent decodeToolCalls input w)))
     = Step.validate_output
  /\ validateFullResponse (AgentResponse_value r) = Ok r
  /\ rechecked (AgentResponse_value r) r
  /\ AgentResponse_ok r.
Proof.
  intros H.
  destruct (run_agent_assembled decodeToolCalls input w H)
    as (w1 & w2 & w3 & w4 & H1 & H2 & H3 & H4 & Hw & Hs).
  destruct (run_agent_Ok_valid _ _ _ H) as (assembled & Hv & _ & Hok).
  assert (Hself : validateFullResponse (AgentResponse_value r) = Ok r)
    by now apply ValidatorMore.validateFullResponse_value.
  split; [exists w1, w2, w3, w4; now repeat split|].
  split; [exact Hs|]. split; [exact Hself|].
  split; [|exact Hok].
  now apply validateFullResponse_rechecks in Hself.
Qed.

Lemma run_returns_only_validated_witness :
  fst (run_agent no_tool_calls guitar_input (fresh good_gateway))
  = Ok (guitar_plan (lit "2 weeks"))
  /\ validateFullResponse (AgentResponse_value (guitar_plan (lit "2 weeks")))
     = Ok (guitar_plan (lit "2 weeks"))
  /\ AgentResponse_ok (guitar_plan (lit "2 weeks")).
Proof.
  assert (H : fst (run_agent no_tool_calls guitar_input (fresh good_gateway))
              = Ok (guitar_plan (lit "2 weeks")))
    by (vm_compute; reflexivity).
  split; [exact H|].
  pose proof (@run_returns_only_validated no_tool_calls guitar_input
                (fresh good_gateway) (guitar_plan (lit "2 weeks")) H)
    as (_ & _ & Hv & _ & Hok).
  split; [exact Hv | exact Hok].
Defined.

(** C3 as worded does not hold of the code. The model answers step two
    with a step numbered 1.5 whose dependencies are 42 and null, and with
    no total time; the run returns a response with that step, which the
    data model does not allow, and with the total time "Varies" that step
    two has put in its place. *)
Lemma run_returns_outside_schema :
  fst (run_agent no_tool_calls guitar_input (fresh loose_gateway))
  = Ok loose_plan
  /\ ~ AgentResponse_schema loose_plan
  /\ totalEstimatedTime loose_plan = lit "Varies".
Proof.
  split; [vm_compute; reflexivity|]. split; [|reflexivity].
  intros (_ & _ & Hs & _). inversion Hs as [|s l (Hint & _) _].
  vm_compute in Hint. discriminate.
Qed.

End InvariantFacts.

(* ================================================================== *)
(** ** More on the HTTP handlers and the goal form *)

Module HandlerMore.
Import Agent Scenario Vocabulary Behaviour RetryFacts OrchestratorFacts
       ResponseFacts JsStringFacts.

Section Serve.
Variable decodeToolCalls : jsval -> option js_error.
Local Abbreviation d := decodeToolCalls.

(** A run sends at least one request. *)
Lemma run_agent_calls (input : GoalInput) (w : env) :
  (calls w < calls (world_of (snd (run_agent d input w))))%nat.
Proof.
  pose proof (run_agent_outcome d input w) as Hrun. unfold outcome in Hrun.
  destruct (three_attempts_trace w
              (executeAnalyzeComplexity_one_call d (goal input)
                 (priority input))) as (k1 & K1 & _ & C1 & _).
  destruct (three_attempts _ w) as [[analysis|e] w1]; cbn [fst snd] in *.
  2:{ injection Hrun as _ _ ->. lia. }
  destruct (three_attempts_trace w1
              (executeGenerateSteps_one_call d (goal input)
                 (complexity analysis) (timeAvailable input)))
    as (k2 & K2 & _ & C2 & _).
  destruct (three_attempts _ w1) as [[generated|e] w2]; cbn [fst snd] in *.
  2:{ injection Hrun as _ _ ->. lia. }
  destruct (three_attempts_trace w2
              (executeIdentifyRisks_one_call d (goal input) (fst generated)))
    as (k3 & K3 & _ & C3 & _).
  destruct (three_attempts _ w2) as [[risks|e] w3]; cbn [fst snd] in *.
  2:{ injection Hrun as _ _ ->. lia. }
  destruct (three_attempts_trace w3
              (executeDetermineNextAction_one_call d (fst generated)
                 (priority input)))
    as (k4 & K4 & _ & C4 & _).
  destruct (three_attempts _ w3) as [[nextAction|e] w4]; cbn [fst snd] in *;
    injection Hrun as _ _ ->; lia.
Qed.

(** X22. The handler sends nothing to the gateway for a preflight
    request, a body that is not JSON, an input that does not validate, or
    a missing or empty API key: the world is left as it was. Once the
    input is valid and the key is set, at least one request is sent. *)
Theorem serve_requests_only_when_ready
        (req : Request) (apiKey : option jsstring) (w : env) :
  (method req = lit "OPTIONS"
   \/ JSON_parse (body_text req) = None
   \/ (exists body e,
         JSON_parse (body_text req) = Some body
         /\ validateInput body = Err e)
   \/ apiKey = None \/ apiKey = Some [] ->
   snd (serve d req apiKey w) = w)
  /\ (forall body input c key,
        method req <> lit "OPTIONS" ->
        JSON_parse (body_text req) = Some body ->
        validateInput body = Ok input ->
        apiKey = Some (c :: key) ->
        (calls w < calls (snd (serve d req apiKey w)))%nat).
Proof.
  split.
  - intros H. unfold serve.
    destruct (JsString.eqb (method req) (lit "OPTIONS")) eqn:Em;
      [reflexivity|].
    assert (Hh : snd (handle d req apiKey w) = w).
    { unfold handle. destruct H as [H | [H | [H | H]]].
      - rewrite H, eqb_refl in Em. discriminate.
      - now rewrite H.
      - destruct H as (body & e & -> & He).
        unfold bind, lift_result. now rewrite He.
      - destruct (JSON_parse (body_text req)); [|reflexivity].
        unfold bind, lift_result.
        destruct (validateInput j); [|reflexivity].
        destruct H as [-> | ->]; reflexivity. }
    destruct (handle d req apiKey w) as [[r|e] w1]; exact Hh.
  - intros body input c key Hm Hb Hi ->. unfold serve.
    destruct (JsString.eqb (method req) (lit "OPTIONS")) eqn:Em.
    { apply eqb_eq in Em. contradiction. }
    unfold handle. rewrite Hb. unfold bind, lift_result. rewrite Hi.
    pose proof (run_agent_calls input w) as Hc.
    destruct (run_agent d input w) as [[r|e] a]; exact Hc.
Qed.

(** X23. The handler answers with status 200, 400 or 500 and no other. A
    200 without a body is the answer to a preflight request. Any other
    200 comes from a run that returned a response for the validated
    input: the value handed to [JSON.stringify] is the object of that
    response, as the run returned it, and the response meets the
    conditions the validators check. Conversely every run that returns a
    response is answered 200 with it. *)
Theorem serve_answers
        (req : Request) (apiKey : option jsstring) (w : env) :
  let reply := fst (serve d req apiKey w) in
  (status reply = 200 \/ status reply = 400 \/ status reply = 500)
  /\ (status reply = 200 ->
      match body reply with
      | None => method req = lit "OPTIONS"
      | Some b =>
          method req <> lit "OPTIONS"
          /\ exists data input r,
               JSON_parse (body_text req) = Some data
               /\ validateInput data = Ok input
               /\ fst (run_agent d input w) = Ok r
               /\ b = AgentResponse_value r
               /\ AgentResponse_ok r
      end)
  /\ (forall data input c key r,
        method req <> lit "OPTIONS" ->
        JSON_parse (body_text req) = Some data ->
        validateInput data = Ok input ->
        apiKey = Some (c :: key) ->
        fst (run_agent d input w) = Ok r ->
        reply = {| status := 200; body := Some (AgentResponse_value r) |}).
Proof.
  unfold serve.
  destruct (JsString.eqb (method req) (lit "OPTIONS")) eqn:Em.
  { apply eqb_eq in Em. simpl.
    split; [now left|]. split; [now intros _|].
    intros data input c key r Hm. contradiction. }
  assert (Hm : method req <> lit "OPTIONS").
  { intros Heq. rewrite Heq, eqb_refl in Em. discriminate. }
  destruct (handle d req apiKey w) as [[r|e] w1] eqn:E; simpl.
  - split; [now left|]. unfold handle in E.
    destruct (JSON_parse (body_text req)) as [data|] eqn:Ed; [|discriminate].
    unfold bind, lift_result in E.
    destruct (validateInput data) as [input|] eqn:Ei; [|discriminate].
    destruct apiKey as [[|c key]|]; try discriminate.
    destruct (run_agent d input w) as [res a] eqn:Er.
    injection E as -> _.
    assert (Hr : fst (run_agent d input w) = Ok r) by now rewrite Er.
    destruct (run_agent_Ok_valid d input w Hr) as (_ & _ & _ & Hok).
    split.
    + intros _. split; [exact Hm|].
      exists data, input, r.
      split; [reflexivity|]. split; [exact Ei|]. split; [exact Hr|].
      split; [reflexivity | exact Hok].
    + intros data' input' c' key' r' _ Hd' Hi' _ Hr'.
      assert (data' = data) by congruence. subst data'.
      assert (input' = input) by congruence. subst input'.
      rewrite Hr in Hr'. now injection Hr' as <-.
  - split; [destruct e; simpl; tauto|].
    split; [destruct e; simpl; discriminate|].
    intros data input c key r _ Hd Hi -> Hr. exfalso.
    unfold handle in E. rewrite Hd in E.
    unfold bind, lift_result in E. rewrite Hi in E.
    destruct (run_agent d input w) as [res a].
    simpl in Hr. subst res. discriminate.
Qed.

End Serve.

Lemma serve_requests_only_when_ready_witness :
  (let req := {| method := lit "POST";
                 body_text := json_lit "{'goal':'Learn','priority':'urgent'}" |} in
   snd (serve no_tool_calls req (Some (lit "key")) (fresh good_gateway))
   = fresh good_gateway)
  /\ (0 < calls (snd (serve no_tool_calls guitar_request (Some (lit "key"))
                        (fresh steps_down_gateway))))%nat.
Proof.
  split.
  - intros req.
    apply (proj1 (serve_requests_only_when_ready no_tool_calls req
                    (Some (lit "key")) (fresh good_gateway))).
    right. right. left. eexists. eexists. split; reflexivity.
  - apply (proj2 (serve_requests_only_when_ready no_tool_calls guitar_request
                    (Some (lit "key")) (fresh steps_down_gateway))
             (JObj [(lit "goal", JStr (lit "Learn guitar basics"));
                    (lit "priority", JStr (lit "medium"))])
             guitar_input 107%N (lit "ey")).
    + discriminate.
    + reflexivity.
    + reflexivity.
    + reflexivity.
Defined.

Lemma serve_answers_witness :
  fst (serve no_tool_calls guitar_request (Some (lit "key"))
         (fresh good_gateway))
  = {| status := 200;
       body := Some (AgentResponse_value (guitar_plan (lit "2 weeks"))) |}.
Proof.
  apply (proj2 (proj2 (serve_answers no_tool_calls guitar_request
                         (Some (lit "key")) (fresh good_gateway)))
           (JObj [(lit "goal", JStr (lit "Learn guitar basics"));
                  (lit "priority", JStr (lit "medium"))])
           guitar_input 107%N (lit "ey") (guitar_plan (lit "2 weeks"))).
  - discriminate.
  - reflexivity.
  - reflexivity.
  - reflexivity.
  - vm_compute. reflexivity.
Defined.

(** *** The single-call function *)

Section SingleCall.
Import AnalyzeGoal.

Lemma handle_calls (req : HttpRequest) (apiKey : option jsstring)
      (w : world GoalInput) :
  (calls (snd (AnalyzeGoal.handle req apiKey w)) <= calls w + 3)%nat.
Proof.
  unfold AnalyzeGoal.handle.
  destruct (JSON_parse (http_body req)); [|simpl; lia].
  unfold bind at 1, lift_result at 1.
  destruct (AnalyzeGoal.validateInput j) as [input|]; [|simpl; lia].
  destruct apiKey as [[|c key]|]; try (simpl; lia).
  unfold bind at 1.
  pose proof (GatewayFacts.loop_calls_bound input 3 1000 3 0 None w) as Hb.
  unfold fetchWithRetry.
  destruct (loop input 3 1000 3 0 None w) as [[response|e] w1];
    simpl in Hb |- *; [|exact Hb].
  destruct (JSON_parse (text response)) as [data|]; [|exact Hb].
  assert (Hrest :
    (calls (snd
       ((if negb (truthy (first_content data))
         then throw (Error (lit "No content in AI response"))
         else bind (lift_result (parse_block (first_content data)))
                (fun parsedResponse =>
                   lift_result (validateOutput parsedResponse))) w1))
     <= calls w + 3)%nat).
  { destruct (negb (truthy (first_content data))); [exact Hb|].
    unfold bind, lift_result.
    now destruct (parse_block (first_content data)). }
  destruct data; exact Hrest.
Qed.

(** X24. The single-call function answers every failure, a malformed
    request included, with status 500 and code AGENT_ERROR: it has no 400.
    A 200 without a body is the answer to a preflight request. Any other
    200 carries the model's answer: the request body parsed and passed
    the input check, [fetchWithRetry] returned a response for that input,
    the content of its first choice is not empty, and the body is what
    the clean-up and [JSON.parse] made of that content, which the
    container check has accepted and left as it was. *)
Theorem single_call_serve_answers
        (req : HttpRequest) (apiKey : option jsstring)
        (w : world GoalInput) :
  let reply := fst (AnalyzeGoal.serve req apiKey w) in
  (reply_status reply = 200
   /\ match reply_body reply with
      | None => http_method req = lit "OPTIONS"
      | Some b =>
          exists body input response data,
            JSON_parse (http_body req) = Some body
            /\ AnalyzeGoal.validateInput body = Ok input
            /\ fst (fetchWithRetry input 3 1000 w) = Ok response
            /\ JSON_parse (text response) = Some data
            /\ truthy (first_content data) = true
            /\ parse_block (first_content data) = Ok b
            /\ validateOutput b = Ok b
      end)
  \/ exists message, reply = agent_error_reply message.
Proof.
  unfold AnalyzeGoal.serve.
  destruct (JsString.eqb (http_method req) (lit "OPTIONS")) eqn:Em.
  { apply eqb_eq in Em. left. now split. }
  destruct (AnalyzeGoal.handle req apiKey w) as [[out|e] w1] eqn:E; simpl.
  - left. split; [reflexivity|].
    unfold AnalyzeGoal.handle in E.
    destruct (JSON_parse (http_body req)) as [body|]; [|discriminate].
    apply ExecutorMore.bind_Ok in E as (input & w2 & Hi & E).
    apply ExecutorMore.lift_result_Ok in Hi as [Hi ->].
    destruct apiKey as [[|c key]|]; try discriminate.
    apply ExecutorMore.bind_Ok in E as (response & w3 & Hf & E).
    destruct (JSON_parse (text response)) as [data|] eqn:Ed; [|discriminate].
    assert (Hrest :
      (if negb (truthy (first_content data))
       then throw (Error (lit "No content in AI response"))
       else bind (lift_result (parse_block (first_content data)))
              (fun parsedResponse =>
                 lift_result (validateOutput parsedResponse))) w3
      = (Ok out, w1) ->
      truthy (first_content data) = true
      /\ parse_block (first_content data) = Ok out
      /\ validateOutput out = Ok out).
    { destruct (truthy (first_content data)); [|discriminate].
      cbn [negb]. intros H.
      apply ExecutorMore.bind_Ok in H as (parsed & w4 & Hp & H).
      apply ExecutorMore.lift_result_Ok in Hp as [Hp _].
      apply ExecutorMore.lift_result_Ok in H as [H _].
      pose proof H as H'.
      apply (proj1 (proj2 ValidatorMore.validateOutput_identity)) in H'.
      subst out. now repeat split. }
    assert (Hall : truthy (first_content data) = true
                   /\ parse_block (first_content data) = Ok out
                   /\ validateOutput out = Ok out)
      by (destruct data; first [exact (Hrest E) | discriminate]).
    destruct Hall as (Ht & Hp & Hv).
    exists body, input, response, data.
    repeat split; try assumption. now rewrite Hf.
  - right. now eexists.
Qed.

(** X25. The single-call function sends at most three requests for one
    call of its handler, and none at all for a preflight request, a body
    that is not JSON, an input that does not validate, or a missing or
    empty API key. *)
Theorem single_call_serve_requests
        (req : HttpRequest) (apiKey : option jsstring)
        (w : world GoalInput) :
  (calls (snd (AnalyzeGoal.serve req apiKey w)) <= calls w + 3)%nat
  /\ (http_method req = lit "OPTIONS"
      \/ JSON_parse (http_body req) = None
      \/ (exists body e,
            JSON_parse (http_body req) = Some body
            /\ AnalyzeGoal.validateInput body = Err e)
      \/ apiKey = None \/ apiKey = Some [] ->
      snd (AnalyzeGoal.serve req apiKey w) = w).
Proof.
  split.
  - unfold AnalyzeGoal.serve.
    destruct (JsString.eqb (http_method req) (lit "OPTIONS")); [simpl; lia|].
    pose proof (handle_calls req apiKey w) as H.
    now destruct (AnalyzeGoal.handle req apiKey w) as [[out|e] w1].
  - intros H. unfold AnalyzeGoal.serve.
    destruct (JsString.eqb (http_method req) (lit "OPTIONS")) eqn:Em;
      [reflexivity|].
    assert (Hh : snd (AnalyzeGoal.handle req apiKey w) = w).
    { unfold AnalyzeGoal.handle. destruct H as [H | [H | [H | H]]].
      - rewrite H, eqb_refl in Em. discriminate.
      - now rewrite H.
      - destruct H as (body & e & -> & He).
        unfold bind, lift_result. now rewrite He.
      - destruct (JSON_parse (http_body req)); [|reflexivity].
        unfold bind at 1, lift_result at 1.
        destruct (AnalyzeGoal.validateInput j); [|reflexivity].
        destruct H as [-> | ->]; reflexivity. }
    destruct (AnalyzeGoal.handle req apiKey w) as [[r|e] w1]; exact Hh.
Qed.

End SingleCall.

End HandlerMore.

(* ================================================================== *)
(** ** The goal form against the validation of the two functions *)

Module FormMore.
Import Agent GoalForm Scenario Vocabulary Behaviour JsStringFacts ValidatorFacts.

Lemma member_Priority_name (p : Priority) :
  member Priority_name validPriorities (JStr (Priority_name p)) = Some p.
Proof. now destruct p. Qed.

Lemma truthy_trim (s : jsstring) :
  truthy (JStr (trim s)) = negb (is_empty (trim s)).
Proof. unfold is_empty. now destruct (trim s). Qed.

Lemma get_GoalInput_value (input : GoalInput) :
  get (GoalInput_value input) "goal" = JStr (goal input)
  /\ get (GoalInput_value input) "priority"
     = JStr (Priority_name (priority input))
  /\ get (GoalInput_value input) "timeAvailable"
     = match timeAvailable input with
       | Some t => JStr t
       | None => JUndefined
       end.
Proof.
  unfold GoalInput_value.
  destruct (timeAvailable input); repeat split; reflexivity.
Qed.

(** X26. What the goal form submits is accepted by both functions, with
    one exception: the form sets no limit on the length of the goal, so a
    trimmed goal of more than 1000 code units is submitted and then
    refused by the planning agent under the field goal. The form submits
    nothing exactly when the goal is blank, and it never submits an empty
    time. An accepted input comes back as it was submitted. *)
Theorem handleSubmit_against_validateInput
        (goal : jsstring) (priority : Priority) (timeAvailable : jsstring) :
  match handleSubmit goal priority timeAvailable with
  | None => blank goal = true
  | Some input =>
      blank goal = false
      /\ Schema.goal input = trim goal
      /\ Schema.timeAvailable input <> Some []
      /\ validateInput (GoalInput_value input)
         = (if (1000 <? List.length (trim goal))%nat
            then Err (ValidationError (lit "goal")
                        (lit "Goal must be less than 1000 characters"))
            else Ok input)
      /\ AnalyzeGoal.validateInput (GoalInput_value input) = Ok input
  end.
Proof.
  unfold handleSubmit. rewrite !truthy_trim, negb_involutive, trim_blank.
  destruct (blank goal) eqn:Hb; [reflexivity|].
  set (input := {| Schema.goal := trim goal |}).
  destruct (get_GoalInput_value input) as (Hg & Hp & Ht).
  assert (Hne : is_empty (trim (trim goal)) = false)
    by now rewrite trim_idem, trim_blank.
  split; [reflexivity|]. split; [reflexivity|]. split.
  { subst input. cbn [Schema.timeAvailable].
    destruct (is_empty (trim timeAvailable)) eqn:E; [discriminate|].
    intros [= H]. now rewrite H in E. }
  split.
  - unfold validateInput.
    assert (Hobj : not_an_object (GoalInput_value input) = false)
      by reflexivity.
    rewrite Hobj, Hg, Hp, Ht. cbn [negb Schema.goal input].
    unfold string_unless. rewrite Hne. cbn [bindR].
    destruct (1000 <? List.length (trim goal))%nat; [reflexivity|].
    cbn [negb]. rewrite member_Priority_name.
    subst input. cbn [Schema.timeAvailable Schema.priority].
    rewrite trim_idem.
    now destruct (negb (is_empty (trim timeAvailable))).
  - unfold AnalyzeGoal.validateInput.
    assert (Hobj : not_an_object (GoalInput_value input) = false)
      by reflexivity.
    rewrite Hobj, Hg, Hp, Ht. cbn [Schema.goal input].
    unfold is_empty in Hne. rewrite Hne, member_Priority_name.
    subst input. cbn [Schema.timeAvailable Schema.priority].
    now destruct (negb (is_empty (trim timeAvailable))).
Qed.

End FormMore.

(* ================================================================== *)
(** ** Number literals as [JSON.parse] reads them *)

Module NumberFacts.
Import Agent Scenario.

(** A literal is read as the nearest double: exactly when it is one, as
    its neighbour when it is not, as an infinity beyond the largest
    double, and as zero below half the smallest one. *)
Example JSON_parse_numbers :
  JSON_parse (lit "1.5") = Some (JNum (NumFin (3 # 2)%Q))
  /\ JSON_parse (lit "0.1")
     = Some (JNum (NumFin (3602879701896397 # 36028797018963968)%Q))
  /\ JSON_parse (lit "0.99999999999999999") = Some (JNum (NumFin 1))
  /\ JSON_parse (lit "9007199254740993")
     = Some (JNum (NumFin (inject_Z 9007199254740992)))
  /\ JSON_parse (lit "1e400") = Some (JNum (NumInf false))
  /\ JSON_parse (lit "-1e400") = Some (JNum (NumInf true))
  /\ JSON_parse (lit "1e-400") = Some (JNum (NumFin 0)).
Proof. repeat split; vm_compute; reflexivity. Qed.

(** A step numbered 0.99999999999999999 is numbered 1 once parsed, and
    validates; a step numbered 1e400 is numbered Infinity, which is a
    number not below 1, and validates as well. *)
Example validateActionStep_rounded_numbers :
  (exists s,
      bindR (parseJSONResponse (JStr (json_lit
        "{'stepNumber':0.99999999999999999,'title':'a','description':'b','estimatedTime':'c','dependencies':[]}")))
        (fun step => validateActionStep step 0) = Ok s
      /\ stepNumber s = NumFin 1)
  /\ (exists s,
        bindR (parseJSONResponse (JStr (json_lit
          "{'stepNumber':1e400,'title':'a','description':'b','estimatedTime':'c','dependencies':[]}")))
          (fun step => validateActionStep step 0) = Ok s
        /\ stepNumber s = NumInf false).
Proof. split; eexists; split; vm_compute; reflexivity. Qed.

End NumberFacts.
